(** * EMR-Adapter: a shallow embedding of the adapter core

    The development follows the layering of the TypeScript sources:

    - [Js]        : the fragment of the JavaScript run time the code relies
                    on (strings, JSON values, dates, regular expressions);
    - [Types]     : the declarations of types/index.ts and of the canonical
                    model, and the values that are thrown;
    - [Runtime]   : the world, the environment and the monad;
    - [Transport] : [HTTPClient], [SessionManager] and [RetryHandler];
    - [Adapters]  : [BaseAdapter], [WellSkyAdapter], [AdapterFactory];
    - [Services]  : [VisitNoteService] and [AuthenticationService].

    Strings are sequences of bytes; the sources compare and search them
    for ASCII text only.

    Stateful code is written in a state-and-exception monad over a [World]
    that holds the adapter's session manager, the files it persists to, the
    wall clock and the trace of network calls and sleeps.  Everything the
    code obtains from outside (the answers of [fetch], the time zone, the
    engine's date parser) is a component of an explicit environment. *)

From Stdlib Require Import ZArith Ascii String List Bool Lia DecimalString.
From stdpp Require Import base option list strings gmap.
Import ListNotations.

Local Open Scope string_scope.

(* ===================================================================== *)
(** ** JavaScript strings *)
(* ===================================================================== *)

Module Js.

(** [hay.includes(needle)] *)
Fixpoint includes (needle hay : string) : bool :=
  String.prefix needle hay ||
  match hay with
  | EmptyString => false
  | String _ hay' => includes needle hay'
  end.

(** [s.startsWith(p)] *)
Definition startsWith (p s : string) : bool := String.prefix p s.

(** [s.split(sep)[0]] for a one-character separator: the text before the
    first occurrence of [sep], the whole string when there is none. *)
Fixpoint splitHead (sep : ascii) (s : string) : string :=
  match s with
  | EmptyString => EmptyString
  | String c s' => if Ascii.eqb c sep then EmptyString else String c (splitHead sep s')
  end.

(** [s.substring(0, n)] *)
Definition substring0 (n : nat) (s : string) : string := String.substring 0 n s.

(** [String(n)] / template interpolation of an integral number. *)
Definition decimal (n : Z) : string := NilZero.string_of_int (Z.to_int n).

(** [s.padStart(n, c)] for a one-character pad. *)
Definition padStart (n : nat) (c : ascii) (s : string) : string :=
  String.concat EmptyString (repeat (String c EmptyString) (n - String.length s)) ++ s.

(** [a.join(sep)] *)
Definition join (sep : string) (l : list string) : string := String.concat sep l.

(** A string is falsy exactly when it is empty. *)
Definition nonEmpty (s : string) : bool :=
  match s with EmptyString => false | _ => true end.

(** An optional string property: [undefined] (absent) and [''] are falsy. *)
Definition truthyStr (o : option string) : bool :=
  match o with Some s => nonEmpty s | None => false end.

(* --------------------------------------------------------------------- *)
(** ** JSON values (what [response.json()] and [JSON.parse] produce) *)

(** Numbers are restricted to integers; objects keep their fields in
    insertion order. *)
#[warnings="-register-all"]
Inductive Json : Type :=
| JNull
| JBool (b : bool)
| JNum (n : Z)
| JStr (s : string)
| JArr (items : list Json)
| JObj (fields : list (string * Json)).

(** Property read [o[k]] on an object's own fields; [None] is [undefined]. *)
Fixpoint getField (k : string) (fields : list (string * Json)) : option Json :=
  match fields with
  | [] => None
  | (k', v) :: rest => if String.eqb k k' then Some v else getField k rest
  end.

(** Property read on an arbitrary non-nullish value: only objects carry
    own fields in this model. *)
Definition getProp (k : string) (v : Json) : option Json :=
  match v with
  | JObj fields => getField k fields
  | _ => None
  end.

(** ToBoolean *)
Definition truthy (v : Json) : bool :=
  match v with
  | JNull => false
  | JBool b => b
  | JNum n => negb (Z.eqb n 0)
  | JStr s => nonEmpty s
  | JArr _ | JObj _ => true
  end.

Definition truthyOpt (o : option Json) : bool :=
  match o with Some v => truthy v | None => false end.

(** [typeof v === 'string'] and [typeof v === 'object'] *)
Definition isString (v : Json) : bool :=
  match v with JStr _ => true | _ => false end.

Definition isObject (v : Json) : bool :=
  match v with JNull | JArr _ | JObj _ => true | _ => false end.

(* --------------------------------------------------------------------- *)
(** ** Dates *)

(** A [Date] object holds a time value in milliseconds since the epoch, or
    NaN ([InvalidDate]). *)
Inductive JsDate : Type :=
| ValidDate (ms : Z)
| InvalidDate.

Local Open Scope Z_scope.

Definition msPerDay : Z := 86400000.

(** Year, month (1..12) and day of the month of a day number counted from
    1970-01-01 in the proleptic Gregorian calendar. *)
Definition civilFromDays (z : Z) : Z * Z * Z :=
  let z := z + 719468 in
  let era := z / 146097 in
  let doe := z - era * 146097 in
  let yoe := (doe - doe / 1460 + doe / 36524 - doe / 146096) / 365 in
  let y := yoe + era * 400 in
  let doy := doe - (365 * yoe + yoe / 4 - yoe / 100) in
  let mp := (5 * doy + 2) / 153 in
  let d := doy - (153 * mp + 2) / 5 + 1 in
  let m := if mp <? 10 then mp + 3 else mp - 9 in
  (if m <=? 2 then y + 1 else y, m, d).

(** The inverse direction, used by the reference date parser. *)
Definition daysFromCivil (y m d : Z) : Z :=
  let y := if m <=? 2 then y - 1 else y in
  let era := y / 400 in
  let yoe := y - era * 400 in
  let mp := if 2 <? m then m - 3 else m + 9 in
  let doy := (153 * mp + 2) / 5 + d - 1 in
  let doe := yoe * 365 + yoe / 4 - yoe / 100 + doy in
  era * 146097 + doe - 719468.

Definition pad (n : nat) (v : Z) : string := padStart n "0"%char (decimal v).

(** [d.toISOString()] of a valid time value (the method throws a
    [RangeError] on an invalid date, see [Transport.saveSession]). *)
Definition toISOString (ms : Z) : string :=
  let day := ms / msPerDay in
  let tod := ms mod msPerDay in
  let '(y, m, d) := civilFromDays day in
  let year :=
    if (0 <=? y) && (y <=? 9999) then pad 4 y
    else ((if (y <? 0)%Z then "-" else "+") ++ pad 6 (Z.abs y))%string in
  (year ++ "-" ++ pad 2 m ++ "-" ++ pad 2 d ++ "T" ++
   pad 2 (tod / 3600000) ++ ":" ++ pad 2 (tod / 60000 mod 60) ++ ":" ++
   pad 2 (tod / 1000 mod 60) ++ "." ++ pad 3 (tod mod 1000) ++ "Z")%string.

(** [Date.now() / 1000] interpolated into a template, for a clock at or
    after the epoch: the quotient, with the millisecond remainder as a
    fraction without trailing zeros. *)
Definition secondsString (now : Z) : string :=
  let q := now / 1000 in
  let r := now mod 1000 in
  if r =? 0 then decimal q
  else
    let frac :=
      if r mod 100 =? 0 then decimal (r / 100)
      else if r mod 10 =? 0 then pad 2 (r / 10)
      else pad 3 r in
    (decimal q ++ "." ++ frac)%string.

(* --------------------------------------------------------------------- *)
(** ** The regular expressions of [extractCSRFToken]

    The three patterns are sequences of the atoms below and carry the [i]
    flag.  [search] is [String.prototype.match] for such a pattern: the
    leftmost start position that matches, greedy quantifiers giving back
    one character at a time, and the text of the single capture group. *)

Inductive Atom : Type :=
| Lit (text : string)                (* literal text, letters in either case *)
| OneOf (chars : list ascii)         (* [...] *)
| OptOneOf (chars : list ascii)      (* [...]? *)
| StarNoneOf (chars : list ascii)    (* [^...]* *)
| CapturePlusNoneOf (chars : list ascii).  (* ([^...]+) *)

Definition lower (c : ascii) : ascii :=
  let n := nat_of_ascii c in
  if (65 <=? n)%nat && (n <=? 90)%nat then ascii_of_nat (n + 32) else c.

Definition member (c : ascii) (cs : list ascii) : bool :=
  existsb (Ascii.eqb c) cs.

(** The rest of [s] after the literal [text], compared without case. *)
Fixpoint stripLit (text s : string) : option string :=
  match text, s with
  | EmptyString, _ => Some s
  | String a text', String b s' =>
      if Ascii.eqb (lower a) (lower b) then stripLit text' s' else None
  | String _ _, EmptyString => None
  end.

Fixpoint matchHere (p : list Atom) (cap : string) (s : string) {struct p}
  : option string :=
  match p with
  | [] => Some cap
  | Lit text :: p' =>
      match stripLit text s with
      | Some s' => matchHere p' cap s'
      | None => None
      end
  | OneOf cs :: p' =>
      match s with
      | String c s' => if member c cs then matchHere p' cap s' else None
      | EmptyString => None
      end
  | OptOneOf cs :: p' =>
      match s with
      | String c s' =>
          if member c cs then
            match matchHere p' cap s' with
            | Some r => Some r
            | None => matchHere p' cap s
            end
          else matchHere p' cap s
      | EmptyString => matchHere p' cap s
      end
  | StarNoneOf cs :: p' =>
      (fix star (s : string) : option string :=
         match s with
         | String c s' =>
             if member c cs then matchHere p' cap s
             else match star s' with
                  | Some r => Some r
                  | None => matchHere p' cap s
                  end
         | EmptyString => matchHere p' cap s
         end) s
  | CapturePlusNoneOf cs :: p' =>
      (fix plus (taken : string) (s : string) : option string :=
         let stop := if nonEmpty taken then matchHere p' taken s else None in
         match s with
         | String c s' =>
             if member c cs then stop
             else match plus (taken ++ String c EmptyString)%string s' with
                  | Some r => Some r
                  | None => stop
                  end
         | EmptyString => stop
         end) EmptyString s
  end.

Fixpoint search (p : list Atom) (s : string) : option string :=
  match matchHere p EmptyString s with
  | Some cap => Some cap
  | None =>
      match s with
      | String _ s' => search p s'
      | EmptyString => None
      end
  end.

(** What the engine and its host supply and the sources take as given:
    the local time zone, the parser behind [new Date(string)] (which is
    implementation-defined outside the ISO format), the numeric reading of
    a string, the text [JSON.stringify] prints and the value [JSON.parse]
    reads ([None] when it throws a [SyntaxError]).  No definition below
    looks inside them. *)
Record Engine : Type := {
  localTZA : Z -> Z;                       (* offset of local time, in ms *)
  Date_parse : string -> JsDate;           (* new Date(s) *)
  stringIsPositive : string -> bool;       (* Number(s) > 0 *)
  JSON_stringify : Json -> nat -> string;  (* JSON.stringify(v, null, indent) *)
  JSON_parse : string -> option Json;      (* JSON.parse(text) *)
}.

(** [Number.MAX_SAFE_INTEGER] *)
Definition maxSafeInteger : Z := 9007199254740991.

(** [Number::toString] beyond the safe integers, for an integer that is
    a double: the fewest digits [s], with a power of ten [e], such that
    [s * 10 ^ e] still rounds to that double (the one nearest to it when
    there are several), printed with zeros behind them below 1e21 and in
    exponent form from there.  [lo] and [hi] bound the integers that round
    to the double. *)
Definition bits (n : Z) : Z := Z.log2 n + 1.

Fixpoint shortest (fuel : nat) (e : Z) (n lo hi : Z) : Z * Z :=
  match fuel with
  | O => (n, 0)
  | S fuel' =>
      let p := 10 ^ e in
      let first := (lo + p - 1) / p in
      let last := hi / p in
      if first <=? last then
        let down := n / p in
        let nearest :=
          if 2 * (n mod p) <? p then down
          else if p <? 2 * (n mod p) then down + 1
          else if down mod 2 =? 0 then down else down + 1 in
        (Z.max first (Z.min last nearest), e)
      else shortest fuel' (e - 1) n lo hi
  end.

Definition printNumber (n : Z) : string :=
  let a := Z.abs n in
  let ulp := 2 ^ (bits a - 53) in
  let below := if a =? 2 ^ (bits a - 1) then ulp / 4 else ulp / 2 in
  let even := (a / ulp) mod 2 =? 0 in
  let lo := if even then a - below else a - below + 1 in
  let hi := if even then a + ulp / 2 else a + ulp / 2 - 1 in
  let '(s, e) := shortest 400 (Z.log2 a / 3 + 1) a lo hi in
  let digits := decimal s in
  let exponent := e + Z.of_nat (String.length digits) - 1 in
  let sign := if n <? 0 then "-"%string else EmptyString in
  if exponent <? 21 then
    (sign ++ digits ++ string_of_list_ascii (repeat "0"%char (Z.to_nat e)))%string
  else
    match digits with
    | String d EmptyString =>
        (sign ++ String d EmptyString ++ "e+" ++ decimal exponent)%string
    | String d more =>
        (sign ++ String d EmptyString ++ "." ++ more ++ "e+" ++ decimal exponent)%string
    | EmptyString => digits
    end.

(** [String(n)] for an integral number: a safe integer prints all its
    digits. *)
Definition numberToString (n : Z) : string :=
  if Z.abs n <=? maxSafeInteger then decimal n else printNumber n.

(** [String(v)]: arrays join their elements with a comma, [null] elements
    print as the empty string, plain objects print as [[object Object]].
    An object with an own [toString] property, which no JSON value makes
    callable, cannot be converted: [None] is the [TypeError] thrown then. *)
Fixpoint toString (v : Json) : option string :=
  match v with
  | JNull => Some "null"%string
  | JBool true => Some "true"%string
  | JBool false => Some "false"%string
  | JNum n => Some (numberToString n)
  | JStr s => Some s
  | JArr items =>
      option_map (join ",")
        ((fix each (items : list Json) : option (list string) :=
            match items with
            | [] => Some []
            | x :: rest =>
                match (match x with JNull => Some EmptyString | _ => toString x end),
                      each rest with
                | Some a, Some b => Some (a :: b)
                | _, _ => None
                end
            end) items)
  | JObj fields =>
      match getField "toString" fields with
      | Some _ => None
      | None => Some "[object Object]"%string
      end
  end.

(** [JSON.parse(text)]: the empty text is no JSON text; on any other text
    the engine decides. *)
Definition parseJson (eng : Engine) (text : string) : option Json :=
  if nonEmpty text then JSON_parse eng text else None.

(** [new Date(v)] for a truthy JSON value [v]: a string is parsed, a
    number is a time value (within the range of dates), [true] is the
    number one, an array or object is converted to a string first. *)
Definition maxTime : Z := 8640000000000000.

Definition newDate (eng : Engine) (v : Json) : option JsDate :=
  match v with
  | JStr s => Some (Date_parse eng s)
  | JNum n => Some (if Z.abs n <=? maxTime then ValidDate n else InvalidDate)
  | JBool true => Some (ValidDate 1)
  | JBool false => Some (ValidDate 0)
  | JNull => Some (ValidDate 0)
  | JArr _ | JObj _ => option_map (Date_parse eng) (toString v)
  end.

(** The local calendar date of a time value: [getFullYear()],
    [getMonth() + 1], [getDate()]. *)
Definition localDate (eng : Engine) (ms : Z) : Z * Z * Z :=
  civilFromDays ((ms + localTZA eng ms) / msPerDay).

End Js.

Import Js.

(* ===================================================================== *)
(** ** types/index.ts, models/canonical.ts and the vendor request shape *)
(* ===================================================================== *)

Module Types.

Inductive EMRType : Type := WellSky | AxisCare | AlayaCare.

Inductive ErrorType : Type := Authentication | Network | Validation | EMRSpecific.

Record Credentials : Type := {
  username : string;
  password : string;
  baseUrl : option string;
}.

(** [tokens] and [expiresAt] are optional properties. *)
Record Session : Type := {
  cookies : list string;
  tokens : option (gmap string string);
  expiresAt : option JsDate;
}.

Record RetryConfig : Type := {
  maxAttempts : Z;
  backoffMs : Z;
  retryableErrors : list string;
}.

Record Task : Type := {
  task_id : option string;
  task_name : string;
  task_completed : bool;
  task_notes : option string;
}.

(** The canonical record as it exists at run time: the declared types are
    erased, so a property read from a parsed input file may be absent
    ([None]). [metadata] is a [Record<string, any>]. *)
Record VisitNote : Type := {
  visitId : option string;
  patientId : option string;
  caregiverId : option string;
  visitDate : option JsDate;
  startTime : option string;
  endTime : option string;
  note : option string;
  tasks : option (list Task);
  metadata : option (list (string * Json));
}.

(** [WellSkyVisitNoteRequest]: [tags] and [note] carry whatever the record
    held ([metadata] values are untyped, [note] may be absent). *)
Record WellSkyVisitNoteRequest : Type := {
  carelog : string;
  shift : string;
  unavailability : string;
  date : string;
  tags : Json;
  req_note : option string;
  show_with_billing : string;
  show_with_payroll : string;
  csrfmiddlewaretoken : option string;
}.

(** [HTTPResponse] as [HTTPClient.request] returns it. *)
Record HTTPResponse : Type := {
  status : Z;
  statusText : string;
  headers : gmap string string;
  body : Json;
  res_cookies : list string;
}.

(** Values that are thrown.  [PlainError] is any [Error] that is not an
    [EMRAdapterError]; its optional [status] is the property the retry
    predicate of [BaseAdapter] reads.  [Undefined] is what
    [RetryHandler.execute] throws when it made no attempt at all. *)
Inductive Thrown : Type :=
| Undefined
| PlainError (name message : string) (err_status : option Z)
| EMRAdapterError (message : string) (type : ErrorType) (emrType : EMRType)
                  (originalError : Cause)
with Cause : Type :=
| NoCause
| CauseResponse (response : HTTPResponse)
| CauseStatuses (schedulingStatus dashboardStatus : Z)
| CauseForbidden (response : HTTPResponse) (bodyPreview : string)
                 (requestData : WellSkyVisitNoteRequest) (csrfToken : string)
| CauseThrown (error : Thrown).

(** [error instanceof EMRAdapterError] *)
Definition isAdapterError (e : Thrown) : bool :=
  match e with EMRAdapterError _ _ _ _ => true | _ => false end.

(** [error.type] *)
Definition errorType (e : Thrown) : option ErrorType :=
  match e with EMRAdapterError _ t _ _ => Some t | _ => None end.

(** [error.message]; reading it off [undefined] is itself a [TypeError],
    which the callers below handle where the source can meet it. *)
Definition errorMessage (e : Thrown) : option string :=
  match e with
  | Undefined => None
  | PlainError _ m _ => Some m
  | EMRAdapterError m _ _ _ => Some m
  end.

(** [error.status] *)
Definition errorStatus (e : Thrown) : option Z :=
  match e with
  | PlainError _ _ s => s
  | _ => None
  end.

(** [String(error)] for an [Error]: the name, then the message. *)
Definition errorToString (e : Thrown) : string :=
  match e with
  | Undefined => "undefined"
  | PlainError n m _ => if nonEmpty m then n ++ ": " ++ m else n
  | EMRAdapterError m _ _ _ =>
      if nonEmpty m then "EMRAdapterError: " ++ m else "EMRAdapterError"
  end.

(** What converting an object without a usable [toString] to a string or
    a number throws. *)
Definition notPrimitive : Thrown :=
  PlainError "TypeError" "Cannot convert object to primitive value" None.

Record PostResult : Type := {
  success : bool;
  res_visitId : option string;
  timestamp : Z;
  request : option WellSkyVisitNoteRequest;
  response : option Json;
  error : option string;
}.

End Types.

Import Types.

(* ===================================================================== *)
(** ** The world the adapter runs in *)
(* ===================================================================== *)

Module Runtime.

(** The call [HTTPClient.request] hands to [fetch].  A request body is
    always the serialisation of a [URLSearchParams] object in these
    sources; it is kept as the list of appended pairs. *)
Record FetchCall : Type := {
  url : string;
  method : string;
  fetchHeaders : gmap string string;
  fetchBody : option (list (string * string));
  redirectFollow : bool;
}.

(** What [fetch] gives back: a response (its body already decoded by
    content type, to text as a [JStr] or to a JSON value), or a rejection
    with an error of the given name and message.  A body that fails to
    decode is one of the rejections. *)
Record RawResponse : Type := {
  raw_status : Z;
  raw_statusText : string;
  raw_headers : gmap string string;
  raw_setCookie : list string;
  raw_body : Json;
}.

Inductive FetchOutcome : Type :=
| FetchResponse (r : RawResponse)
| FetchRejected (name message : string) (err_status : option Z).

Inductive Event : Type :=
| EvFetch (call : FetchCall) (outcome : FetchOutcome)
| EvSleep (ms : Z).

(** A file that exists holds text, which the process may or may not be
    allowed to read. *)
Inductive FileEntry : Type :=
| Unreadable
| Readable (text : string).

(** One adapter instance and its surroundings: the fields of its
    [SessionManager], the file system, the wall clock, and the history of
    network calls and sleeps. *)
Record World : Type := {
  session : option Session;
  sessionFilePath : option string;
  files : gmap string FileEntry;
  now : Z;
  trace : list Event;
}.

(** The surroundings' behaviour: how the network answers a call given
    everything that happened before and how long, in ms, the answer (or
    the rejection) takes to arrive, which paths can be written, and the
    engine. *)
Record Env : Type := {
  fetch : list Event -> FetchCall -> FetchOutcome;
  latency : list Event -> FetchCall -> Z;
  canWrite : string -> bool;
  engine : Engine;
}.

Definition setSessionField (s : option Session) (w : World) : World :=
  {| session := s; sessionFilePath := sessionFilePath w; files := files w;
     now := now w; trace := trace w |}.

Definition setPath (p : option string) (w : World) : World :=
  {| session := session w; sessionFilePath := p; files := files w;
     now := now w; trace := trace w |}.

Definition setFiles (f : gmap string FileEntry) (w : World) : World :=
  {| session := session w; sessionFilePath := sessionFilePath w; files := f;
     now := now w; trace := trace w |}.

Definition record (ev : Event) (w : World) : World :=
  {| session := session w; sessionFilePath := sessionFilePath w;
     files := files w; now := now w; trace := trace w ++ [ev] |}.

Definition advance (ms : Z) (w : World) : World :=
  {| session := session w; sessionFilePath := sessionFilePath w;
     files := files w; now := (now w + Z.max 0 ms)%Z; trace := trace w |}.

(** The world once [fetch] has settled a call: the call and its outcome
    are on record and the clock has moved on by the time it took. *)
Definition settle (env : Env) (call : FetchCall) (outcome : FetchOutcome) (w : World)
  : World :=
  advance (latency env (trace w) call) (record (EvFetch call outcome) w).

(** *** Computations that may throw *)

Inductive Result (A : Type) : Type :=
| Ok (a : A)
| Throw (e : Thrown).
Arguments Ok {A} a.
Arguments Throw {A} e.

(** A thrown value leaves the mutations made so far in place. *)
Definition M (A : Type) : Type := World -> Result A * World.

Definition ret {A} (a : A) : M A := fun w => (Ok a, w).

Definition throw {A} (e : Thrown) : M A := fun w => (Throw e, w).

Definition bind {A B} (m : M A) (k : A -> M B) : M B :=
  fun w =>
    match m w with
    | (Ok a, w') => k a w'
    | (Throw e, w') => (Throw e, w')
    end.

(** [try { m } catch (error) { handler(error) }] *)
Definition tryCatch {A} (m : M A) (handler : Thrown -> M A) : M A :=
  fun w =>
    match m w with
    | (Ok a, w') => (Ok a, w')
    | (Throw e, w') => handler e w'
    end.

Definition gets {A} (f : World -> A) : M A := fun w => (Ok (f w), w).

Definition modify (f : World -> World) : M unit := fun w => (Ok tt, f w).

Declare Scope js_scope.
Delimit Scope js_scope with js.
Notation "x <- m ;; k" := (bind m (fun x => k))
  (at level 100, m at next level, right associativity) : js_scope.
Notation "m ;;; k" := (bind m (fun _ => k))
  (at level 100, right associativity) : js_scope.

(** [await new Promise(resolve => setTimeout(resolve, ms))]: the sleep is
    recorded and the clock moves on by the delay. *)
Definition sleep (ms : Z) : M unit :=
  modify (fun w => advance ms (record (EvSleep ms) w)).

(** The fetch calls and the sleeps of a trace. *)
Definition fetchCalls (t : list Event) : list FetchCall :=
  flat_map (fun ev => match ev with EvFetch c _ => [c] | EvSleep _ => [] end) t.

Definition sleeps (t : list Event) : list Z :=
  flat_map (fun ev => match ev with EvSleep ms => [ms] | EvFetch _ _ => [] end) t.

(** The methods of the calls made and the statuses of the answers. *)
Definition methods (t : list Event) : list string :=
  List.map method (fetchCalls t).

Definition statuses (t : list Event) : list Z :=
  flat_map (fun ev => match ev with
                      | EvFetch _ (FetchResponse r) => [raw_status r]
                      | _ => []
                      end) t.

End Runtime.

Import Runtime.
Local Open Scope js_scope.

(* ===================================================================== *)
(** ** transport/http-client.ts, session-manager.ts, retry-handler.ts *)
(* ===================================================================== *)

Module Transport.

Section WithEnv.

Variable env : Env.

(** *** HTTPClient *)

Record HTTPRequestOptions : Type := {
  opt_headers : gmap string string;
  opt_body : option (list (string * string));
  opt_cookies : list string;
  opt_timeout : option Z;
  opt_followRedirects : option bool;
}.

Definition noOptions : HTTPRequestOptions :=
  {| opt_headers := ∅; opt_body := None; opt_cookies := [];
     opt_timeout := None; opt_followRedirects := None |}.

Definition defaultTimeout : Z := 30000.

(** The arguments [HTTPClient.request] passes to [fetch]: the caller's
    headers, a [Cookie] header when there are cookies, the body when it is
    not empty, the redirect mode. *)
Definition fetchCall (method : string) (url : string) (options : HTTPRequestOptions)
  : FetchCall :=
  let followRedirects := default true (opt_followRedirects options) in
  let requestHeaders :=
    match opt_cookies options with
    | [] => opt_headers options
    | cs => <["Cookie" := join "; " cs]> (opt_headers options)
    end in
  let requestBody :=
    match opt_body options with
    | Some (p :: ps) => Some (p :: ps)
    | _ => None                        (* an empty string is falsy *)
    end in
  {| url := url; method := method; fetchHeaders := requestHeaders;
     fetchBody := requestBody; redirectFollow := followRedirects |}.

(** The [HTTPResponse] built from what [fetch] returned: each [Set-Cookie]
    header is cut down to its [name=value] part. *)
Definition toResponse (r : RawResponse) : HTTPResponse :=
  {| status := raw_status r;
     statusText := raw_statusText r;
     headers := raw_headers r;
     body := raw_body r;
     res_cookies := List.map (splitHead ";") (raw_setCookie r) |}.

(** [HTTPClient.request] with the method already chosen by [get]/[post]. *)
Definition request (method : string) (url : string) (options : HTTPRequestOptions)
  : M HTTPResponse :=
  fun w =>
    let timeout := default defaultTimeout (opt_timeout options) in
    let call := fetchCall method url options in
    let outcome := fetch env (trace w) call in
    let w' := settle env call outcome w in
    match outcome with
    | FetchResponse r => (Ok (toResponse r), w')
    | FetchRejected name message st =>
        if String.eqb name "AbortError"
        then (Throw (PlainError "Error"
                       ("Request timeout after " ++ decimal timeout ++ "ms") None), w')
        else (Throw (PlainError name message st), w')
    end.

Definition get (url : string) (options : HTTPRequestOptions) : M HTTPResponse :=
  request "GET" url options.

Definition post (url : string) (options : HTTPRequestOptions) : M HTTPResponse :=
  request "POST" url options.

(** *** SessionManager *)

Definition setSession (s : Session) : M unit :=
  modify (setSessionField (Some s)).

Definition getSession : M (option Session) := gets session.

(** [this.session?.cookies || []] *)
Definition cookiesOf (s : option Session) : list string :=
  match s with Some s => cookies s | None => [] end.

(** [this.session?.tokens || {}] *)
Definition tokensOf (s : option Session) : gmap string string :=
  match s with
  | Some s => default ∅ (tokens s)
  | None => ∅
  end.

Definition getCookies : M (list string) := gets (fun w => cookiesOf (session w)).

Definition getTokens : M (gmap string string) := gets (fun w => tokensOf (session w)).

(** The name under which a cookie string is filed: [cookie.split('=')[0]]. *)
Definition cookieName (cookie : string) : string := splitHead "=" cookie.

(** [Map.prototype.set] on a map kept in insertion order: an existing key
    keeps its place and takes the new value, a new key goes last. *)
Fixpoint mapSet (k v : string) (m : list (string * string)) : list (string * string) :=
  match m with
  | [] => [(k, v)]
  | (k', v') :: rest =>
      if String.eqb k k' then (k, v) :: rest else (k', v') :: mapSet k v rest
  end.

(** The body of both [forEach] loops of [updateCookies]. *)
Definition setCookie (m : list (string * string)) (cookie : string)
  : list (string * string) :=
  let name := cookieName cookie in
  if nonEmpty name then mapSet name cookie m else m.

(** [Array.from(existingCookies.values())] after both loops. *)
Definition mergeCookies (existing incoming : list string) : list string :=
  List.map snd (fold_left setCookie incoming (fold_left setCookie existing [])).

Definition updateCookies (incoming : list string) : M unit :=
  modify (fun w =>
    match session w with
    | Some s =>
        setSessionField
          (Some {| cookies := mergeCookies (cookies s) incoming;
                   tokens := tokens s; expiresAt := expiresAt s |}) w
    | None =>
        setSessionField
          (Some {| cookies := incoming; tokens := Some ∅; expiresAt := None |}) w
    end).

(** [{ ...this.session.tokens, ...tokens }]: the right operand wins. *)
Definition updateTokens (incoming : gmap string string) : M unit :=
  modify (fun w =>
    match session w with
    | Some s =>
        setSessionField
          (Some {| cookies := cookies s;
                   tokens := Some (incoming ∪ default ∅ (tokens s));
                   expiresAt := expiresAt s |}) w
    | None =>
        setSessionField
          (Some {| cookies := []; tokens := Some incoming; expiresAt := None |}) w
    end).

Definition clearSession : M unit := modify (setSessionField None).

(** [new Date() >= expiresAt]; a comparison with an invalid date is false. *)
Definition expiredAt (t : Z) (s : Session) : bool :=
  match expiresAt s with
  | None => false
  | Some InvalidDate => false
  | Some (ValidDate e) => (e <=? t)%Z
  end.

(** [isExpired] read at the instant [t]. *)
Definition isExpiredAt (t : Z) (s : option Session) : bool :=
  match s with
  | None => false
  | Some s => expiredAt t s
  end.

Definition isExpired : M bool := gets (fun w => isExpiredAt (now w) (session w)).

Definition setSessionFilePath (path : string) : M unit :=
  modify (setPath (Some path)).

(** [writeFileSync(path, text, 'utf-8')] *)
Definition writeFileSync (path : string) (text : string) : M unit :=
  fun w =>
    if canWrite env path
    then (Ok tt, setFiles (<[path := Readable text]> (files w)) w)
    else (Throw (PlainError "Error" ("EACCES: permission denied, open '" ++ path ++ "'") None), w).

(** [readFileSync(path, 'utf-8')] *)
Definition readFileSync (path : string) : M string :=
  fun w =>
    match files w !! path with
    | None =>
        (Throw (PlainError "Error"
                  ("ENOENT: no such file or directory, open '" ++ path ++ "'") None), w)
    | Some Unreadable =>
        (Throw (PlainError "Error"
                  ("EACCES: permission denied, open '" ++ path ++ "'") None), w)
    | Some (Readable text) => (Ok text, w)
    end.

Definition existsSync (path : string) (w : World) : bool :=
  match files w !! path with Some _ => true | None => false end.

(** A [Record<string, string>] as a JSON object, and a [string[]] as a
    JSON array.  The order in which the keys of the record are printed is
    not modelled: the keys come in the order of the map. *)
Definition tokensJson (t : gmap string string) : Json :=
  JObj (List.map (fun kv => (fst kv, JStr (snd kv))) (map_to_list t)).

Definition cookiesJson (cs : list string) : Json := JArr (List.map JStr cs).

(** The object [saveSession] serialises, as [JSON.stringify] sees it: the
    session's own properties, [expiresAt] replaced by its ISO text;
    [undefined] properties are left out.  [toISOString] throws on an
    invalid date. *)
Definition sessionData (s : Session) : Result Json :=
  let properties (expiry : list (string * Json)) :=
    JObj ([("cookies", cookiesJson (cookies s))] ++
          match tokens s with
          | Some t => [("tokens", tokensJson t)]
          | None => []
          end ++ expiry) in
  match expiresAt s with
  | Some InvalidDate => Throw (PlainError "RangeError" "Invalid time value" None)
  | Some (ValidDate ms) => Ok (properties [("expiresAt", JStr (toISOString ms))])
  | None => Ok (properties [])
  end.

Definition saveSession : M unit :=
  fun w =>
    match session w, sessionFilePath w with
    | Some s, Some path =>
        if nonEmpty path then
          tryCatch
            (match sessionData s with
             | Ok data => writeFileSync path (JSON_stringify (engine env) data 2)
             | Throw e => throw e
             end)
            (fun _ => ret tt)            (* console.warn *)
            w
        else (Ok tt, w)
    | _, _ => (Ok tt, w)
    end.

Definition isExpiredForSession (s : Session) : M bool :=
  gets (fun w => expiredAt (now w) s).

(** A JSON value read at the declared type [string[]] or
    [Record<string, string>]; [None] when it does not have that type. *)
Fixpoint asStrings (items : list Json) : option (list string) :=
  match items with
  | [] => Some []
  | JStr s :: rest => option_map (cons s) (asStrings rest)
  | _ :: _ => None
  end.

Fixpoint asStringMap (fields : list (string * Json)) : option (gmap string string) :=
  match fields with
  | [] => Some ∅
  | (k, JStr v) :: rest => option_map (fun m => <[k := v]> m) (asStringMap rest)
  | _ :: _ => None
  end.

(** [data.cookies || []] and [data.tokens || {}].  The declared type
    [Session] of the result is taken at its word: a truthy property that
    is not of its declared type is outside this model and reads here as if
    it were absent. *)
Definition cookiesProp (data : Json) : list string :=
  match getProp "cookies" data with
  | Some (JArr items) => default [] (asStrings items)
  | _ => []
  end.

Definition tokensProp (data : Json) : gmap string string :=
  match getProp "tokens" data with
  | Some (JObj fields) => default ∅ (asStringMap fields)
  | _ => ∅
  end.

(** [...(data.expiresAt && { expiresAt: new Date(data.expiresAt) })]: a
    falsy operand spreads to nothing. *)
Definition expiresAtProp (data : Json) : Result (option JsDate) :=
  match getProp "expiresAt" data with
  | Some v =>
      if truthy v then
        match newDate (engine env) v with
        | Some d => Ok (Some d)
        | None => Throw notPrimitive
        end
      else Ok None
  | None => Ok None
  end.

(** [JSON.parse(readFileSync(path, 'utf-8'))] followed by the property
    reads that build the session. *)
Definition readSession (path : string) : M Session :=
  text <- readFileSync path ;;
  match parseJson (engine env) text with
  | None => throw (PlainError "SyntaxError" "Unexpected token in JSON" None)
  | Some JNull =>
      throw (PlainError "TypeError"
               "Cannot read properties of null (reading 'cookies')" None)
  | Some data =>
      match expiresAtProp data with
      | Throw e => throw e
      | Ok expiry =>
          ret {| cookies := cookiesProp data;
                 tokens := Some (tokensProp data);
                 expiresAt := expiry |}
      end
  end.

Definition loadSession : M (option Session) :=
  fun w =>
    match sessionFilePath w with
    | Some path =>
        if nonEmpty path && existsSync path w then
          tryCatch
            (s <- readSession path ;;
             expired <- isExpiredForSession s ;;
             if (expired : bool) then ret None
             else modify (setSessionField (Some s)) ;;; ret (Some s))
            (fun _ => ret None)
            w
        else (Ok None, w)
    | None => (Ok None, w)
    end.

Definition clearSessionFile : M unit :=
  fun w =>
    let w1 :=
      match sessionFilePath w with
      | Some path =>
          if nonEmpty path && existsSync path w
          then snd (tryCatch (writeFileSync path EmptyString) (fun _ => ret tt) w)
          else w
      | None => w
      end in
    (Ok tt, setSessionField None w1).

(** *** RetryHandler *)

(** [error?.message || String(error)] *)
Definition messageOrString (e : Thrown) : string :=
  match errorMessage e with
  | Some m => if nonEmpty m then m else errorToString e
  | None => errorToString e
  end.

Section Execute.

Context {T : Type}.
Variable config : RetryConfig.
Variable fn : M T.
Variable isRetryableError : option (Thrown -> bool).

(** The [while (attempt < maxAttempts)] loop.  [remaining] is the loop's
    variant [maxAttempts - attempt]: the loop is left when it reaches
    zero, and the [break] inside leaves it one failure earlier. *)
Fixpoint attempts (remaining : nat) (attempt : Z) (lastError : Thrown) : M T :=
  match remaining with
  | O => throw lastError
  | S remaining' =>
      tryCatch fn (fun error =>
        let attempt := (attempt + 1)%Z in
        if (maxAttempts config <=? attempt)%Z then throw error
        else if match isRetryableError with
                | Some p => negb (p error)
                | None => false
                end then throw error
        else
          let shouldRetry :=
            existsb (fun pattern => includes pattern (messageOrString error))
                    (retryableErrors config) in
          if negb shouldRetry &&
             match isRetryableError with Some _ => false | None => true end
          then throw error
          else
            let delay := (backoffMs config * 2 ^ (attempt - 1))%Z in
            sleep delay ;;;
            attempts remaining' attempt error)
  end.

Definition execute : M T :=
  attempts (Z.to_nat (maxAttempts config)) 0 Undefined.

End Execute.

Definition messageIncludes (marker : string) (e : Thrown) : bool :=
  match errorMessage e with
  | Some m => includes marker m
  | None => false
  end.

Definition isNetworkError (e : Thrown) : bool :=
  messageIncludes "timeout" e || messageIncludes "network" e ||
  messageIncludes "ECONNREFUSED" e || messageIncludes "ENOTFOUND" e.

Definition isServerError (status : Z) : bool :=
  ((500 <=? status) && (status <? 600))%Z.

Definition isAuthError (status : Z) : bool :=
  ((status =? 401) || (status =? 403))%Z.

End WithEnv.

End Transport.

Import Transport.

(* ===================================================================== *)
(** ** adapters/base-adapter.ts, wellsky-adapter.ts, adapter-factory.ts *)
(* ===================================================================== *)

Module Adapters.

Section WithEnv.

Variable env : Env.

(** *** BaseAdapter *)

(** The configuration the constructor gives its [RetryHandler]. *)
Definition retryConfig : RetryConfig :=
  {| maxAttempts := 3; backoffMs := 1000;
     retryableErrors := ["timeout"; "network"; "ECONNREFUSED"] |}.

(** The predicate [handleRetry] passes to [execute]. *)
Definition defaultRetryable (error : Thrown) : bool :=
  if isNetworkError error then true
  else
    match errorStatus error with
    | Some st => if negb (st =? 0)%Z && isServerError st then true else false
    | None => false
    end.

Definition handleRetry {T} (fn : M T) : M T :=
  execute retryConfig fn (Some defaultRetryable).

Definition validateResponse (emr : EMRType) (response : option HTTPResponse) : M unit :=
  match response with
  | None => throw (EMRAdapterError "Empty response from EMR" Network emr NoCause)
  | Some r =>
      if (400 <=? status r)%Z then
        let errorType := if isAuthError (status r) then Authentication else EMRSpecific in
        throw (EMRAdapterError
                 ("EMR request failed: " ++ decimal (status r) ++ " " ++ statusText r)
                 errorType emr (CauseResponse r))
      else ret tt
  end.

(** [session !== null && !this.sessionManager.isExpired()] *)
Definition isAuthenticated : M bool :=
  s <- getSession ;;
  expired <- isExpired ;;
  ret (match s with Some _ => negb expired | None => false end).

(** *** WellSkyAdapter *)

Definition baseUrlDefault : string := "https://avasandbox.clearcareonline.com".

(** The class of the double and the single quote character, [Q] below. *)
Definition quotes : list ascii := [ascii_of_nat 34; ascii_of_nat 39].

(** [/<input[^>]*name=Q csrfmiddlewaretoken Q[^>]*value=Q([^Q]+)Q/i] *)
Definition csrfPattern : list Atom :=
  [Lit "<input"; StarNoneOf [">"%char]; Lit "name="; OneOf quotes;
   Lit "csrfmiddlewaretoken"; OneOf quotes; StarNoneOf [">"%char];
   Lit "value="; OneOf quotes; CapturePlusNoneOf quotes; OneOf quotes].

(** [/<input[^>]*name=Q csrf[_-]?token Q[^>]*value=Q([^Q]+)Q/i] *)
Definition genericPattern : list Atom :=
  [Lit "<input"; StarNoneOf [">"%char]; Lit "name="; OneOf quotes;
   Lit "csrf"; OptOneOf ["_"%char; "-"%char]; Lit "token"; OneOf quotes;
   StarNoneOf [">"%char];
   Lit "value="; OneOf quotes; CapturePlusNoneOf quotes; OneOf quotes].

(** [/<meta[^>]*name=Q csrf[_-]?token Q[^>]*content=Q([^Q]+)Q/i] *)
Definition metaPattern : list Atom :=
  [Lit "<meta"; StarNoneOf [">"%char]; Lit "name="; OneOf quotes;
   Lit "csrf"; OptOneOf ["_"%char; "-"%char]; Lit "token"; OneOf quotes;
   StarNoneOf [">"%char];
   Lit "content="; OneOf quotes; CapturePlusNoneOf quotes; OneOf quotes].

(** [extractCSRFToken] on a response body: anything that is not a
    non-empty string gives [null]. *)
Definition extractCSRFToken (html : Json) : option string :=
  match html with
  | JStr s =>
      if nonEmpty s then
        match search csrfPattern s with
        | Some t => Some t
        | None =>
            match search genericPattern s with
            | Some t => Some t
            | None => search metaPattern s
            end
        end
      else None
  | _ => None
  end.

Definition authenticationError (message : string) (cause : Cause) : Thrown :=
  EMRAdapterError message Authentication WellSky cause.

(** [x > 0] for an arbitrary value [x]; an array or object is converted
    to a string first, which may throw. *)
Definition greaterThanZero (v : Json) : Result bool :=
  match v with
  | JNull => Ok false
  | JBool b => Ok b
  | JNum n => Ok (0 <? n)%Z
  | JStr s => Ok (stringIsPositive (engine env) s)
  | JArr _ | JObj _ =>
      match toString v with
      | Some s => Ok (stringIsPositive (engine env) s)
      | None => Throw notPrimitive
      end
  end.

(** [errors.length > 0] for a truthy [errors]. *)
Definition lengthPositive (errors : Json) : Result bool :=
  match errors with
  | JArr items => Ok (match items with [] => false | _ => true end)
  | JStr s => Ok (nonEmpty s)
  | JObj fields =>
      match getField "length" fields with
      | Some v => greaterThanZero v
      | None => Ok false
      end
  | _ => Ok false
  end.

(** The test on the multilogin body, [!result.success || (result.errors &&
    result.errors.length > 0)], for a body whose [typeof] is ['object'];
    the right operand of each operator is evaluated only when needed. *)
Definition multiloginRejected (result : Json) : Result bool :=
  match result with
  | JNull =>
      Throw (PlainError "TypeError" "Cannot read properties of null (reading 'success')" None)
  | _ =>
      if negb (truthyOpt (getProp "success" result)) then Ok true
      else
        match getProp "errors" result with
        | Some errors => if truthy errors then lengthPositive errors else Ok false
        | None => Ok false
        end
  end.

Definition nextUrl : string := "/dashboard/live/".

Definition loginForm (csrfToken : string) (credentials : Credentials)
  : list (string * string) :=
  [("csrfmiddlewaretoken", csrfToken); ("username", username credentials);
   ("password", password credentials); ("next", nextUrl)].

(** Step 4 of [authenticate]: what is done with the answer to the primary
    login submission. *)
Definition verifyLogin (baseUrl csrfToken : string) (loginResponse : HTTPResponse)
  : M Session :=
  done <-
  (if (status loginResponse =? 302)%Z then
     let location := default EmptyString (headers loginResponse !! "location") in
     if includes "/dashboard" location || includes "/live" location then
       let dashboardUrl :=
         if startsWith "http" location then location else baseUrl ++ location in
       cs <- getCookies ;;
       dashboardResponse <-
         get env dashboardUrl
           {| opt_headers := ∅; opt_body := None; opt_cookies := cs;
              opt_timeout := None; opt_followRedirects := None |} ;;
       updateCookies (res_cookies dashboardResponse) ;;;
       cs <- getCookies ;;
       let session := {| cookies := cs; tokens := Some {[ "csrf" := csrfToken ]};
                         expiresAt := None |} in
       setSession session ;;;
       ret (Some session)
     else ret None
   else ret None) ;;
  match done with
  | Some session => ret session
  | None =>
      throw (authenticationError "WellSky authentication failed"
               (CauseResponse loginResponse))
  end.

(** Steps 1 to 3 of [authenticate]: the login page, the multilogin call
    and the primary login submission, whose answer is returned together
    with the scraped token. *)
Definition submitLogin (baseUrl : string) (credentials : Credentials)
  : M (string * HTTPResponse) :=
  let loginUrl := baseUrl ++ "/login" in
  loginPageResponse <- get env (loginUrl ++ "/?next=" ++ nextUrl) noOptions ;;
  updateCookies (res_cookies loginPageResponse) ;;;
  match extractCSRFToken (body loginPageResponse) with
  | None =>
      throw (authenticationError "Failed to extract CSRF token from login page" NoCause)
  | Some csrfToken =>
      cs <- getCookies ;;
      multiloginResponse <-
        post env (baseUrl ++ "/multilogin/")
          {| opt_headers :=
               {[ "Content-Type" := "application/x-www-form-urlencoded; charset=UTF-8";
                  "X-Requested-With" := "XMLHttpRequest" ]};
             opt_body := Some (loginForm csrfToken credentials);
             opt_cookies := cs; opt_timeout := None; opt_followRedirects := None |} ;;
      updateCookies (res_cookies multiloginResponse) ;;;
      (if (status multiloginResponse =? 200)%Z && isObject (body multiloginResponse) then
         match multiloginRejected (body multiloginResponse) with
         | Throw e => throw e
         | Ok true =>
             throw (authenticationError "WellSky multilogin failed"
                      (CauseResponse multiloginResponse))
         | Ok false => ret tt
         end
       else ret tt) ;;;
      timestamp <- gets (fun w => secondsString (now w)) ;;
      cs <- getCookies ;;
      loginResponse <-
        post env (loginUrl ++ "/?ts=" ++ timestamp)
          {| opt_headers := {[ "Content-Type" := "application/x-www-form-urlencoded" ]};
             opt_body := Some (loginForm csrfToken credentials);
             opt_cookies := cs; opt_timeout := None;
             opt_followRedirects := Some false |} ;;
      updateCookies (res_cookies loginResponse) ;;;
      ret (csrfToken, loginResponse)
  end.

(** The [catch] clause of [authenticate]. *)
Definition authenticateCatch (error : Thrown) : M Session :=
  if isAdapterError error then throw error
  else
    match errorMessage error with
    | Some m =>
        throw (authenticationError ("WellSky authentication error: " ++ m)
                 (CauseThrown error))
    | None =>
        throw (PlainError "TypeError"
                 "Cannot read properties of undefined (reading 'message')" None)
    end.

(** [credentials.baseUrl || this.baseUrl] *)
Definition loginBaseUrl (credentials : Credentials) : string :=
  match baseUrl credentials with
  | Some u => if nonEmpty u then u else baseUrlDefault
  | None => baseUrlDefault
  end.

Definition authenticate (credentials : Credentials) : M Session :=
  let baseUrl := loginBaseUrl credentials in
  tryCatch
    (r <- submitLogin baseUrl credentials ;;
     verifyLogin baseUrl (fst r) (snd r))
    authenticateCatch.

(** [formatDate]: the local calendar date as MM/DD/YYYY.  On an invalid
    date every getter returns NaN. *)
Definition formatDate (d : JsDate) : string :=
  match d with
  | ValidDate ms =>
      let '(year, month, day) := localDate (engine env) ms in
      pad 2 month ++ "/" ++ pad 2 day ++ "/" ++ decimal year
  | InvalidDate => "NaN/NaN/NaN"
  end.

(** [property || fallback] on an optional [metadata] property. *)
Definition metadataProp (k : string) (n : VisitNote) : option Json :=
  match metadata n with
  | Some fields =>
      match getField k fields with
      | Some v => if truthy v then Some v else None
      | None => None
      end
  | None => None
  end.

(** The properties of the request are computed in the order in which
    the object literal lists them: [String(shift)] first, which throws for
    a value that cannot be converted, then [formatDate(note.visitDate)]. *)
Definition transform (n : VisitNote) : Result WellSkyVisitNoteRequest :=
  let shift :=
    match metadataProp "shift" n with
    | Some v => toString v
    | None => Some (match visitId n with Some s => s | None => "undefined" end)
    end in
  match shift with
  | None => Throw notPrimitive
  | Some shift =>
      match visitDate n with
      | None =>
          Throw (PlainError "TypeError"
                   "Cannot read properties of undefined (reading 'getMonth')" None)
      | Some d =>
          Ok {| carelog := EmptyString;
                shift := shift;
                unavailability := EmptyString;
                date := formatDate d;
                tags := default (JStr "38060") (metadataProp "tags" n);
                req_note := note n;
                show_with_billing := "on";
                show_with_payroll := "on";
                csrfmiddlewaretoken := None |}
      end
  end.

(** [Object.entries(formData)] with each value converted as
    [URLSearchParams.append] does; [None] when [tags], the one value that
    is not a string already, cannot be converted. *)
Definition formEntries (f : WellSkyVisitNoteRequest) : option (list (string * string)) :=
  match toString (tags f) with
  | None => None
  | Some tagsText =>
      Some ([("carelog", carelog f); ("shift", shift f);
             ("unavailability", unavailability f);
             ("date", date f); ("tags", tagsText);
             ("note", default "undefined" (req_note f));
             ("show_with_billing", show_with_billing f);
             ("show_with_payroll", show_with_payroll f)] ++
            match csrfmiddlewaretoken f with
            | Some t => [("csrfmiddlewaretoken", t)]
            | None => []
            end)%list
  end.

(** The request as a JSON value, for [JSON.stringify(formData, null, 2)]. *)
Definition requestJson (f : WellSkyVisitNoteRequest) : Json :=
  JObj ([("carelog", JStr (carelog f)); ("shift", JStr (shift f));
         ("unavailability", JStr (unavailability f)); ("date", JStr (date f));
         ("tags", tags f)] ++
        match req_note f with Some s => [("note", JStr s)] | None => [] end ++
        [("show_with_billing", JStr (show_with_billing f));
         ("show_with_payroll", JStr (show_with_payroll f))] ++
        match csrfmiddlewaretoken f with
        | Some t => [("csrfmiddlewaretoken", JStr t)]
        | None => []
        end).

Definition withToken (t : string) (f : WellSkyVisitNoteRequest) : WellSkyVisitNoteRequest :=
  {| carelog := carelog f; shift := shift f; unavailability := unavailability f;
     date := date f; tags := tags f; req_note := req_note f;
     show_with_billing := show_with_billing f;
     show_with_payroll := show_with_payroll f;
     csrfmiddlewaretoken := Some t |}.

(** [status === 403 || status === 302] *)
Definition sessionLost (st : Z) : bool := ((st =? 403) || (st =? 302))%Z.

Definition newline : string := String (ascii_of_nat 10) EmptyString.

Definition forbiddenMessage (bodyPreview : string) (formData : WellSkyVisitNoteRequest)
  : string :=
  "WellSky post visit note failed with 403 Forbidden. This may indicate:" ++ newline ++
  "1. CSRF token is invalid or expired" ++ newline ++
  "2. Session has expired" ++ newline ++
  "3. Missing required permissions" ++ newline ++
  "Response body: " ++ bodyPreview ++ newline ++
  "Request data: " ++ JSON_stringify (engine env) (requestJson formData) 2.

(** [typeof body === 'string' ? body : String(body || '')]; [None] when
    the conversion throws. *)
Definition htmlBody (body : Json) : option Json :=
  if isString body then Some body
  else if truthy body then option_map JStr (toString body)
  else Some (JStr EmptyString).

(** The operation [postVisitNote] hands to [handleRetry]. *)
Definition submitNote (n : VisitNote) : M PostResult :=
  let baseUrl := baseUrlDefault in
  let endpoint := baseUrl ++ "/scheduling/note/add/" in
  tokens <- getTokens ;;
  let csrfToken := tokens !! "csrf" in
  cs <- getCookies ;;
  schedulingResponse <-
    get env (baseUrl ++ "/scheduling/")
      {| opt_headers := {[ "Referer" := baseUrl ++ "/dashboard/live/" ]};
         opt_body := None; opt_cookies := cs; opt_timeout := None;
         opt_followRedirects := None |} ;;
  updateCookies (res_cookies schedulingResponse) ;;;
  (if sessionLost (status schedulingResponse) then
     cs <- getCookies ;;
     dashboardResponse <-
       get env (baseUrl ++ "/dashboard/live/")
         {| opt_headers := ∅; opt_body := None; opt_cookies := cs;
            opt_timeout := None; opt_followRedirects := None |} ;;
     if sessionLost (status dashboardResponse) then
       throw (authenticationError "Session expired or invalid. Please login again."
                (CauseStatuses (status schedulingResponse) (status dashboardResponse)))
     else ret tt
   else ret tt) ;;;
  csrfToken <-
    (if (status schedulingResponse =? 200)%Z then
       match htmlBody (body schedulingResponse) with
       | None => throw notPrimitive
       | Some html =>
           match extractCSRFToken html with
           | Some newToken => updateTokens {[ "csrf" := newToken ]} ;;; ret (Some newToken)
           | None => ret csrfToken
           end
       end
     else ret csrfToken) ;;
  if negb (truthyStr csrfToken) then
    throw (authenticationError
             "Failed to obtain CSRF token. Please try logging in again." NoCause)
  else
    let csrfToken := default EmptyString csrfToken in
    match transform n with
    | Throw e => throw e
    | Ok formData =>
        let formData := withToken csrfToken formData in
        formParams <-
          match formEntries formData with
          | Some entries => ret entries
          | None => throw notPrimitive
          end ;;
        cs <- getCookies ;;
        response <-
          post env endpoint
            {| opt_headers :=
                 {[ "Content-Type" := "application/x-www-form-urlencoded";
                    "Referer" := baseUrl ++ "/dashboard/live/";
                    "Origin" := baseUrl ]};
               opt_body := Some formParams;
               opt_cookies := cs; opt_timeout := None;
               opt_followRedirects := Some true |} ;;
        updateCookies (res_cookies response) ;;;
        if ((200 <=? status response) && (status response <? 400))%Z then
          t <- gets now ;;
          ret {| success := true; res_visitId := visitId n; timestamp := t;
                 Types.request := Some formData;
                 Types.response := Some (body response);
                 error := None |}
        else if (status response =? 403)%Z then
          let bodyPreview :=
            match body response with
            | JStr s => substring0 500 s
            | b => substring0 500 (JSON_stringify (engine env) b 0)
            end in
          throw (EMRAdapterError (forbiddenMessage bodyPreview formData)
                   Authentication WellSky
                   (CauseForbidden response bodyPreview formData "present"))
        else
          throw (EMRAdapterError
                   ("WellSky post visit note failed with status " ++
                    decimal (status response) ++ " " ++ statusText response)
                   EMRSpecific WellSky (CauseResponse response))
    end.

Definition postVisitNote (n : VisitNote) : M PostResult :=
  authenticated <- isAuthenticated ;;
  if negb authenticated then
    throw (authenticationError
             "Not authenticated. Please call authenticate() first." NoCause)
  else handleRetry (submitNote n).

(** *** AdapterFactory *)

(** The adapter classes; one world holds the state of one instance. *)
Inductive Adapter : Type := WellSkyAdapter.

Definition emrTypeName (t : EMRType) : string :=
  match t with
  | WellSky => "wellsky"
  | AxisCare => "axiscare"
  | AlayaCare => "alayacare"
  end.

Definition create (emrType : EMRType) : Result Adapter :=
  match emrType with
  | WellSky => Ok WellSkyAdapter
  | _ => Throw (PlainError "Error" ("Unsupported EMR type: " ++ emrTypeName emrType) None)
  end.

End WithEnv.

End Adapters.

Import Adapters.

(* ===================================================================== *)
(** ** services/visit-note-service.ts, authentication-service.ts *)
(* ===================================================================== *)

Module Services.

Section WithEnv.

Variable env : Env.

Record VisitNoteService : Type := {
  adapter : Adapter;
  emrType : EMRType;
}.

(** The constructor; it fails when the factory does. *)
Definition newVisitNoteService (t : EMRType) : Result VisitNoteService :=
  match create t with
  | Ok a => Ok {| adapter := a; emrType := t |}
  | Throw e => Throw e
  end.

Definition required (what : string) : Thrown :=
  PlainError "Error" (what ++ " is required") None.

Definition validateVisitNote (n : VisitNote) : Result unit :=
  if negb (truthyStr (visitId n)) then Throw (required "visitId")
  else if negb (truthyStr (patientId n)) then Throw (required "patientId")
  else if negb (truthyStr (caregiverId n)) then Throw (required "caregiverId")
  else if negb (truthyStr (note n)) then Throw (required "note content")
  else match visitDate n with
       | None => Throw (required "visitDate")
       | Some _ => Ok tt
       end.

(** [AuthenticationService.authenticate] *)
Definition authenticate (a : Adapter) (credentials : Credentials) : M Session :=
  tryCatch
    (match a with
     | WellSkyAdapter => Adapters.authenticate env credentials
     end)
    (fun error =>
       if isAdapterError error then throw error
       else
         match errorMessage error with
         | Some m =>
             throw (EMRAdapterError ("Authentication failed: " ++ m) Authentication
                      (match a with WellSkyAdapter => WellSky end)
                      (CauseThrown error))
         | None =>
             throw (PlainError "TypeError"
                      "Cannot read properties of undefined (reading 'message')" None)
         end).

(** Dispatch of [this.adapter.postVisitNote]. *)
Definition adapterPostVisitNote (a : Adapter) (n : VisitNote) : M PostResult :=
  match a with
  | WellSkyAdapter => Adapters.postVisitNote env n
  end.

(** [VisitNoteService.postVisitNote]; [logResult] only writes to the
    console.  Validation runs before the [try] block is entered. *)
Definition postVisitNote (svc : VisitNoteService) (n : VisitNote) : M PostResult :=
  match validateVisitNote n with
  | Throw e => throw e
  | Ok _ =>
      tryCatch
        (adapterPostVisitNote (adapter svc) n)
        (fun error =>
           if isAdapterError error then throw error
           else
             match errorMessage error with
             | Some m =>
                 throw (EMRAdapterError ("Failed to post visit note: " ++ m)
                          (default EMRSpecific (errorType error))
                          (emrType svc) (CauseThrown error))
             | None =>
                 throw (PlainError "TypeError"
                          "Cannot read properties of undefined (reading 'message')" None)
             end)
  end.

End WithEnv.

End Services.

(* ===================================================================== *)
(** ** A concrete environment for running the code *)
(* ===================================================================== *)

Module Sample.

Local Open Scope Z_scope.

Definition digit (c : ascii) : option Z :=
  let n := Z.of_nat (nat_of_ascii c) in
  if (48 <=? n) && (n <=? 57) then Some (n - 48) else None.

Fixpoint number (acc : Z) (cs : list ascii) : option Z :=
  match cs with
  | [] => Some acc
  | c :: cs' =>
      match digit c with
      | Some d => number (acc * 10 + d) cs'
      | None => None
      end
  end.

(** A parser for the text [toISOString] prints,
    [YYYY-MM-DDTHH:mm:ss.sssZ] with a four-digit year or a signed
    six-digit one; anything else is an invalid date here. *)
Definition parseFields (sign : Z) (year rest : list ascii) : JsDate :=
  match rest with
  | [d1; m1; m2; d2; a1; a2; t; h1; h2; c1; n1; n2; c2; s1; s2; p; f1; f2; f3; z] =>
      if forallb (fun '(c, e) => Ascii.eqb c e)
           [(d1, "-"%char); (d2, "-"%char); (t, "T"%char); (c1, ":"%char);
            (c2, ":"%char); (p, "."%char); (z, "Z"%char)]
      then
        match number 0 year, number 0 [m1; m2], number 0 [a1; a2],
              number 0 [h1; h2], number 0 [n1; n2], number 0 [s1; s2],
              number 0 [f1; f2; f3] with
        | Some y, Some m, Some d, Some h, Some mi, Some sec, Some ms =>
            if (1 <=? m) && (m <=? 12) && (1 <=? d) && (d <=? 31) &&
               (h <=? 23) && (mi <=? 59) && (sec <=? 59) &&
               negb ((sign =? -1) && (y =? 0))
            then
              let time := daysFromCivil (sign * y) m d * msPerDay + h * 3600000
                          + mi * 60000 + sec * 1000 + ms in
              if Z.abs time <=? maxTime then ValidDate time else InvalidDate
            else InvalidDate
        | _, _, _, _, _, _, _ => InvalidDate
        end
      else InvalidDate
  | _ => InvalidDate
  end.

Definition parseISO (s : string) : JsDate :=
  match list_ascii_of_string s with
  | "+"%char :: y1 :: y2 :: y3 :: y4 :: y5 :: y6 :: rest =>
      parseFields 1 [y1; y2; y3; y4; y5; y6] rest
  | "-"%char :: y1 :: y2 :: y3 :: y4 :: y5 :: y6 :: rest =>
      parseFields (-1) [y1; y2; y3; y4; y5; y6] rest
  | y1 :: y2 :: y3 :: y4 :: rest => parseFields 1 [y1; y2; y3; y4] rest
  | _ => InvalidDate
  end.

Definition hexDigit (n : nat) : ascii :=
  ascii_of_nat (if (n <? 10)%nat then 48 + n else 87 + n).

(** [QuoteJSONString] on a string of bytes. *)
Fixpoint escape (s : string) : string :=
  match s with
  | EmptyString => EmptyString
  | String c rest =>
      let n := nat_of_ascii c in
      let backslash := ascii_of_nat 92 in
      ((if (n =? 34)%nat then String backslash (String c EmptyString)
        else if (n =? 92)%nat then String backslash (String c EmptyString)
        else if (n =? 8)%nat then String backslash "b"
        else if (n =? 9)%nat then String backslash "t"
        else if (n =? 10)%nat then String backslash "n"
        else if (n =? 12)%nat then String backslash "f"
        else if (n =? 13)%nat then String backslash "r"
        else if (n <? 32)%nat then
          String backslash
            (String "u"%char (String "0"%char (String "0"%char
               (String (hexDigit (n / 16)) (String (hexDigit (n mod 16)) EmptyString)))))
        else String c EmptyString) ++ escape rest)%string
  end.

Definition quote (s : string) : string :=
  (String (ascii_of_nat 34) (escape s) ++ String (ascii_of_nat 34) EmptyString)%string.

Definition spaces (n : nat) : string := string_of_list_ascii (repeat " "%char n).

(** [JSON.stringify(v, null, indent)] for the values of [Json]. *)
Fixpoint printJsonAt (indent level : nat) (v : Json) : string :=
  let opening := if (indent =? 0)%nat then EmptyString
                 else (newline ++ spaces (indent * S level))%string in
  let closing := if (indent =? 0)%nat then EmptyString
                 else (newline ++ spaces (indent * level))%string in
  let separator := ("," ++ opening)%string in
  let colon := if (indent =? 0)%nat then ":"%string else ": "%string in
  match v with
  | JNull => "null"%string
  | JBool true => "true"%string
  | JBool false => "false"%string
  | JNum n => numberToString n
  | JStr s => quote s
  | JArr [] => "[]"%string
  | JArr items =>
      ("[" ++ opening ++ join separator (List.map (printJsonAt indent (S level)) items)
       ++ closing ++ "]")%string
  | JObj [] => "{}"%string
  | JObj fields =>
      ("{" ++ opening ++
       join separator
         (List.map (fun kv => (quote (fst kv) ++ colon ++
                               printJsonAt indent (S level) (snd kv))%string) fields)
       ++ closing ++ "}")%string
  end.

Definition printJson (v : Json) (indent : nat) : string :=
  printJsonAt (Nat.min indent 10) 0 v.

(** A reader for JSON text, standing in for [JSON.parse].  Numbers are
    read when they are integers, escapes when they denote a byte; other
    text, like text that is not JSON, gives [None]. *)
Fixpoint skipSpace (cs : list ascii) : list ascii :=
  match cs with
  | c :: rest =>
      let n := nat_of_ascii c in
      if ((n =? 32) || (n =? 9) || (n =? 10) || (n =? 13))%nat then skipSpace rest else cs
  | [] => []
  end.

Definition hexValue (c : ascii) : option nat :=
  let n := nat_of_ascii c in
  if ((48 <=? n) && (n <=? 57))%nat then Some (n - 48)%nat
  else if ((97 <=? n) && (n <=? 102))%nat then Some (n - 87)%nat
  else if ((65 <=? n) && (n <=? 70))%nat then Some (n - 55)%nat
  else None.

(** The characters of a string literal after its opening quote. *)
Fixpoint readString (cs : list ascii) (acc : list ascii) : option (string * list ascii) :=
  match cs with
  | [] => None
  | c :: rest =>
      let n := nat_of_ascii c in
      if (n =? 34)%nat then Some (string_of_list_ascii (rev acc), rest)
      else if (n <? 32)%nat then None
      else if (n =? 92)%nat then
        match rest with
        | e :: rest' =>
            let k := nat_of_ascii e in
            if (k =? 34)%nat || (k =? 92)%nat || (k =? 47)%nat
            then readString rest' (e :: acc)
            else if (k =? 98)%nat then readString rest' (ascii_of_nat 8 :: acc)
            else if (k =? 116)%nat then readString rest' (ascii_of_nat 9 :: acc)
            else if (k =? 110)%nat then readString rest' (ascii_of_nat 10 :: acc)
            else if (k =? 102)%nat then readString rest' (ascii_of_nat 12 :: acc)
            else if (k =? 114)%nat then readString rest' (ascii_of_nat 13 :: acc)
            else if (k =? 117)%nat then
              match rest' with
              | h1 :: h2 :: h3 :: h4 :: rest'' =>
                  match hexValue h1, hexValue h2, hexValue h3, hexValue h4 with
                  | Some 0%nat, Some 0%nat, Some a, Some b =>
                      if (a <? 8)%nat
                      then readString rest'' (ascii_of_nat (16 * a + b) :: acc)
                      else None
                  | _, _, _, _ => None
                  end
              | _ => None
              end
            else None
        | [] => None
        end
      else readString rest (c :: acc)
  end.

Fixpoint readDigits (cs : list ascii) (acc : list ascii) : list ascii * list ascii :=
  match cs with
  | c :: rest =>
      match digit c with
      | Some _ => readDigits rest (c :: acc)
      | None => (rev acc, cs)
      end
  | [] => (rev acc, [])
  end.

Definition readNumber (sign : Z) (cs : list ascii) : option (Json * list ascii) :=
  match readDigits cs [] with
  | ([], _) => None
  | (d :: ds, rest) =>
      if Ascii.eqb d "0"%char && negb (match ds with [] => true | _ => false end) then None
      else
        match rest with
        | c :: _ =>
            if Ascii.eqb c "."%char || Ascii.eqb c "e"%char || Ascii.eqb c "E"%char
            then None
            else option_map (fun n => (JNum (sign * n), rest)) (number 0 (d :: ds))
        | [] => option_map (fun n => (JNum (sign * n), rest)) (number 0 (d :: ds))
        end
  end.

(** A key read again keeps its place and takes the later value. *)
Definition putField (k : string) (v : Json) (acc : list (string * Json))
  : list (string * Json) :=
  if existsb (fun kv => String.eqb (fst kv) k) acc
  then List.map (fun kv => if String.eqb (fst kv) k then (k, v) else kv) acc
  else (k, v) :: acc.

Definition readLiteral (word : string) (v : Json) (cs : list ascii)
  : option (Json * list ascii) :=
  let w := list_ascii_of_string word in
  if String.eqb (string_of_list_ascii (firstn (List.length w) cs)) word
  then Some (v, skipn (List.length w) cs) else None.

Fixpoint readValue (fuel : nat) (cs : list ascii) : option (Json * list ascii) :=
  match fuel with
  | O => None
  | S fuel' =>
      match skipSpace cs with
      | [] => None
      | c :: rest =>
          let n := nat_of_ascii c in
          if (n =? 34)%nat then
            option_map (fun r => (JStr (fst r), snd r)) (readString rest [])
          else if (n =? 91)%nat then
            match skipSpace rest with
            | d :: rest' =>
                if (nat_of_ascii d =? 93)%nat then Some (JArr [], rest')
                else readItems fuel' (skipSpace rest) []
            | [] => None
            end
          else if (n =? 123)%nat then
            match skipSpace rest with
            | d :: rest' =>
                if (nat_of_ascii d =? 125)%nat then Some (JObj [], rest')
                else readFields fuel' (skipSpace rest) []
            | [] => None
            end
          else if (n =? 45)%nat then readNumber (-1) rest
          else if (n =? 116)%nat then readLiteral "true" (JBool true) (c :: rest)
          else if (n =? 102)%nat then readLiteral "false" (JBool false) (c :: rest)
          else if (n =? 110)%nat then readLiteral "null" JNull (c :: rest)
          else readNumber 1 (c :: rest)
      end
  end
with readItems (fuel : nat) (cs : list ascii) (acc : list Json)
  : option (Json * list ascii) :=
  match fuel with
  | O => None
  | S fuel' =>
      match readValue fuel' cs with
      | Some (v, rest) =>
          match skipSpace rest with
          | d :: rest' =>
              if (nat_of_ascii d =? 44)%nat then readItems fuel' rest' (v :: acc)
              else if (nat_of_ascii d =? 93)%nat then Some (JArr (rev (v :: acc)), rest')
              else None
          | [] => None
          end
      | None => None
      end
  end
with readFields (fuel : nat) (cs : list ascii) (acc : list (string * Json))
  : option (Json * list ascii) :=
  match fuel with
  | O => None
  | S fuel' =>
      match skipSpace cs with
      | q :: rest =>
          if (nat_of_ascii q =? 34)%nat then
            match readString rest [] with
            | Some (k, rest1) =>
                match skipSpace rest1 with
                | c :: rest2 =>
                    if (nat_of_ascii c =? 58)%nat then
                      match readValue fuel' rest2 with
                      | Some (v, rest3) =>
                          let acc' := putField k v acc in
                          match skipSpace rest3 with
                          | d :: rest4 =>
                              if (nat_of_ascii d =? 44)%nat then readFields fuel' rest4 acc'
                              else if (nat_of_ascii d =? 125)%nat
                              then Some (JObj (rev acc'), rest4)
                              else None
                          | [] => None
                          end
                      | None => None
                      end
                    else None
                | [] => None
                end
            | None => None
            end
          else None
      | [] => None
      end
  end.

Definition readJson (text : string) : option Json :=
  let cs := list_ascii_of_string text in
  match readValue (2 * List.length cs + 2) cs with
  | Some (v, rest) => match skipSpace rest with [] => Some v | _ => None end
  | None => None
  end.

Definition sampleEngine : Engine :=
  {| localTZA := fun _ => 0;
     Date_parse := parseISO;
     stringIsPositive := fun s =>
       match number 0 (list_ascii_of_string s) with
       | Some n => 0 <? n
       | None => false
       end;
     JSON_stringify := printJson;
     JSON_parse := readJson |}.

(** A network that answers the [n]-th call with the [n]-th entry of a
    script, each after 120 ms, and refuses every call after the script's
    end. *)
Definition scripted (script : list FetchOutcome) : Env :=
  {| fetch := fun history _ =>
       List.nth (List.length (fetchCalls history)) script
                (FetchRejected "TypeError" "fetch failed" None);
     latency := fun _ _ => 120;
     canWrite := fun _ => true;
     engine := sampleEngine |}.

(** A network on which every call is rejected with the given error, after
    15 ms. *)
Definition refusing (name message : string) : Env :=
  {| fetch := fun _ _ => FetchRejected name message None;
     latency := fun _ _ => 15;
     canWrite := fun _ => true;
     engine := sampleEngine |}.

(** A network that never answers: every call is aborted when the default
    timeout of the client has run out. *)
Definition timingOut : Env :=
  {| fetch := fun _ _ => FetchRejected "AbortError" "This operation was aborted" None;
     latency := fun _ _ => 30000;
     canWrite := fun _ => true;
     engine := sampleEngine |}.

Definition textResponse (st : Z) (reason : string) (text : string) : FetchOutcome :=
  FetchResponse {| raw_status := st; raw_statusText := reason; raw_headers := ∅;
                   raw_setCookie := []; raw_body := JStr text |}.

Definition redirectResponse (st : Z) (location : string) (setCookie : list string)
  : FetchOutcome :=
  FetchResponse {| raw_status := st; raw_statusText := "Found";
                   raw_headers := {[ "location" := location ]};
                   raw_setCookie := setCookie; raw_body := JStr EmptyString |}.

(** The configuration of the retry examples. *)
Definition retryConfigSample : RetryConfig :=
  {| maxAttempts := 3; backoffMs := 100;
     retryableErrors := ["timeout"; "network"; "ECONNREFUSED"] |}.

(** A world with no session, no files and an empty history, at [t]. *)
Definition freshWorld (t : Z) : World :=
  {| session := None; sessionFilePath := None; files := ∅; now := t; trace := [] |}.

(** A world in which the adapter holds a session. *)
Definition loggedIn (s : Session) (t : Z) : World :=
  {| session := Some s; sessionFilePath := None; files := ∅; now := t; trace := [] |}.

Definition sampleSession : Session :=
  {| cookies := ["sessionid=abc"; "csrftoken=tok0"];
     tokens := Some {[ "csrf" := "tok0" ]};
     expiresAt := None |}.

Definition sampleNote : VisitNote :=
  {| visitId := Some "123"; patientId := Some "p1"; caregiverId := Some "c1";
     visitDate := Some (ValidDate 1766361600000);
     startTime := Some "10:00"; endTime := Some "11:00";
     note := Some "ok"; tasks := None; metadata := None |}.

Definition loginPage : string :=
  "<form><input type='hidden' name='csrfmiddlewaretoken' value='tok1'></form>".

Definition sampleCredentials : Credentials :=
  {| username := "alice"; password := "secret"; baseUrl := None |}.

(** The operation of the examples: one GET, on a network that refuses. *)
Definition probe (env : Env) : M HTTPResponse :=
  get env "https://emr.example/ping" noOptions.

Definition taggedNote (tag : string) : VisitNote :=
  {| visitId := Some "123"; patientId := Some "p1"; caregiverId := Some "c1";
     visitDate := Some (ValidDate 1766361600000);
     startTime := Some "10:00"; endTime := Some "11:00";
     note := Some "ok"; tasks := None;
     metadata := Some [("tags", JStr tag); ("shift", JNum 266477302)] |}.

Definition wellSkyService : Services.VisitNoteService :=
  {| Services.adapter := WellSkyAdapter; Services.emrType := WellSky |}.

Definition noteWithoutPatient : VisitNote :=
  {| visitId := Some "123"; patientId := Some EmptyString; caregiverId := Some "c1";
     visitDate := Some (ValidDate 1766361600000);
     startTime := None; endTime := None;
     note := Some "ok"; tasks := None; metadata := None |}.

(** A record that lacks a patient, its text and its date. *)
Definition noteWithGaps : VisitNote :=
  {| visitId := Some "123"; patientId := Some EmptyString; caregiverId := Some "c1";
     visitDate := None; startTime := None; endTime := None;
     note := None; tasks := None; metadata := None |}.

Definition forbidden : FetchOutcome := textResponse 403 "Forbidden" EmptyString.

(** A redirect status without a [Location] header: [fetch] has nowhere to
    follow it to and hands the answer back, whatever the redirect mode. *)
Definition movedNowhere : FetchOutcome :=
  FetchResponse {| raw_status := 301; raw_statusText := "Moved Permanently";
                   raw_headers := ∅; raw_setCookie := [];
                   raw_body := JStr EmptyString |}.

(** A vendor that accepts the login: token page, multilogin, the 302
    redirect to the dashboard, the dashboard. *)
Definition acceptingVendor : Env :=
  scripted [textResponse 200 "OK" loginPage;
            textResponse 200 "OK" "ok";
            redirectResponse 302 "/dashboard/live/" ["sessionid=s1; Path=/; HttpOnly"];
            textResponse 200 "OK" "dashboard"].

Definition sessionFile : string := ".session-wellsky.json".

Definition expiringSession (expiry : Z) : Session :=
  {| cookies := ["sessionid=abc"; "csrftoken=tok0"];
     tokens := Some {[ "csrf" := "tok0" ]};
     expiresAt := Some (ValidDate expiry) |}.

Definition holding (s : Session) (t : Z) : World :=
  {| session := Some s; sessionFilePath := Some sessionFile; files := ∅;
     now := t; trace := [] |}.

End Sample.

Import Sample.

(* ===================================================================== *)
(** ** Vocabulary of the properties *)
(* ===================================================================== *)

Module Vocabulary.

(** The first cookie of a list filed under the name [n], and the last. *)
Definition named (n : string) (l : list string) : option string :=
  List.find (fun c => String.eqb (cookieName c) n) l.

Definition lastNamed (n : string) (l : list string) : option string :=
  named n (rev l).

(** The cookie list of a world, and the world after a series of
    [updateCookies] calls. *)
Definition cookieList (w : World) : list string := cookiesOf (session w).

Definition afterUpdates (updates : list (list string)) (w : World) : World :=
  fold_left (fun w u => snd (updateCookies u w)) updates w.

(** Lookup in the insertion-ordered map of [updateCookies]. *)
Definition assoc (n : string) (m : list (string * string)) : option string :=
  option_map snd (List.find (fun kv => String.eqb (fst kv) n) m).

(** Whether [RetryHandler.execute] goes on after the failure [e] when
    attempts are left: the caller's predicate decides when there is one,
    the configured patterns decide otherwise. *)
Definition retryable (config : RetryConfig) (isRetryableError : option (Thrown -> bool))
           (e : Thrown) : bool :=
  match isRetryableError with
  | Some p => p e
  | None =>
      existsb (fun pattern => includes pattern (messageOrString e))
              (retryableErrors config)
  end.

(** The calls [submitNote] makes before it submits: the token-refresh page
    and the probe of the dashboard, each with the cookies held then. *)
Definition schedulingCall (cs : list string) : FetchCall :=
  fetchCall "GET" (baseUrlDefault ++ "/scheduling/")
    {| opt_headers := {[ "Referer" := baseUrlDefault ++ "/dashboard/live/" ]};
       opt_body := None; opt_cookies := cs; opt_timeout := None;
       opt_followRedirects := None |}.

Definition dashboardCall (cs : list string) : FetchCall :=
  fetchCall "GET" (baseUrlDefault ++ "/dashboard/live/")
    {| opt_headers := ∅; opt_body := None; opt_cookies := cs;
       opt_timeout := None; opt_followRedirects := None |}.

(** The answer to the primary login submission is the redirect the code
    looks for: status 302 and a [location] header that contains one of the
    two post-login path fragments. *)
Definition redirectedToDashboard (loginResponse : HTTPResponse) : bool :=
  let location := default EmptyString (headers loginResponse !! "location") in
  (status loginResponse =? 302)%Z &&
  (includes "/dashboard" location || includes "/live" location).

(** The call that follows that redirect, with the cookies held then. *)
Definition followUpCall (baseUrl : string) (loginResponse : HTTPResponse)
           (cs : list string) : FetchCall :=
  let location := default EmptyString (headers loginResponse !! "location") in
  fetchCall "GET"
    (if startsWith "http" location then location else baseUrl ++ location)
    {| opt_headers := ∅; opt_body := None; opt_cookies := cs;
       opt_timeout := None; opt_followRedirects := None |}.

(** A computation that throws only values satisfying [P]. *)
Definition throwsOnly {A : Type} (P : Thrown -> Prop) (m : M A) : Prop :=
  forall w e w', m w = (Throw e, w') -> P e.

(** What can be thrown inside [authenticate]'s [try] block: some plain
    [Error], or an Authentication error of the adapter. *)
Definition plainOrAuthentication (e : Thrown) : Prop :=
  match e with
  | Undefined => False
  | PlainError _ _ _ => True
  | EMRAdapterError _ t _ _ => t = Authentication
  end.

(** A session file that is missing, cannot be read, holds text that is not
    JSON, or holds the JSON value [null]. *)
Definition unusable (eng : Engine) (entry : option FileEntry) : bool :=
  match entry with
  | None => true
  | Some Unreadable => true
  | Some (Readable text) =>
      match parseJson eng text with
      | None => true
      | Some JNull => true
      | Some _ => false
      end
  end.

(** The engine reads back what it printed for the document [data], and,
    as a date, the ISO text of the instant [ms]. *)
Definition readsBack (eng : Engine) (data : Json) : Prop :=
  parseJson eng (JSON_stringify eng data 2) = Some data.

Definition readsBackDate (eng : Engine) (ms : Z) : Prop :=
  Date_parse eng (toISOString ms) = ValidDate ms.

(** The required properties of the canonical record in the order in which
    [validateVisitNote] names them, each with the name it goes by in the
    message and whether the record has it. *)
Definition requiredProperties (n : VisitNote) : list (string * bool) :=
  [("visitId", truthyStr (visitId n)); ("patientId", truthyStr (patientId n));
   ("caregiverId", truthyStr (caregiverId n)); ("note content", truthyStr (note n));
   ("visitDate", match visitDate n with Some _ => true | None => false end)].

(** The first required property the record lacks. *)
Definition firstMissing (n : VisitNote) : option string :=
  option_map fst (List.find (fun p => negb (snd p)) (requiredProperties n)).

(** [note.metadata?.[k]] *)
Definition metadataGet (k : string) (n : VisitNote) : option Json :=
  match metadata n with
  | Some fields => getField k fields
  | None => None
  end.

(** Two canonical records that agree everywhere except, possibly, on
    [metadata.tags]. *)
Definition differOnlyInTags (n1 n2 : VisitNote) : Prop :=
  visitId n1 = visitId n2 /\ patientId n1 = patientId n2 /\
  caregiverId n1 = caregiverId n2 /\ visitDate n1 = visitDate n2 /\
  startTime n1 = startTime n2 /\ endTime n1 = endTime n2 /\
  note n1 = note n2 /\ tasks n1 = tasks n2 /\
  (forall k, k <> "tags" -> metadataGet k n1 = metadataGet k n2).

(** A required property of the canonical record is empty or absent. *)
Definition missingRequired (n : VisitNote) : Prop :=
  truthyStr (visitId n) = false \/ truthyStr (patientId n) = false \/
  truthyStr (caregiverId n) = false \/ truthyStr (note n) = false \/
  visitDate n = None.

(** Every entry is filed under the name of its cookie, no name is empty,
    no name occurs twice. *)
Definition wellFiled (m : list (string * string)) : Prop :=
  List.NoDup (List.map fst m) /\
  Forall (fun kv => cookieName (snd kv) = fst kv /\ fst kv <> EmptyString) m.

Definition sessionExpiredError (st1 st2 : Z) : Thrown :=
  EMRAdapterError "Session expired or invalid. Please login again."
                  Authentication WellSky (CauseStatuses st1 st2).

(** The session [verifyLogin] builds once the follow-up call has returned. *)
Definition establishedSession (tok : string) (r : RawResponse) (w1 : World) : Session :=
  {| cookies :=
       match session w1 with
       | Some s => mergeCookies (cookies s) (res_cookies (toResponse r))
       | None => res_cookies (toResponse r)
       end;
     tokens := Some {[ "csrf" := tok ]};
     expiresAt := None |}.

End Vocabulary.

Import Vocabulary.

(* ===================================================================== *)
(** ** Vocabulary of the further properties *)
(* ===================================================================== *)

Module Coverage.

(** The keys of the insertion-ordered map, in order. *)
Definition keys (m : list (string * string)) : list string := List.map fst m.

(** The delays [RetryHandler.execute] sleeps between [n] failed attempts:
    [backoff], twice that, four times that, ... ([n - 1] of them). *)
Definition backoffSchedule (backoff : Z) (n : nat) : list Z :=
  List.map (fun i => (backoff * 2 ^ Z.of_nat i)%Z) (seq 0 (n - 1)).

Definition semicolon : ascii := ascii_of_nat 59.

(** The characters of a string. *)
Definition chars (s : string) : list ascii := list_ascii_of_string s.

(** Whether a pattern has a capture group, and whether every capture group
    it has excludes the characters [cs]. *)
Definition hasCapture (p : list Atom) : bool :=
  existsb (fun a => match a with CapturePlusNoneOf _ => true | _ => false end) p.

Definition capturesExclude (cs : list ascii) (p : list Atom) : Prop :=
  Forall (fun a => match a with CapturePlusNoneOf cs' => cs' = cs | _ => True end) p.

(** A captured text: not empty, and free of the characters [cs]. *)
Definition captured (cs : list ascii) (t : string) : Prop :=
  t <> EmptyString /\ Forall (fun c => member c cs = false) (chars t).

(** A thrown value that is an error object (anything but [undefined]). *)
Definition isErrorObject (e : Thrown) : Prop := e <> Undefined.

Definition notAuthenticatedError : Thrown :=
  authenticationError "Not authenticated. Please call authenticate() first." NoCause.

(** The first two calls of [authenticate]. *)
Definition loginPageCall (baseUrl : string) : FetchCall :=
  fetchCall "GET" ((baseUrl ++ "/login") ++ "/?next=" ++ nextUrl) noOptions.

Definition multiloginCall (baseUrl : string) (credentials : Credentials)
           (csrfToken : string) (cs : list string) : FetchCall :=
  fetchCall "POST" (baseUrl ++ "/multilogin/")
    {| opt_headers :=
         {[ "Content-Type" := "application/x-www-form-urlencoded; charset=UTF-8";
            "X-Requested-With" := "XMLHttpRequest" ]};
       opt_body := Some (loginForm csrfToken credentials);
       opt_cookies := cs; opt_timeout := None; opt_followRedirects := None |}.

(** The token [submitNote] scrapes from the answer of the token-refresh
    page: only a 200 answer is searched, and a body that is not a string
    is converted to one first, which may throw. *)
Definition pageToken (r : HTTPResponse) : Result (option string) :=
  if (status r =? 200)%Z then
    match htmlBody (body r) with
    | Some html => Ok (extractCSRFToken html)
    | None => Throw notPrimitive
    end
  else Ok None.

(** The session after the token-refresh page has been answered with [r]:
    its cookies merged in, the scraped token, if any, stored. *)
Definition refreshed (s : Session) (r : HTTPResponse) : Session :=
  {| cookies := mergeCookies (cookies s) (res_cookies r);
     tokens := match pageToken r with
               | Ok (Some t) => Some ({[ "csrf" := t ]} ∪ default ∅ (tokens s))
               | _ => tokens s
               end;
     expiresAt := expiresAt s |}.

(** The submission POST, with the cookies [cs] and the form's entries. *)
Definition submissionCall (cs : list string) (entries : list (string * string))
  : FetchCall :=
  fetchCall "POST" (baseUrlDefault ++ "/scheduling/note/add/")
    {| opt_headers :=
         {[ "Content-Type" := "application/x-www-form-urlencoded";
            "Referer" := baseUrlDefault ++ "/dashboard/live/";
            "Origin" := baseUrlDefault ]};
       opt_body := Some entries;
       opt_cookies := cs; opt_timeout := None;
       opt_followRedirects := Some true |}.

(** The token [submitNote] submits with: the one scraped from the
    token-refresh page, else the one the session holds. *)
Definition submissionToken (s : Session) (r : HTTPResponse)
  : Result (option string) :=
  match pageToken r with
  | Ok (Some t) => Ok (Some t)
  | Ok None => Ok (default ∅ (tokens s) !! "csrf")
  | Throw e => Throw e
  end.

(** The session after the submission has been answered with [r2]. *)
Definition landed (s : Session) (r1 r2 : HTTPResponse) : Session :=
  {| cookies := mergeCookies (cookies (refreshed s r1)) (res_cookies r2);
     tokens := tokens (refreshed s r1);
     expiresAt := expiresAt s |}.

(** The names in a list, each once, in the order of their first
    occurrence. *)
Fixpoint distinct (l : list string) : list string :=
  match l with
  | [] => []
  | x :: rest => x :: List.filter (fun y => negb (String.eqb x y)) (distinct rest)
  end.

(** The names the cookies of [incoming] bring that are not among [held]:
    the non-empty names they are filed under, each once, in the order in
    which the list first shows them. *)
Definition newNames (held : list string) (incoming : list string) : list string :=
  distinct
    (List.filter (fun n => nonEmpty n && negb (existsb (String.eqb n) held))
                 (List.map cookieName incoming)).

(** The part of a header before its first semicolon: the header starts
    with it, goes on with a semicolon or ends there, and it holds no
    semicolon itself. *)
Definition beforeSemicolon (c h : string) : Prop :=
  ~ List.In semicolon (chars c) /\
  (h = c \/ exists rest, h = c ++ String semicolon rest).

(** [response.status >= 200 && response.status < 400] *)
Definition accepted (st : Z) : bool := ((200 <=? st) && (st <? 400))%Z.

(** What a timed-out request throws. *)
Definition timeoutError : Thrown :=
  PlainError "Error" ("Request timeout after " ++ decimal defaultTimeout ++ "ms") None.

(** The manager holds a session. *)
Definition hasSession (w : World) : Prop := session w <> None.

(** The manager holds a session without an expiry. *)
Definition holdsOpenSession (w : World) : Prop :=
  exists s, session w = Some s /\ expiresAt s = None.

(** A computation that keeps [I] true, whether it returns or throws. *)
Definition preserves {A : Type} (I : World -> Prop) (m : M A) : Prop :=
  forall w r w', I w -> m w = (r, w') -> I w'.

End Coverage.

Import Coverage.

(* ===================================================================== *)
(** ** Session cookies *)
(* ===================================================================== *)

Section CookieMerge.

Lemma eqb_refl_true (a : string) : String.eqb a a = true.
Proof. apply String.eqb_refl. Qed.

Lemma nonEmpty_true (a : string) : nonEmpty a = true <-> a <> EmptyString.
Proof. destruct a; simpl; split; intros; congruence. Qed.

Lemma assoc_mapSet (n k v : string) (m : list (string * string)) :
  assoc n (mapSet k v m) = if String.eqb k n then Some v else assoc n m.
Proof.
  unfold assoc. induction m as [|[k' v'] m IH]; simpl.
  - destruct (String.eqb k n); reflexivity.
  - destruct (String.eqb k k') eqn:Hkk'; simpl.
    + apply String.eqb_eq in Hkk'. subst k'.
      destruct (String.eqb k n); reflexivity.
    + destruct (String.eqb k' n) eqn:Hk'n; simpl.
      * apply String.eqb_eq in Hk'n. subst k'. rewrite Hkk'. reflexivity.
      * exact IH.
Qed.

Lemma keys_mapSet (k v : string) (m : list (string * string)) (x : string) :
  List.In x (List.map fst (mapSet k v m)) <-> x = k \/ List.In x (List.map fst m).
Proof.
  induction m as [|[k' v'] m IH]; simpl.
  - intuition.
  - destruct (String.eqb k k') eqn:Hkk'; simpl.
    + apply String.eqb_eq in Hkk'. subst k'. intuition.
    + rewrite IH. intuition.
Qed.

Lemma NoDup_mapSet (k v : string) (m : list (string * string)) :
  List.NoDup (List.map fst m) -> List.NoDup (List.map fst (mapSet k v m)).
Proof.
  induction m as [|[k' v'] m IH]; simpl; intros Hnd.
  - constructor; [simpl; tauto | constructor].
  - apply List.NoDup_cons_iff in Hnd. destruct Hnd as [Hnotin Hnd].
    destruct (String.eqb k k') eqn:Hkk'; simpl.
    + apply String.eqb_eq in Hkk'. subst k'.
      apply List.NoDup_cons_iff. split; assumption.
    + apply List.NoDup_cons_iff. split; [|auto].
      rewrite keys_mapSet. intros [->|Hin]; [|tauto].
      rewrite eqb_refl_true in Hkk'. discriminate.
Qed.

Lemma Forall_mapSet (P : string * string -> Prop) (k v : string)
      (m : list (string * string)) :
  P (k, v) -> Forall P m -> Forall P (mapSet k v m).
Proof.
  intros Hkv. induction m as [|[k' v'] m IH]; simpl; intros Hall.
  - constructor; [assumption | constructor].
  - apply Forall_cons in Hall. destruct Hall as [Hhd Htl].
    destruct (String.eqb k k'); constructor; auto.
Qed.

Lemma wellFiled_setCookie (m : list (string * string)) (c : string) :
  wellFiled m -> wellFiled (setCookie m c).
Proof.
  intros [Hnd Hall]. unfold setCookie.
  destruct (nonEmpty (cookieName c)) eqn:Hne; [|split; assumption].
  split.
  - apply NoDup_mapSet. assumption.
  - apply Forall_mapSet; [|assumption]. simpl. split; [reflexivity|].
    apply nonEmpty_true. assumption.
Qed.

Lemma wellFiled_fold (l : list string) (m : list (string * string)) :
  wellFiled m -> wellFiled (fold_left setCookie l m).
Proof.
  revert m. induction l as [|c l IH]; simpl; intros m Hm; [assumption|].
  apply IH. apply wellFiled_setCookie. assumption.
Qed.

Lemma wellFiled_nil : wellFiled [].
Proof. split; [constructor | constructor]. Qed.

Lemma assoc_setCookie (n : string) (m : list (string * string)) (c : string) :
  n <> EmptyString ->
  assoc n (setCookie m c) =
  if String.eqb (cookieName c) n then Some c else assoc n m.
Proof.
  intros Hn. unfold setCookie.
  destruct (nonEmpty (cookieName c)) eqn:Hne.
  - apply assoc_mapSet.
  - destruct (String.eqb (cookieName c) n) eqn:Heq; [|reflexivity].
    apply String.eqb_eq in Heq. subst n.
    destruct (cookieName c); simpl in Hne; congruence.
Qed.

Lemma named_app (n : string) (l1 l2 : list string) :
  named n (l1 ++ l2) =
  match named n l1 with Some c => Some c | None => named n l2 end.
Proof.
  unfold named. induction l1 as [|c l1 IH]; simpl; [reflexivity|].
  destruct (String.eqb (cookieName c) n); [reflexivity | exact IH].
Qed.

Lemma lastNamed_app (n : string) (l1 l2 : list string) :
  lastNamed n (l1 ++ l2) =
  match lastNamed n l2 with Some c => Some c | None => lastNamed n l1 end.
Proof. unfold lastNamed. rewrite rev_app_distr. apply named_app. Qed.

Lemma lastNamed_cons (n : string) (c : string) (l : list string) :
  lastNamed n (c :: l) =
  match lastNamed n l with
  | Some c' => Some c'
  | None => if String.eqb (cookieName c) n then Some c else None
  end.
Proof.
  change (c :: l) with (([c] ++ l)%list). rewrite lastNamed_app.
  destruct (lastNamed n l); [reflexivity|].
  unfold lastNamed, named. simpl.
  destruct (String.eqb (cookieName c) n); reflexivity.
Qed.

Lemma assoc_fold (n : string) (l : list string) (m : list (string * string)) :
  n <> EmptyString ->
  assoc n (fold_left setCookie l m) =
  match lastNamed n l with Some c => Some c | None => assoc n m end.
Proof.
  intros Hn. revert m. induction l as [|c l IH]; simpl; intros m.
  - reflexivity.
  - rewrite IH, lastNamed_cons. destruct (lastNamed n l); [reflexivity|].
    rewrite assoc_setCookie by assumption.
    destruct (String.eqb (cookieName c) n); reflexivity.
Qed.

Lemma names_of_wellFiled (m : list (string * string)) :
  wellFiled m -> List.map cookieName (List.map snd m) = List.map fst m.
Proof.
  intros [_ Hall]. induction Hall as [|[k v] m [Hk _] _ IH]; simpl; [reflexivity|].
  simpl in Hk. rewrite Hk, IH. reflexivity.
Qed.

Lemma named_of_wellFiled (n : string) (m : list (string * string)) :
  wellFiled m -> named n (List.map snd m) = assoc n m.
Proof.
  intros [_ Hall]. unfold named, assoc.
  induction Hall as [|[k v] m [Hk _] _ IH]; simpl; [reflexivity|].
  simpl in Hk. rewrite Hk. destruct (String.eqb k n); [reflexivity | exact IH].
Qed.

Lemma named_None (n : string) (l : list string) :
  named n l = None <-> (forall c, List.In c l -> cookieName c <> n).
Proof.
  unfold named. split.
  - intros H c Hin Heq.
    apply (List.find_none _ _ H) in Hin. rewrite Heq, eqb_refl_true in Hin.
    discriminate.
  - intros H. destruct (List.find _ l) as [c|] eqn:Hfind; [|reflexivity].
    apply List.find_some in Hfind. destruct Hfind as [Hin Heq].
    apply String.eqb_eq in Heq. exfalso. exact (H c Hin Heq).
Qed.

Lemma named_Some (n : string) (l : list string) (c : string) :
  named n l = Some c -> List.In c l /\ cookieName c = n.
Proof.
  unfold named. intros H. apply List.find_some in H.
  destruct H as [Hin Heq]. apply String.eqb_eq in Heq. tauto.
Qed.

Lemma NoDup_names_unique (l : list string) (a b : string) :
  List.NoDup (List.map cookieName l) ->
  List.In a l -> List.In b l -> cookieName a = cookieName b -> a = b.
Proof.
  induction l as [|c l IH]; simpl; intros Hnd Ha Hb Heq; [tauto|].
  apply List.NoDup_cons_iff in Hnd. destruct Hnd as [Hnotin Hnd].
  destruct Ha as [->|Ha], Hb as [->|Hb].
  - reflexivity.
  - exfalso. apply Hnotin. rewrite Heq. apply List.in_map. assumption.
  - exfalso. apply Hnotin. rewrite <- Heq. apply List.in_map. assumption.
  - auto.
Qed.

Lemma lastNamed_NoDup (n : string) (l : list string) :
  List.NoDup (List.map cookieName l) -> lastNamed n l = named n l.
Proof.
  intros Hnd. unfold lastNamed.
  destruct (named n (rev l)) as [a|] eqn:Hrev, (named n l) as [b|] eqn:Hfwd.
  - apply named_Some in Hrev, Hfwd. destruct Hrev as [Ha Hna], Hfwd as [Hb Hnb].
    f_equal. apply (NoDup_names_unique l); try assumption.
    + apply List.in_rev. assumption.
    + congruence.
  - apply named_Some in Hrev. destruct Hrev as [Ha Hna].
    exfalso. apply (proj1 (named_None n l) Hfwd a); [|assumption].
    apply List.in_rev. assumption.
  - apply named_Some in Hfwd. destruct Hfwd as [Hb Hnb].
    exfalso. apply (proj1 (named_None n (rev l)) Hrev b); [|assumption].
    apply List.in_rev. rewrite rev_involutive. assumption.
  - reflexivity.
Qed.

(** The three facts about one merge. *)
Lemma mergeCookies_NoDup (old new : list string) :
  List.NoDup (List.map cookieName (mergeCookies old new)).
Proof.
  unfold mergeCookies. rewrite names_of_wellFiled.
  - apply wellFiled_fold, wellFiled_fold, wellFiled_nil.
  - apply wellFiled_fold, wellFiled_fold, wellFiled_nil.
Qed.

Lemma mergeCookies_names (old new : list string) :
  Forall (fun c => cookieName c <> EmptyString) (mergeCookies old new).
Proof.
  unfold mergeCookies.
  assert (Hw : wellFiled (fold_left setCookie new (fold_left setCookie old [])))
    by apply wellFiled_fold, wellFiled_fold, wellFiled_nil.
  destruct Hw as [_ Hall].
  induction Hall as [|[k v] m [Hk Hne] _ IH]; simpl; constructor.
  - simpl in *. congruence.
  - exact IH.
Qed.

Lemma mergeCookies_named (n : string) (old new : list string) :
  n <> EmptyString ->
  named n (mergeCookies old new) = lastNamed n (old ++ new).
Proof.
  intros Hn. unfold mergeCookies.
  rewrite named_of_wellFiled
    by apply wellFiled_fold, wellFiled_fold, wellFiled_nil.
  rewrite !assoc_fold by assumption. rewrite lastNamed_app.
  destruct (lastNamed n new); [reflexivity|].
  destruct (lastNamed n old); reflexivity.
Qed.

End CookieMerge.

Section CookieUpdates.

Lemma updateCookies_existing (u : list string) (w : World) (s : Session) :
  session w = Some s ->
  session (snd (updateCookies u w)) =
  Some {| cookies := mergeCookies (cookies s) u; tokens := tokens s;
          expiresAt := expiresAt s |}.
Proof. intros H. unfold updateCookies, modify. simpl. rewrite H. reflexivity. Qed.

Lemma updateCookies_null (u : list string) (w : World) :
  session w = None ->
  session (snd (updateCookies u w)) =
  Some {| cookies := u; tokens := Some ∅; expiresAt := None |}.
Proof. intros H. unfold updateCookies, modify. simpl. rewrite H. reflexivity. Qed.

(** Once the list has one entry per name, every further series of updates
    keeps that shape, and each name shows the last string written for it. *)
Lemma afterUpdates_existing (us : list (list string)) :
  forall (w : World) (s : Session) (written : list string),
    session w = Some s ->
    List.NoDup (List.map cookieName (cookies s)) ->
    Forall (fun c => cookieName c <> EmptyString) (cookies s) ->
    (forall n, n <> EmptyString -> named n (cookies s) = lastNamed n written) ->
    List.NoDup (List.map cookieName (cookieList (afterUpdates us w))) /\
    Forall (fun c => cookieName c <> EmptyString) (cookieList (afterUpdates us w)) /\
    (forall n, n <> EmptyString ->
       named n (cookieList (afterUpdates us w)) = lastNamed n (written ++ concat us)).
Proof.
  induction us as [|u us IH]; intros w s written Hs Hnd Hne Hlast.
  - unfold afterUpdates, cookieList. simpl. rewrite Hs. simpl.
    rewrite app_nil_r. auto.
  - change (afterUpdates (u :: us) w)
      with (afterUpdates us (snd (updateCookies u w))).
    simpl concat.
    replace (written ++ u ++ concat us)%list
      with ((written ++ u) ++ concat us)%list by (symmetry; apply List.app_assoc).
    eapply IH.
    + apply updateCookies_existing. exact Hs.
    + apply mergeCookies_NoDup.
    + apply mergeCookies_names.
    + intros n Hn. simpl. rewrite mergeCookies_named by assumption.
      rewrite !lastNamed_app. destruct (lastNamed n u); [reflexivity|].
      rewrite lastNamed_NoDup by assumption. apply Hlast. assumption.
Qed.

(** Two updates are enough to reach that shape, whatever the session held
    (or did not hold) before. *)
Lemma afterUpdates_two (a b : list string) (us : list (list string)) (w : World) :
  List.NoDup (List.map cookieName (cookieList (afterUpdates (a :: b :: us) w))) /\
  Forall (fun c => cookieName c <> EmptyString)
         (cookieList (afterUpdates (a :: b :: us) w)) /\
  (forall n, n <> EmptyString ->
     named n (cookieList (afterUpdates (a :: b :: us) w)) =
     lastNamed n (cookieList w ++ a ++ b ++ concat us)).
Proof.
  destruct (session w) as [s|] eqn:Hs.
  - change (afterUpdates (a :: b :: us) w)
      with (afterUpdates (b :: us) (snd (updateCookies a w))).
    replace (cookieList w) with (cookies s) by (unfold cookieList; rewrite Hs; reflexivity).
    replace (cookies s ++ a ++ b ++ concat us)%list
      with ((cookies s ++ a) ++ concat (b :: us))%list
      by (simpl; symmetry; apply List.app_assoc).
    eapply afterUpdates_existing.
    + apply updateCookies_existing. exact Hs.
    + apply mergeCookies_NoDup.
    + apply mergeCookies_names.
    + intros n Hn. simpl. apply mergeCookies_named. assumption.
  - change (afterUpdates (a :: b :: us) w)
      with (afterUpdates us (snd (updateCookies b (snd (updateCookies a w))))).
    replace (cookieList w) with (@nil string)
      by (unfold cookieList; rewrite Hs; reflexivity).
    simpl app.
    replace (a ++ b ++ concat us)%list with ((a ++ b) ++ concat us)%list
      by (symmetry; apply List.app_assoc).
    eapply afterUpdates_existing.
    + rewrite (updateCookies_existing b _ _ (updateCookies_null a w Hs)).
      reflexivity.
    + apply mergeCookies_NoDup.
    + apply mergeCookies_names.
    + intros n Hn. simpl. apply mergeCookies_named. assumption.
Qed.

End CookieUpdates.

(** C6 (as amended). After the cookie lists [A] then [B] have gone through
    [updateCookies], the session's list holds exactly one entry per
    distinct non-empty cookie name: for each such name the last string [B]
    gives it, else the last string [A] gives it, else the one the session
    held before; strings whose name is empty are not kept.  The same holds
    after any further series of updates (the last write per name wins), so
    the list never holds two entries for one name. *)
Theorem updateCookies_last_write_wins
        (w : World) (A B : list string) (more : list (list string)) :
  (List.NoDup (List.map cookieName (cookieList (afterUpdates [A; B] w))) /\
   Forall (fun c => cookieName c <> EmptyString) (cookieList (afterUpdates [A; B] w)) /\
   (forall n, n <> EmptyString ->
      named n (cookieList (afterUpdates [A; B] w)) =
      match lastNamed n B with
      | Some c => Some c
      | None =>
          match lastNamed n A with
          | Some c => Some c
          | None => lastNamed n (cookieList w)
          end
      end)) /\
  (List.NoDup (List.map cookieName (cookieList (afterUpdates (A :: B :: more) w))) /\
   Forall (fun c => cookieName c <> EmptyString)
          (cookieList (afterUpdates (A :: B :: more) w)) /\
   (forall n, n <> EmptyString ->
      named n (cookieList (afterUpdates (A :: B :: more) w)) =
      lastNamed n (cookieList w ++ A ++ B ++ concat more))).
Proof.
  split; [|apply afterUpdates_two].
  destruct (afterUpdates_two A B [] w) as (Hnd & Hne & Hlast).
  repeat split; try assumption.
  intros n Hn. rewrite (Hlast n Hn). simpl concat. rewrite app_nil_r.
  rewrite !lastNamed_app.
  destruct (lastNamed n B); [reflexivity|].
  destruct (lastNamed n A); reflexivity.
Qed.

(** C6, the claim as stated fails on a cookie without a name: [A] holds the
    string [=v], filed under the empty name, [B] holds nothing under that
    name, and the merged list has lost the entry. *)
Lemma updateCookies_drops_nameless :
  named EmptyString ["=v"; "a=1"] = Some "=v" /\
  named EmptyString ["b=2"] = None /\
  cookieList (afterUpdates [["=v"; "a=1"]; ["b=2"]] (freshWorld 0)) = ["a=1"; "b=2"].
Proof. repeat split. Qed.

(** C10. On a manager whose session is null (as it is after construction
    and after [clearSession]), one [updateCookies] call stores the incoming
    list as it is, duplicates and nameless entries included, next to an
    empty token map; the one-entry-per-name shape appears with the next
    update. *)
Theorem updateCookies_null_session_verbatim (w : World) (l : list string) :
  session w = None ->
  session (snd (updateCookies l w)) =
    Some {| cookies := l; tokens := Some ∅; expiresAt := None |} /\
  tokensOf (session (snd (updateCookies l w))) = ∅ /\
  (forall w0, session (snd (clearSession w0)) = None) /\
  (forall l', List.NoDup (List.map cookieName (cookieList (afterUpdates [l; l'] w)))).
Proof.
  intros Hs. rewrite (updateCookies_null l w Hs). repeat split.
  intros l'. apply (afterUpdates_two l l' [] w).
Qed.

Lemma updateCookies_null_session_verbatim_witness :
  session (freshWorld 0) = None /\
  session (snd (updateCookies ["a=1"; "a=2"; "=x"] (freshWorld 0))) =
    Some {| cookies := ["a=1"; "a=2"; "=x"]; tokens := Some ∅; expiresAt := None |}.
Proof.
  split; [reflexivity|].
  exact (proj1 (updateCookies_null_session_verbatim
                  (freshWorld 0) ["a=1"; "a=2"; "=x"] eq_refl)).
Defined.

(* ===================================================================== *)
(** ** Retry policy *)
(* ===================================================================== *)

Section Retry.

Context {T : Type}.
Variable config : RetryConfig.
Variable fn : M T.
Variable isRetryableError : option (Thrown -> bool).

(** A failure on the last permitted attempt leaves the loop at once. *)
Lemma attempts_exhausted (k : nat) (attempt : Z) (last e : Thrown) (w w1 : World) :
  fn w = (Throw e, w1) ->
  (maxAttempts config <=? attempt + 1)%Z = true ->
  attempts config fn isRetryableError (S k) attempt last w = (Throw e, w1).
Proof.
  intros Hfn Hmax. simpl. unfold tryCatch. rewrite Hfn, Hmax. reflexivity.
Qed.

(** A failure that is not retryable leaves the loop at once as well. *)
Lemma attempts_not_retryable (k : nat) (attempt : Z) (last e : Thrown) (w w1 : World) :
  fn w = (Throw e, w1) ->
  retryable config isRetryableError e = false ->
  attempts config fn isRetryableError (S k) attempt last w = (Throw e, w1).
Proof.
  intros Hfn Hno. simpl. unfold tryCatch. rewrite Hfn.
  destruct (maxAttempts config <=? attempt + 1)%Z; [reflexivity|].
  unfold retryable in Hno. destruct isRetryableError as [p|].
  - rewrite Hno. reflexivity.
  - rewrite Hno. reflexivity.
Qed.

(** A retryable failure with attempts left sleeps and goes round again. *)
Lemma attempts_retry (k : nat) (attempt : Z) (last e : Thrown) (w w1 : World) :
  fn w = (Throw e, w1) ->
  (maxAttempts config <=? attempt + 1)%Z = false ->
  retryable config isRetryableError e = true ->
  attempts config fn isRetryableError (S k) attempt last w =
  attempts config fn isRetryableError k (attempt + 1) e
           (snd (sleep (backoffMs config * 2 ^ (attempt + 1 - 1)) w1)).
Proof.
  intros Hfn Hmax Hyes. simpl. unfold tryCatch. rewrite Hfn, Hmax.
  unfold retryable in Hyes. destruct isRetryableError as [p|].
  - rewrite Hyes, Bool.andb_false_r. reflexivity.
  - rewrite Hyes. reflexivity.
Qed.

End Retry.

(** C4 (as amended). With [maxAttempts = 3] and [backoffMs = 100], an
    operation that fails on every call with a failure the handler counts
    as retryable is run three times: at the start, after a sleep of 100 ms
    and after a further sleep of 200 ms.  The failure of the third run is
    thrown as it is, in the world the third run left (no sleep follows). *)
Theorem execute_three_attempts {T : Type} (config : RetryConfig) (fn : M T)
        (isRetryableError : option (Thrown -> bool)) (w0 : World) :
  maxAttempts config = 3%Z ->
  backoffMs config = 100%Z ->
  (forall w, exists e w', fn w = (Throw e, w') /\
                          retryable config isRetryableError e = true) ->
  exists e1 w1 e2 w2 e3 w3,
    fn w0 = (Throw e1, w1) /\
    fn (snd (sleep 100 w1)) = (Throw e2, w2) /\
    fn (snd (sleep 200 w2)) = (Throw e3, w3) /\
    execute config fn isRetryableError w0 = (Throw e3, w3).
Proof.
  intros Hmax Hback Hfails.
  destruct (Hfails w0) as (e1 & w1 & Hfn1 & Hr1).
  destruct (Hfails (snd (sleep 100 w1))) as (e2 & w2 & Hfn2 & Hr2).
  destruct (Hfails (snd (sleep 200 w2))) as (e3 & w3 & Hfn3 & Hr3).
  exists e1, w1, e2, w2, e3, w3. repeat split; try assumption.
  unfold execute. rewrite Hmax. change (Z.to_nat 3) with 3%nat.
  rewrite (attempts_retry config fn isRetryableError 2 0 Undefined e1 w0 w1 Hfn1)
    by (rewrite ?Hmax; auto).
  rewrite Hback. change (100 * 2 ^ (0 + 1 - 1))%Z with 100%Z.
  rewrite (attempts_retry config fn isRetryableError 1 (0 + 1) e1 e2 _ w2 Hfn2)
    by (rewrite ?Hmax; auto).
  rewrite Hback. change (100 * 2 ^ (0 + 1 + 1 - 1))%Z with 200%Z.
  apply (attempts_exhausted config fn isRetryableError 0 (0 + 1 + 1) e2 e3 _ w3 Hfn3).
  rewrite Hmax. reflexivity.
Qed.

Lemma execute_three_attempts_witness :
  exists e1 w1 e2 w2 e3 w3,
    probe (refusing "Error" "connect ECONNREFUSED") (freshWorld 0) = (Throw e1, w1) /\
    probe (refusing "Error" "connect ECONNREFUSED") (snd (sleep 100 w1)) = (Throw e2, w2) /\
    probe (refusing "Error" "connect ECONNREFUSED") (snd (sleep 200 w2)) = (Throw e3, w3) /\
    execute retryConfigSample (probe (refusing "Error" "connect ECONNREFUSED")) None
            (freshWorld 0) = (Throw e3, w3).
Proof.
  apply (execute_three_attempts retryConfigSample
           (probe (refusing "Error" "connect ECONNREFUSED")) None (freshWorld 0)).
  - reflexivity.
  - reflexivity.
  - intros w. eexists. eexists. split; reflexivity.
Defined.

(** The run of the witness, read off its trace: three calls, two sleeps;
    the clock has moved on by the two sleeps and by the 15 ms each refused
    call took. *)
Example execute_three_attempts_trace :
  let w := snd (execute retryConfigSample
                        (probe (refusing "Error" "connect ECONNREFUSED")) None
                        (freshWorld 0)) in
  List.length (fetchCalls (trace w)) = 3%nat /\ sleeps (trace w) = [100; 200]%Z /\
  now w = (100 + 200 + 3 * 15)%Z.
Proof. repeat split. Qed.

(** C4, the claim as stated fails when the failure is not retryable: the
    operation fails on every call, the handler is configured with three
    attempts and 100 ms, and the operation is run once, without a sleep. *)
Lemma execute_gives_up_on_other_failures :
  (forall w, exists e w', probe (refusing "Error" "boom") w = (Throw e, w')) /\
  maxAttempts retryConfigSample = 3%Z /\ backoffMs retryConfigSample = 100%Z /\
  let w := snd (execute retryConfigSample (probe (refusing "Error" "boom")) None
                        (freshWorld 0)) in
  List.length (fetchCalls (trace w)) = 1%nat /\ sleeps (trace w) = [].
Proof.
  split; [|repeat split].
  intros w. eexists. eexists. reflexivity.
Qed.

(** C9. When the caller's predicate says no to the first failure, [execute]
    is one run of the operation: that failure is thrown, in the world that
    run left behind.  The configured patterns play no part. *)
Theorem execute_predicate_false_once {T : Type} (config : RetryConfig) (fn : M T)
        (p : Thrown -> bool) (w w1 : World) (e : Thrown) :
  (0 < maxAttempts config)%Z ->
  fn w = (Throw e, w1) ->
  p e = false ->
  execute config fn (Some p) w = (Throw e, w1).
Proof.
  intros Hpos Hfn Hp. unfold execute.
  destruct (Z.to_nat (maxAttempts config)) as [|k] eqn:Hk; [lia|].
  apply attempts_not_retryable; assumption.
Qed.

Lemma execute_predicate_false_once_witness :
  (0 < maxAttempts retryConfigSample)%Z /\
  execute retryConfigSample (probe (refusing "Error" "socket timeout"))
          (Some (fun _ => false)) (freshWorld 0) =
  probe (refusing "Error" "socket timeout") (freshWorld 0).
Proof.
  split; [reflexivity|].
  apply (execute_predicate_false_once retryConfigSample
           (probe (refusing "Error" "socket timeout")) (fun _ => false)
           (freshWorld 0)); reflexivity.
Defined.

(** The same run without the predicate is retried, the message matching a
    configured pattern: the predicate's verdict is what stopped it. *)
Example execute_pattern_alone_retries :
  retryable retryConfigSample None (PlainError "Error" "socket timeout" None) = true /\
  List.length
    (fetchCalls (trace (snd (execute retryConfigSample
                                     (probe (refusing "Error" "socket timeout")) None
                                     (freshWorld 0))))) = 3%nat /\
  List.length
    (fetchCalls (trace (snd (execute retryConfigSample
                                     (probe (refusing "Error" "socket timeout"))
                                     (Some (fun _ => false))
                                     (freshWorld 0))))) = 1%nat.
Proof. repeat split. Qed.

(* ===================================================================== *)
(** ** transform *)
(* ===================================================================== *)

Lemma metadataProp_get (k : string) (n : VisitNote) :
  metadataProp k n =
  match metadataGet k n with
  | Some v => if truthy v then Some v else None
  | None => None
  end.
Proof. unfold metadataProp, metadataGet. destruct (metadata n); reflexivity. Qed.

Lemma formatDate_zone (env env' : Env) (d : JsDate) :
  (forall t, localTZA (engine env) t = localTZA (engine env') t) ->
  formatDate env d = formatDate env' d.
Proof.
  intros Hz. destruct d as [ms|]; [|reflexivity].
  unfold formatDate, localDate. rewrite Hz. reflexivity.
Qed.

(** C8. [transform] is a function of the record and of the time zone
    alone: it takes no world and returns none, and equal records give equal
    requests.  Two records that differ only in [metadata.tags] give
    requests that agree on every field but [tags]; the two display flags
    are ["on"] in both. *)
Theorem transform_pure (env env' : Env) (n1 n2 : VisitNote) :
  (n1 = n2 ->
   (forall t, localTZA (engine env) t = localTZA (engine env') t) ->
   transform env n1 = transform env' n2) /\
  (differOnlyInTags n1 n2 ->
   match transform env n1, transform env n2 with
   | Ok r1, Ok r2 =>
       carelog r1 = carelog r2 /\ shift r1 = shift r2 /\
       unavailability r1 = unavailability r2 /\ date r1 = date r2 /\
       req_note r1 = req_note r2 /\
       show_with_billing r1 = "on" /\ show_with_billing r2 = "on" /\
       show_with_payroll r1 = "on" /\ show_with_payroll r2 = "on" /\
       csrfmiddlewaretoken r1 = csrfmiddlewaretoken r2
   | Throw e1, Throw e2 => e1 = e2
   | _, _ => False
   end).
Proof.
  split.
  - intros <- Hz. unfold transform.
    destruct (match metadataProp "shift" n1 with Some v => toString v | None => _ end)
      as [shift|]; [|reflexivity].
    destruct (visitDate n1) as [d|]; [|reflexivity].
    rewrite (formatDate_zone env env' d Hz). reflexivity.
  - intros (Hid & _ & _ & Hdate & _ & _ & Hnote & _ & Hmeta).
    unfold transform. rewrite <- Hdate.
    rewrite !metadataProp_get, <- (Hmeta "shift") by discriminate.
    rewrite <- Hid, <- Hnote.
    destruct (match match metadataGet "shift" n1 with
                    | Some v => if truthy v then Some v else None
                    | None => None
                    end with Some v => toString v | None => _ end)
      as [shift|]; [|reflexivity].
    destruct (visitDate n1) as [d|]; [|reflexivity].
    simpl. repeat split.
Qed.

Lemma taggedNotes_differ_in_tags : differOnlyInTags (taggedNote "a") (taggedNote "b").
Proof.
  unfold differOnlyInTags. repeat split.
  intros k Hk. unfold metadataGet. simpl.
  destruct (String.eqb k "tags") eqn:Heq; [|reflexivity].
  apply String.eqb_eq in Heq. contradiction.
Defined.

Lemma transform_pure_witness :
  differOnlyInTags (taggedNote "a") (taggedNote "b") /\
  match transform (scripted []) (taggedNote "a"), transform (scripted []) (taggedNote "b") with
  | Ok r1, Ok r2 =>
      shift r1 = shift r2 /\ date r1 = date r2 /\ req_note r1 = req_note r2 /\
      tags r1 = JStr "a" /\ tags r2 = JStr "b"
  | _, _ => False
  end.
Proof.
  split; [exact taggedNotes_differ_in_tags|].
  pose proof (proj2 (transform_pure (scripted []) (scripted []) (taggedNote "a") (taggedNote "b"))
                    taggedNotes_differ_in_tags) as H.
  cbv in H |- *. repeat split; apply H.
Defined.

Example transform_sample :
  transform (scripted []) (taggedNote "a") =
  Ok {| carelog := EmptyString; shift := "266477302"; unavailability := EmptyString;
        date := "12/22/2025"; tags := JStr "a"; req_note := Some "ok";
        show_with_billing := "on"; show_with_payroll := "on";
        csrfmiddlewaretoken := None |}.
Proof. reflexivity. Qed.

(* ===================================================================== *)
(** ** Validation at the orchestration boundary *)
(* ===================================================================== *)

Lemma validateVisitNote_first (n : VisitNote) :
  Services.validateVisitNote n =
  match firstMissing n with
  | Some what => Throw (Services.required what)
  | None => Ok tt
  end.
Proof.
  unfold Services.validateVisitNote, firstMissing, requiredProperties. simpl.
  destruct (truthyStr (visitId n)); simpl; [|reflexivity].
  destruct (truthyStr (patientId n)); simpl; [|reflexivity].
  destruct (truthyStr (caregiverId n)); simpl; [|reflexivity].
  destruct (truthyStr (note n)); simpl; [|reflexivity].
  destruct (visitDate n); reflexivity.
Qed.

Lemma firstMissing_some (n : VisitNote) :
  missingRequired n -> exists what, firstMissing n = Some what.
Proof.
  intros Hmiss. unfold firstMissing, requiredProperties. simpl.
  destruct (truthyStr (visitId n)) eqn:H1; simpl; [|eauto].
  destruct (truthyStr (patientId n)) eqn:H2; simpl; [|eauto].
  destruct (truthyStr (caregiverId n)) eqn:H3; simpl; [|eauto].
  destruct (truthyStr (note n)) eqn:H4; simpl; [|eauto].
  destruct (visitDate n) eqn:H5; simpl; [|eauto].
  destruct Hmiss as [H|[H|[H|[H|H]]]]; congruence.
Qed.

(** C1 (as amended). When [visitId], [patientId], [caregiverId] or [note]
    is empty or absent, or [visitDate] is absent, [postVisitNote] of the
    service fails with the failure [validateVisitNote] raises for the first
    such property in that order, [<property> is required] (the note goes
    by [note content] there), and leaves the world as it found it: no
    network call has been made, the adapter was not entered. *)
Theorem postVisitNote_rejects_incomplete_record
        (env : Env) (svc : Services.VisitNoteService) (n : VisitNote) (w : World) :
  missingRequired n ->
  exists what,
    firstMissing n = Some what /\
    Services.postVisitNote env svc n w =
      (Throw (PlainError "Error" (what ++ " is required") None), w).
Proof.
  intros Hmiss. destruct (firstMissing_some n Hmiss) as (what & Hfirst).
  exists what. split; [assumption|].
  unfold Services.postVisitNote. rewrite validateVisitNote_first, Hfirst. reflexivity.
Qed.

Lemma postVisitNote_rejects_incomplete_record_witness :
  missingRequired noteWithGaps /\
  firstMissing noteWithGaps = Some "patientId" /\
  Services.postVisitNote (scripted []) wellSkyService noteWithGaps
                         (loggedIn sampleSession 0) =
    (Throw (PlainError "Error" "patientId is required" None),
     loggedIn sampleSession 0).
Proof.
  assert (Hmiss : missingRequired noteWithGaps)
    by (right; left; reflexivity).
  split; [exact Hmiss|].
  destruct (postVisitNote_rejects_incomplete_record
              (scripted []) wellSkyService noteWithGaps (loggedIn sampleSession 0) Hmiss)
    as (what & Hfirst & Hrun).
  split; [reflexivity|].
  injection Hfirst as <-. exact Hrun.
Defined.

(** C1, the claim as stated fails on the kind of the failure: what the
    caller of the service receives for a record without a patient is the
    plain [Error] of [validateVisitNote], which is no [EMRAdapterError] and
    carries no kind. *)
Lemma postVisitNote_validation_failure_is_untagged :
  let outcome := Services.postVisitNote (scripted []) wellSkyService noteWithoutPatient
                                        (loggedIn sampleSession 0) in
  fst outcome = Throw (PlainError "Error" "patientId is required" None) /\
  trace (snd outcome) = [] /\
  (forall e, fst outcome = Throw e ->
             isAdapterError e = false /\ errorType e <> Some Validation).
Proof.
  repeat split.
  - injection H as <-. reflexivity.
  - injection H as <-. discriminate.
Qed.

(* ===================================================================== *)
(** ** Stepping through monadic code *)
(* ===================================================================== *)

Section Steps.

Context {A B : Type}.

Lemma bind_ok (m : M A) (k : A -> M B) (w w' : World) (a : A) :
  m w = (Ok a, w') -> bind m k w = k a w'.
Proof. intros H. unfold bind. rewrite H. reflexivity. Qed.

Lemma bind_throw (m : M A) (k : A -> M B) (w w' : World) (e : Thrown) :
  m w = (Throw e, w') -> bind m k w = (Throw e, w').
Proof. intros H. unfold bind. rewrite H. reflexivity. Qed.

Lemma tryCatch_ok (m : M A) (h : Thrown -> M A) (w w' : World) (a : A) :
  m w = (Ok a, w') -> tryCatch m h w = (Ok a, w').
Proof. intros H. unfold tryCatch. rewrite H. reflexivity. Qed.

Lemma tryCatch_throw (m : M A) (h : Thrown -> M A) (w w' : World) (e : Thrown) :
  m w = (Throw e, w') -> tryCatch m h w = h e w'.
Proof. intros H. unfold tryCatch. rewrite H. reflexivity. Qed.

End Steps.

Lemma request_response (env : Env) (method url : string) (o : HTTPRequestOptions)
      (w : World) (r : RawResponse) :
  fetch env (trace w) (fetchCall method url o) = FetchResponse r ->
  request env method url o w =
  (Ok (toResponse r), settle env (fetchCall method url o) (FetchResponse r) w).
Proof. intros H. unfold request. rewrite H. reflexivity. Qed.

Lemma request_rejected (env : Env) (method url : string) (o : HTTPRequestOptions)
      (w : World) (name message : string) (st : option Z) :
  fetch env (trace w) (fetchCall method url o) = FetchRejected name message st ->
  exists name' message' st',
    request env method url o w =
    (Throw (PlainError name' message' st'),
     settle env (fetchCall method url o) (FetchRejected name message st) w).
Proof.
  intros H. unfold request. rewrite H.
  destruct (String.eqb name "AbortError"); eauto.
Qed.

(** With attempts configured, a first failure that is not retryable ends
    [execute] after one run of the operation. *)
Lemma execute_not_retryable {T : Type} (config : RetryConfig) (fn : M T)
      (isRetryableError : option (Thrown -> bool)) (w w1 : World) (e : Thrown) :
  (0 < maxAttempts config)%Z ->
  fn w = (Throw e, w1) ->
  retryable config isRetryableError e = false ->
  execute config fn isRetryableError w = (Throw e, w1).
Proof.
  intros Hpos Hfn Hno. unfold execute.
  destruct (Z.to_nat (maxAttempts config)) as [|k] eqn:Hk; [lia|].
  apply attempts_not_retryable; assumption.
Qed.

Lemma postVisitNote_authenticated (env : Env) (n : VisitNote) (w : World) (s : Session) :
  session w = Some s ->
  expiredAt (now w) s = false ->
  Adapters.postVisitNote env n w = handleRetry (submitNote env n) w.
Proof.
  intros Hs Hexp.
  unfold Adapters.postVisitNote, isAuthenticated, getSession, isExpired, bind, gets, ret.
  rewrite Hs. simpl. rewrite Hexp. reflexivity.
Qed.

(* ===================================================================== *)
(** ** Submission: session loss and server failures *)
(* ===================================================================== *)

Lemma submitNote_session_lost (env : Env) (n : VisitNote) (w : World) (s : Session)
      (r1 r2 : RawResponse) :
  session w = Some s ->
  fetch env (trace w) (schedulingCall (cookies s)) = FetchResponse r1 ->
  sessionLost (raw_status r1) = true ->
  fetch env (trace w ++ [EvFetch (schedulingCall (cookies s)) (FetchResponse r1)])%list
        (dashboardCall (mergeCookies (cookies s) (res_cookies (toResponse r1))))
    = FetchResponse r2 ->
  sessionLost (raw_status r2) = true ->
  exists w',
    submitNote env n w = (Throw (sessionExpiredError (raw_status r1) (raw_status r2)), w') /\
    trace w' = (trace w ++
      [EvFetch (schedulingCall (cookies s)) (FetchResponse r1);
       EvFetch (dashboardCall (mergeCookies (cookies s) (res_cookies (toResponse r1))))
               (FetchResponse r2)])%list.
Proof.
  intros Hs H1 Hl1 H2 Hl2. eexists. split.
  - unfold submitNote.
    unfold getTokens, getCookies. unfold bind at 1. unfold gets at 1.
    unfold bind at 1. unfold gets at 1.
    rewrite Hs. simpl cookiesOf.
    unfold get.
    erewrite bind_ok; [|apply request_response; exact H1].
    unfold bind at 1. unfold updateCookies at 1. unfold modify at 1.
    simpl session. rewrite Hs.
    simpl status. rewrite Hl1.
    erewrite bind_throw; [reflexivity|].
    unfold bind at 1. unfold gets at 1. simpl cookiesOf.
    erewrite bind_ok; [|apply request_response; exact H2].
    change (status (toResponse r2)) with (raw_status r2).
    rewrite Hl2. reflexivity.
  - simpl. rewrite <- List.app_assoc. reflexivity.
Qed.

(** C5 (as amended). On an adapter that holds an unexpired session, when
    the token-refresh page answers with status 403 or 302 and the dashboard
    probe answers with status 403 or 302 as well, [postVisitNote] fails with
    an Authentication error that carries the two statuses; the run made
    those two GET calls and no other, so no submission was posted. *)
Theorem postVisitNote_session_lost (env : Env) (n : VisitNote) (w : World) (s : Session)
        (r1 r2 : RawResponse) :
  session w = Some s ->
  expiredAt (now w) s = false ->
  fetch env (trace w) (schedulingCall (cookies s)) = FetchResponse r1 ->
  sessionLost (raw_status r1) = true ->
  fetch env (trace w ++ [EvFetch (schedulingCall (cookies s)) (FetchResponse r1)])%list
        (dashboardCall (mergeCookies (cookies s) (res_cookies (toResponse r1))))
    = FetchResponse r2 ->
  sessionLost (raw_status r2) = true ->
  exists w',
    Adapters.postVisitNote env n w =
      (Throw (EMRAdapterError "Session expired or invalid. Please login again."
                Authentication WellSky
                (CauseStatuses (raw_status r1) (raw_status r2))), w') /\
    methods (trace w') = (methods (trace w) ++ ["GET"; "GET"])%list /\
    sleeps (trace w') = sleeps (trace w).
Proof.
  intros Hs Hexp H1 Hl1 H2 Hl2.
  destruct (submitNote_session_lost env n w s r1 r2 Hs H1 Hl1 H2 Hl2)
    as (w' & Hrun & Htrace).
  exists w'. split; [|split].
  - rewrite (postVisitNote_authenticated env n w s Hs Hexp).
    unfold handleRetry. apply execute_not_retryable.
    + reflexivity.
    + exact Hrun.
    + reflexivity.
  - rewrite Htrace. unfold methods, fetchCalls.
    rewrite List.flat_map_app, List.map_app. reflexivity.
  - rewrite Htrace. unfold sleeps. rewrite List.flat_map_app. simpl.
    apply List.app_nil_r.
Qed.

Lemma postVisitNote_session_lost_witness :
  exists w',
    Adapters.postVisitNote (scripted [forbidden; forbidden]) sampleNote
                           (loggedIn sampleSession 0) =
      (Throw (EMRAdapterError "Session expired or invalid. Please login again."
                Authentication WellSky (CauseStatuses 403 403)), w') /\
    methods (trace w') = ["GET"; "GET"] /\
    sleeps (trace w') = [].
Proof.
  exact (postVisitNote_session_lost
           (scripted [forbidden; forbidden]) sampleNote (loggedIn sampleSession 0)
           sampleSession
           {| raw_status := 403; raw_statusText := "Forbidden"; raw_headers := ∅;
              raw_setCookie := []; raw_body := JStr EmptyString |}
           {| raw_status := 403; raw_statusText := "Forbidden"; raw_headers := ∅;
              raw_setCookie := []; raw_body := JStr EmptyString |}
           eq_refl eq_refl eq_refl eq_refl eq_refl eq_refl).
Defined.

(** C5, the claim as stated fails for a redirect other than 302: the
    token-refresh page answers 403, the dashboard probe answers with the
    redirect status 301 and no [Location] header, so that [fetch] hands
    that answer back, and the submission is posted all the same. *)
Lemma postVisitNote_posts_after_other_redirect :
  let outcome :=
    Adapters.postVisitNote
      (scripted [forbidden; movedNowhere; textResponse 200 "OK" "saved"])
      sampleNote (loggedIn sampleSession 0) in
  (exists result, fst outcome = Ok result /\ success result = true) /\
  methods (trace (snd outcome)) = ["GET"; "GET"; "POST"] /\
  statuses (trace (snd outcome)) = [403; 301; 200]%Z /\
  (exists r, movedNowhere = FetchResponse r /\ raw_headers r !! "location" = None).
Proof.
  split; [eexists; split; reflexivity|]. split; [reflexivity|]. split; [reflexivity|].
  eexists. split; reflexivity.
Qed.

(** What [handleRetry] does with a failure of the adapter's own making: an
    [EMRAdapterError] has no [status], so only a network marker in its
    message can make the predicate say yes. *)
Lemma handleRetry_adapter_error (fn : M PostResult) (w w1 : World)
      (m : string) (t : ErrorType) (emr : EMRType) (cause : Cause) :
  fn w = (Throw (EMRAdapterError m t emr cause), w1) ->
  isNetworkError (EMRAdapterError m t emr cause) = false ->
  handleRetry fn w = (Throw (EMRAdapterError m t emr cause), w1).
Proof.
  intros Hfn Hnet. unfold handleRetry. apply execute_not_retryable.
  - reflexivity.
  - exact Hfn.
  - unfold retryable, defaultRetryable. rewrite Hnet. reflexivity.
Qed.

(** C2. The code at a failing input: the adapter is logged in, the
    token-refresh page is served, the submission is answered with status
    500.  The failure [submitNote] throws is an [EMRAdapterError], which has
    no [status] property, so the predicate of [handleRetry] says no: one
    POST, no sleep, the failure thrown after the first attempt although
    three attempts are configured and 500 is a server failure. *)
Theorem postVisitNote_server_error_single_attempt :
  let outcome :=
    Adapters.postVisitNote
      (scripted [textResponse 200 "OK" loginPage;
                 textResponse 500 "Internal Server Error" "oops"])
      sampleNote (loggedIn sampleSession 0) in
  (exists r,
     fst outcome =
       Throw (EMRAdapterError
                "WellSky post visit note failed with status 500 Internal Server Error"
                EMRSpecific WellSky (CauseResponse r)) /\
     isServerError (status r) = true) /\
  methods (trace (snd outcome)) = ["GET"; "POST"] /\
  sleeps (trace (snd outcome)) = [] /\
  maxAttempts retryConfig = 3%Z /\
  (forall m t emr cause,
     errorStatus (EMRAdapterError m t emr cause) = None /\
     defaultRetryable (EMRAdapterError m t emr cause) =
       isNetworkError (EMRAdapterError m t emr cause)).
Proof.
  repeat split.
  - eexists. split; reflexivity.
  - unfold defaultRetryable. simpl errorStatus.
    destruct (isNetworkError _); reflexivity.
Qed.

(* ===================================================================== *)
(** ** Authentication *)
(* ===================================================================== *)

Section Throws.

Context {A B : Type}.
Variable P : Thrown -> Prop.

Lemma throwsOnly_ret (a : A) : throwsOnly P (ret a).
Proof. intros w e w' H. discriminate. Qed.

Lemma throwsOnly_gets (f : World -> A) : throwsOnly P (gets f).
Proof. intros w e w' H. discriminate. Qed.

Lemma throwsOnly_throw (e : Thrown) : P e -> throwsOnly P (@throw A e).
Proof. intros He w e' w' H. injection H as <- _. exact He. Qed.

Lemma throwsOnly_bind (m : M A) (k : A -> M B) :
  throwsOnly P m -> (forall a, throwsOnly P (k a)) -> throwsOnly P (bind m k).
Proof.
  intros Hm Hk w e w' H. unfold bind in H.
  destruct (m w) as [[a|e0] w0] eqn:Hmw.
  - exact (Hk a w0 e w' H).
  - injection H as <- _. exact (Hm w e0 w0 Hmw).
Qed.

End Throws.

Lemma throwsOnly_modify (P : Thrown -> Prop) (f : World -> World) :
  throwsOnly P (modify f).
Proof. intros w e w' H. discriminate. Qed.

Lemma throwsOnly_request (env : Env) (method url : string) (o : HTTPRequestOptions) :
  throwsOnly plainOrAuthentication (request env method url o).
Proof.
  intros w e w' H. unfold request in H.
  destruct (fetch env (trace w) (fetchCall method url o)) as [r|name message st].
  - discriminate.
  - destruct (String.eqb name "AbortError"); injection H as <- _; exact I.
Qed.

Lemma lengthPositive_throws (env : Env) (b : Json) (e : Thrown) :
  lengthPositive env b = Throw e -> e = notPrimitive.
Proof.
  unfold lengthPositive. destruct b as [| | | | |fields]; try discriminate.
  destruct (getField "length" fields) as [v|]; [|discriminate].
  unfold greaterThanZero.
  destruct v; try discriminate;
    destruct (toString _); try discriminate; intros H; injection H as <-; reflexivity.
Qed.

Lemma multiloginRejected_throws (env : Env) (b : Json) (e : Thrown) :
  multiloginRejected env b = Throw e -> plainOrAuthentication e.
Proof.
  assert (Hlen : forall errors, lengthPositive env errors = Throw e ->
                                plainOrAuthentication e).
  { intros errors H. rewrite (lengthPositive_throws env errors e H). exact I. }
  unfold multiloginRejected.
  destruct b; intros H; try (injection H as <-; exact I);
    destruct (negb _); try discriminate;
    destruct (getProp "errors" _) as [errors|]; try discriminate;
    destruct (truthy errors); try discriminate; exact (Hlen errors H).
Qed.

Ltac throws_step :=
  first
    [ apply throwsOnly_bind; [|intros ?]
    | apply throwsOnly_ret
    | apply throwsOnly_gets
    | apply throwsOnly_modify
    | apply throwsOnly_request
    | apply throwsOnly_throw; simpl; solve [reflexivity | exact I]
    | apply throwsOnly_throw; eapply multiloginRejected_throws; eassumption
    | match goal with
      | |- throwsOnly _ (match ?x with _ => _ end) => destruct x eqn:?
      | |- throwsOnly _ (if ?b then _ else _) => destruct b eqn:?
      end ].

Lemma throwsOnly_verifyLogin (env : Env) (base tok : string) (lr : HTTPResponse) :
  throwsOnly plainOrAuthentication (verifyLogin env base tok lr).
Proof.
  unfold verifyLogin, getCookies, get, updateCookies, setSession.
  repeat throws_step.
Qed.

Lemma throwsOnly_submitLogin (env : Env) (base : string) (creds : Credentials) :
  throwsOnly plainOrAuthentication (submitLogin env base creds).
Proof.
  unfold submitLogin, get, post, getCookies, updateCookies.
  repeat throws_step.
Qed.

(** Whatever [authenticate] throws is an Authentication error. *)
Lemma authenticate_failure_kind (env : Env) (creds : Credentials)
      (w w' : World) (e : Thrown) :
  authenticate env creds w = (Throw e, w') -> errorType e = Some Authentication.
Proof.
  unfold authenticate, tryCatch. intros H.
  destruct (bind _ _ w) as [[sess|e0] w0] eqn:Hbody; [discriminate|].
  assert (He0 : plainOrAuthentication e0).
  { revert Hbody. apply throwsOnly_bind.
    - apply throwsOnly_submitLogin.
    - intros r. apply throwsOnly_verifyLogin. }
  unfold authenticateCatch in H.
  destruct e0 as [|name message st|message t emr cause]; simpl in *.
  - contradiction.
  - injection H as <- _. reflexivity.
  - injection H as <- _. simpl. congruence.
Qed.

Lemma authenticate_after_login (env : Env) (creds : Credentials) (w w1 : World)
      (tok : string) (lr : HTTPResponse) :
  submitLogin env (loginBaseUrl creds) creds w = (Ok (tok, lr), w1) ->
  authenticate env creds w =
  tryCatch (verifyLogin env (loginBaseUrl creds) tok lr) (authenticateCatch) w1.
Proof.
  intros H. unfold authenticate, tryCatch, bind. rewrite H. reflexivity.
Qed.

Lemma verifyLogin_redirected (env : Env) (base tok : string) (lr : HTTPResponse)
      (w1 : World) :
  redirectedToDashboard lr = true ->
  verifyLogin env base tok lr w1 =
  match fetch env (trace w1) (followUpCall base lr (cookieList w1)) with
  | FetchResponse r =>
      (Ok (establishedSession tok r w1),
       setSessionField (Some (establishedSession tok r w1))
         (settle env (followUpCall base lr (cookieList w1)) (FetchResponse r) w1))
  | FetchRejected name message st =>
      (Throw (if String.eqb name "AbortError"
              then PlainError "Error"
                     ("Request timeout after " ++ decimal defaultTimeout ++ "ms") None
              else PlainError name message st),
       settle env (followUpCall base lr (cookieList w1))
                       (FetchRejected name message st) w1)
  end.
Proof.
  unfold redirectedToDashboard. intros Hred.
  apply andb_prop in Hred. destruct Hred as [H302 Hfrag].
  unfold verifyLogin. rewrite H302, Hfrag.
  unfold followUpCall, cookieList, establishedSession.
  unfold bind, getCookies, gets, get, request, updateCookies, modify, setSession, ret.
  simpl.
  destruct (fetch env (trace w1) _) as [r|name message st]; simpl.
  - destruct (session w1); reflexivity.
  - destruct (String.eqb name "AbortError"); reflexivity.
Qed.

Lemma verifyLogin_not_redirected (env : Env) (base tok : string) (lr : HTTPResponse)
      (w1 : World) :
  redirectedToDashboard lr = false ->
  verifyLogin env base tok lr w1 =
  (Throw (authenticationError "WellSky authentication failed" (CauseResponse lr)), w1).
Proof.
  unfold redirectedToDashboard. intros Hred. unfold verifyLogin.
  destruct (status lr =? 302)%Z; [|reflexivity].
  simpl in Hred. rewrite Hred. reflexivity.
Qed.

(** C3 (as amended). Once the primary login submission has returned,
    [authenticate] succeeds exactly when that answer has status 302 with a
    [location] header containing [/dashboard] or [/live] and the follow-up
    GET of that location returns a response.  The session of a success
    holds the scraped token under ["csrf"] and is the one the manager keeps.
    Every failure, a different status or a location without the fragment
    included, is an Authentication error. *)
Theorem authenticate_succeeds_iff (env : Env) (creds : Credentials) (w w1 : World)
        (tok : string) (lr : HTTPResponse) :
  submitLogin env (loginBaseUrl creds) creds w = (Ok (tok, lr), w1) ->
  ((exists sess w2, authenticate env creds w = (Ok sess, w2)) <->
   (redirectedToDashboard lr = true /\
    exists r, fetch env (trace w1)
                    (followUpCall (loginBaseUrl creds) lr (cookieList w1))
              = FetchResponse r)) /\
  (forall sess w2,
     authenticate env creds w = (Ok sess, w2) ->
     tokens sess = Some {[ "csrf" := tok ]} /\ session w2 = Some sess) /\
  (forall e w2,
     authenticate env creds w = (Throw e, w2) -> errorType e = Some Authentication).
Proof.
  intros Hsub. split; [|split].
  - rewrite (authenticate_after_login env creds w w1 tok lr Hsub).
    unfold tryCatch.
    destruct (redirectedToDashboard lr) eqn:Hred.
    + rewrite (verifyLogin_redirected env _ tok lr w1 Hred).
      destruct (fetch env (trace w1) _) as [r|name message st].
      * split; [intros _; split; eauto | intros _; eauto].
      * split.
        -- intros (sess & w2 & H). unfold authenticateCatch in H.
           destruct (String.eqb name "AbortError"); discriminate.
        -- intros (_ & r & H). discriminate.
    + rewrite (verifyLogin_not_redirected env _ tok lr w1 Hred).
      split.
      * intros (sess & w2 & H). discriminate.
      * intros (H & _). discriminate.
  - intros sess w2.
    rewrite (authenticate_after_login env creds w w1 tok lr Hsub).
    unfold tryCatch.
    destruct (redirectedToDashboard lr) eqn:Hred.
    + rewrite (verifyLogin_redirected env _ tok lr w1 Hred).
      destruct (fetch env (trace w1) _) as [r|name message st].
      * intros H. injection H as <- <-. split; reflexivity.
      * unfold authenticateCatch.
        destruct (String.eqb name "AbortError"); discriminate.
    + rewrite (verifyLogin_not_redirected env _ tok lr w1 Hred). discriminate.
  - intros e w2. apply authenticate_failure_kind.
Qed.

Lemma authenticate_succeeds_iff_witness :
  exists sess w2,
    authenticate acceptingVendor sampleCredentials (freshWorld 1700000000000)
    = (Ok sess, w2).
Proof.
  destruct (authenticate_succeeds_iff
              acceptingVendor sampleCredentials (freshWorld 1700000000000)
              (snd (submitLogin acceptingVendor (loginBaseUrl sampleCredentials)
                                sampleCredentials (freshWorld 1700000000000)))
              "tok1"
              (toResponse {| raw_status := 302; raw_statusText := "Found";
                             raw_headers := {[ "location" := "/dashboard/live/" ]};
                             raw_setCookie := ["sessionid=s1; Path=/; HttpOnly"];
                             raw_body := JStr EmptyString |})
              eq_refl) as [Hiff _].
  apply Hiff. split; [reflexivity|]. eexists. reflexivity.
Defined.

Example authenticate_accepting_run :
  let outcome := authenticate acceptingVendor sampleCredentials (freshWorld 1700000000000) in
  fst outcome = Ok {| cookies := ["sessionid=s1"];
                      tokens := Some {[ "csrf" := "tok1" ]}; expiresAt := None |} /\
  methods (trace (snd outcome)) = ["GET"; "POST"; "POST"; "GET"] /\
  statuses (trace (snd outcome)) = [200; 200; 302; 200]%Z.
Proof. repeat split. Qed.

(** C3, the claim as stated fails in two ways.  A login submission
    answered with the redirect status 301 and a [Location] of
    [/dashboard/live/] does not log in; and one answered with 302 and the
    same location does not either when the follow-up call is refused. *)
Lemma authenticate_fails_despite_redirect :
  (let env := scripted [textResponse 200 "OK" loginPage; textResponse 200 "OK" "ok";
                        redirectResponse 301 "/dashboard/live/" [];
                        textResponse 200 "OK" "dashboard"] in
   statuses (trace (snd (submitLogin env baseUrlDefault sampleCredentials (freshWorld 0))))
     = [200; 200; 301]%Z /\
   (exists tok lr,
      fst (submitLogin env baseUrlDefault sampleCredentials (freshWorld 0)) = Ok (tok, lr) /\
      headers lr !! "location" = Some "/dashboard/live/") /\
   exists e, fst (authenticate env sampleCredentials (freshWorld 0)) = Throw e) /\
  (let env := scripted [textResponse 200 "OK" loginPage; textResponse 200 "OK" "ok";
                        redirectResponse 302 "/dashboard/live/" []] in
   statuses (trace (snd (submitLogin env baseUrlDefault sampleCredentials (freshWorld 0))))
     = [200; 200; 302]%Z /\
   (exists tok lr,
      fst (submitLogin env baseUrlDefault sampleCredentials (freshWorld 0)) = Ok (tok, lr) /\
      headers lr !! "location" = Some "/dashboard/live/") /\
   exists e, fst (authenticate env sampleCredentials (freshWorld 0)) = Throw e).
Proof.
  split; (split; [reflexivity|]); split;
    try (eexists; eexists; split; reflexivity); eexists; reflexivity.
Qed.

(* ===================================================================== *)
(** ** Session persistence *)
(* ===================================================================== *)

Lemma nonEmpty_app_r (a b : string) : nonEmpty b = true -> nonEmpty (a ++ b) = true.
Proof. destruct a; simpl; auto. Qed.

Lemma toISOString_nonEmpty (ms : Z) : nonEmpty (toISOString ms) = true.
Proof.
  unfold toISOString. destruct (civilFromDays _) as [[y m] d].
  apply nonEmpty_app_r. reflexivity.
Qed.

Lemma saveSession_writes (env : Env) (w : World) (s : Session) (path : string)
      (data : Json) :
  session w = Some s ->
  sessionFilePath w = Some path ->
  path <> EmptyString ->
  canWrite env path = true ->
  sessionData s = Ok data ->
  saveSession env w =
  (Ok tt, setFiles (<[path := Readable (JSON_stringify (engine env) data 2)]> (files w)) w).
Proof.
  intros Hs Hp Hne Hw Hdata. unfold saveSession. rewrite Hs, Hp.
  apply nonEmpty_true in Hne. rewrite Hne.
  unfold tryCatch. rewrite Hdata. unfold writeFileSync. rewrite Hw. reflexivity.
Qed.

Lemma loadSession_total (env : Env) (w : World) :
  exists r w', loadSession env w = (Ok r, w').
Proof.
  unfold loadSession. destruct (sessionFilePath w) as [path|]; [|eauto].
  destruct (nonEmpty path && existsSync path w); [|eauto].
  unfold tryCatch.
  match goal with |- context [match ?m w with _ => _ end] => destruct (m w) as [[r|e] w'] end;
    eauto.
Qed.

Lemma loadSession_unusable (env : Env) (w : World) (path : string) :
  sessionFilePath w = Some path ->
  unusable (engine env) (files w !! path) = true ->
  loadSession env w = (Ok None, w).
Proof.
  intros Hp Hbad. unfold loadSession. rewrite Hp.
  destruct (nonEmpty path); [|reflexivity]. simpl.
  unfold existsSync, tryCatch, readSession, bind, readFileSync.
  destruct (files w !! path) as [[|text]|]; try reflexivity.
  simpl in Hbad.
  destruct (parseJson (engine env) text) as [[| | | | |]|]; try discriminate; reflexivity.
Qed.

(** What [loadSession] makes of a session file that holds a JSON value
    other than [null]. *)
Lemma loadSession_reads (env : Env) (w : World) (path text : string) (data : Json)
      (expiry : option JsDate) (s : Session) :
  sessionFilePath w = Some path ->
  path <> EmptyString ->
  files w !! path = Some (Readable text) ->
  parseJson (engine env) text = Some data ->
  data <> JNull ->
  expiresAtProp env data = Ok expiry ->
  s = {| cookies := cookiesProp data; tokens := Some (tokensProp data);
         expiresAt := expiry |} ->
  loadSession env w =
  if expiredAt (now w) s then (Ok None, w)
  else (Ok (Some s), setSessionField (Some s) w).
Proof.
  intros Hp Hne Hfile Hparse Hnull Hexpiry ->. unfold loadSession. rewrite Hp.
  apply nonEmpty_true in Hne. rewrite Hne. unfold existsSync. rewrite Hfile. simpl.
  unfold tryCatch, readSession, bind, readFileSync. rewrite Hfile.
  rewrite Hparse.
  destruct data; try contradiction; rewrite Hexpiry;
    unfold ret, isExpiredForSession, gets;
    match goal with |- context [expiredAt ?t ?s] => destruct (expiredAt t s) end;
    reflexivity.
Qed.

Lemma asStrings_cookies (cs : list string) : asStrings (List.map JStr cs) = Some cs.
Proof. induction cs as [|c cs IH]; simpl; [reflexivity|]. rewrite IH. reflexivity. Qed.

Lemma asStringMap_tokens (l : list (string * string)) :
  asStringMap (List.map (fun kv => (fst kv, JStr (snd kv))) l) = Some (list_to_map l).
Proof.
  induction l as [|[k v] l IH]; simpl; [reflexivity|]. rewrite IH. reflexivity.
Qed.

(** The property reads of [loadSession] on the document [saveSession]
    builds: the cookies, the tokens (none reads as the empty record) and,
    where the engine reads the date back, the expiry. *)
Lemma sessionData_reads (env : Env) (s : Session) (data : Json) :
  sessionData s = Ok data ->
  (forall ms, expiresAt s = Some (ValidDate ms) -> readsBackDate (engine env) ms) ->
  data <> JNull /\
  cookiesProp data = cookies s /\
  tokensProp data = default ∅ (tokens s) /\
  expiresAtProp env data = Ok (expiresAt s).
Proof.
  intros Hdata Hdate. unfold sessionData in Hdata.
  assert (Hcookies : forall rest,
            cookiesProp (JObj (("cookies", cookiesJson (cookies s)) :: rest)) = cookies s).
  { intros rest. unfold cookiesProp, cookiesJson. simpl.
    rewrite asStrings_cookies. reflexivity. }
  assert (Htokens : forall t rest,
            tokensProp (JObj (("cookies", cookiesJson (cookies s)) ::
                              ("tokens", tokensJson t) :: rest)) = t).
  { intros t rest. unfold tokensProp, tokensJson. simpl.
    rewrite asStringMap_tokens, list_to_map_to_list. reflexivity. }
  destruct (expiresAt s) as [[ms|]|] eqn:He; try discriminate;
    injection Hdata as <-; (split; [discriminate|]); (split; [apply Hcookies|]);
    destruct (tokens s) as [t|]; simpl; (split; [first [apply Htokens | reflexivity]|]);
    unfold expiresAtProp; simpl; rewrite ?toISOString_nonEmpty; simpl;
    rewrite ?(Hdate ms eq_refl); reflexivity.
Qed.

(** C7 (as amended). A session with no expiry, or with a valid one, is
    saved to a writable session file and loaded again, on an engine that
    reads back the document it printed and the ISO text of the expiry.  If
    the session has not expired when it is loaded, the session that comes back
    has the same cookies, the same tokens and, at every instant, the same
    expiry verdict, and becomes the manager's session; if it has expired,
    [null] comes back and the manager keeps the session it held.  A session
    file that is missing, unreadable, not JSON or [null] loads as [null]
    and changes nothing; [loadSession] never throws. *)
Theorem saveSession_loadSession_roundtrip (env : Env) :
  (forall (w : World) (s : Session) (path : string) (data : Json),
     session w = Some s ->
     sessionFilePath w = Some path ->
     path <> EmptyString ->
     canWrite env path = true ->
     sessionData s = Ok data ->
     readsBack (engine env) data ->
     (forall ms, expiresAt s = Some (ValidDate ms) -> readsBackDate (engine env) ms) ->
     exists r w',
       (saveSession env ;;; loadSession env) w = (Ok r, w') /\
       if expiredAt (now w') s then r = None /\ session w' = Some s
       else exists s',
              r = Some s' /\ session w' = Some s' /\
              cookies s' = cookies s /\
              tokensOf (Some s') = tokensOf (Some s) /\
              (forall t, isExpiredAt t (Some s') = isExpiredAt t (Some s))) /\
  (forall (w : World) (path : string),
     sessionFilePath w = Some path ->
     unusable (engine env) (files w !! path) = true ->
     loadSession env w = (Ok None, w)) /\
  (forall w : World, exists r w', loadSession env w = (Ok r, w')).
Proof.
  split; [|split; [apply loadSession_unusable | apply loadSession_total]].
  intros w s path data Hs Hp Hne Hw Hdata Hjson Hdate.
  destruct (sessionData_reads env s data Hdata Hdate) as (Hnull & Hc & Ht & He).
  pose (s' := {| cookies := cookiesProp data; tokens := Some (tokensProp data);
                 expiresAt := expiresAt s |}).
  assert (Hverdict : forall t, expiredAt t s' = expiredAt t s) by reflexivity.
  assert (Hload :
    (saveSession env ;;; loadSession env) w =
    if expiredAt (now w) s
    then (Ok None, setFiles (<[path := Readable (JSON_stringify (engine env) data 2)]>
                               (files w)) w)
    else (Ok (Some s'),
          setSessionField (Some s')
            (setFiles (<[path := Readable (JSON_stringify (engine env) data 2)]>
                         (files w)) w))).
  { erewrite bind_ok; [|apply (saveSession_writes env w s path data); assumption].
    rewrite (loadSession_reads env
               (setFiles (<[path := Readable (JSON_stringify (engine env) data 2)]>
                            (files w)) w)
               path (JSON_stringify (engine env) data 2) data (expiresAt s) s' Hp Hne);
      try assumption; try reflexivity.
    simpl. apply lookup_insert_eq. }
  rewrite Hload. destruct (expiredAt (now w) s) eqn:Hexpired.
  - eexists. eexists. split; [reflexivity|]. simpl now. rewrite Hexpired.
    split; [reflexivity | exact Hs].
  - eexists. eexists. split; [reflexivity|]. simpl now. rewrite Hexpired.
    exists s'.
    split; [reflexivity|]. split; [reflexivity|]. split; [exact Hc|].
    split; [simpl; exact Ht|]. intros t. simpl. apply Hverdict.
Qed.

Lemma saveSession_loadSession_roundtrip_witness :
  exists s' w',
    (saveSession (scripted []) ;;; loadSession (scripted []))
      (holding (expiringSession 1766361600123) 1700000000000)
    = (Ok (Some s'), w') /\
    session w' = Some s' /\
    cookies s' = cookies (expiringSession 1766361600123) /\
    tokensOf (Some s') = tokensOf (Some (expiringSession 1766361600123)) /\
    (forall t, isExpiredAt t (Some s') =
               isExpiredAt t (Some (expiringSession 1766361600123))).
Proof.
  destruct (proj1 (saveSession_loadSession_roundtrip (scripted []))
                  (holding (expiringSession 1766361600123) 1700000000000)
                  (expiringSession 1766361600123) sessionFile _
                  eq_refl eq_refl ltac:(discriminate) eq_refl eq_refl
                  ltac:(vm_compute; reflexivity)
                  ltac:(intros ms H; injection H as <-; vm_compute; reflexivity))
    as (r & w' & Hrun & Hrest).
  assert (Hw : w' =
               snd ((saveSession (scripted []) ;;; loadSession (scripted []))
                      (holding (expiringSession 1766361600123) 1700000000000)))
    by (rewrite Hrun; reflexivity).
  assert (Hnow : expiredAt (now w') (expiringSession 1766361600123) = false)
    by (rewrite Hw; vm_compute; reflexivity).
  rewrite Hnow in Hrest.
  destruct Hrest as (s' & -> & Hrest).
  exists s', w'. split; [exact Hrun | exact Hrest].
Defined.

(** C7, the claim as stated fails in two places.  A session whose expiry
    has passed is saved but loads as [null], so nothing with the original's
    verdict comes back; and a session file holding a JSON value with none
    of the session properties (the text of an empty object or of a number)
    loads as an empty session, not as [null]. *)
Lemma loadSession_expired_or_empty :
  (let w := holding (expiringSession 1000) 2000 in
   isExpiredAt 2000 (session w) = true /\
   fst ((saveSession (scripted []) ;;; loadSession (scripted [])) w) = Ok None /\
   isExpiredAt 2000 None = false) /\
  (forall text,
     List.In text ["{}"; "7"] ->
     let w := {| session := None; sessionFilePath := Some sessionFile;
                 files := {[ sessionFile := Readable text ]};
                 now := 2000; trace := [] |} in
     fst (loadSession (scripted []) w) =
     Ok (Some {| cookies := []; tokens := Some ∅; expiresAt := None |})).
Proof.
  split; [repeat split|].
  intros text [<-|[<-|[]]]; vm_compute; reflexivity.
Qed.

(* ===================================================================== *)
(** ** Further properties of the session manager *)
(* ===================================================================== *)

Section CookieStability.

Lemma mapSet_fresh (k v : string) (m : list (string * string)) :
  ~ List.In k (keys m) -> mapSet k v m = (m ++ [(k, v)])%list.
Proof.
  unfold keys. induction m as [|[k' v'] m IH]; simpl; intros Hfresh; [reflexivity|].
  destruct (String.eqb k k') eqn:Heq.
  - apply String.eqb_eq in Heq. subst. tauto.
  - rewrite IH by tauto. reflexivity.
Qed.

Lemma mapSet_keys_present (k v : string) (m : list (string * string)) :
  List.In k (keys m) -> keys (mapSet k v m) = keys m.
Proof.
  unfold keys. induction m as [|[k' v'] m IH]; simpl; intros Hin; [tauto|].
  destruct (String.eqb k k') eqn:Heq; simpl.
  - apply String.eqb_eq in Heq. subst. reflexivity.
  - f_equal. apply IH. destruct Hin as [->|Hin]; [|assumption].
    rewrite String.eqb_refl in Heq. discriminate.
Qed.

(** Rebuilding the map from its own values gives the map back. *)
Lemma rebuild_wellFiled (m2 : list (string * string)) :
  forall m1, wellFiled (m1 ++ m2) ->
             fold_left setCookie (List.map snd m2) m1 = (m1 ++ m2)%list.
Proof.
  induction m2 as [|[k v] m2 IH]; intros m1 Hw; simpl.
  - symmetry. apply List.app_nil_r.
  - assert (Hkv : cookieName v = k /\ k <> EmptyString /\ ~ List.In k (keys m1)).
    { destruct Hw as [Hnd Hall].
      apply Forall_app in Hall. destruct Hall as [_ Hall].
      apply Forall_cons in Hall. destruct Hall as [[Hname Hne] _]. simpl in *.
      repeat split; try assumption.
      rewrite List.map_app in Hnd. simpl in Hnd.
      apply List.NoDup_remove_2 in Hnd. intros Hin. apply Hnd.
      apply List.in_or_app. left. exact Hin. }
    destruct Hkv as (Hname & Hne & Hfresh).
    unfold setCookie at 2. rewrite Hname.
    apply nonEmpty_true in Hne. rewrite Hne.
    rewrite (mapSet_fresh k v m1 Hfresh).
    rewrite IH.
    + rewrite <- List.app_assoc. reflexivity.
    + rewrite <- List.app_assoc. exact Hw.
Qed.

Lemma keys_setCookie_mono (m : list (string * string)) (c x : string) :
  List.In x (keys m) -> List.In x (keys (setCookie m c)).
Proof.
  intros Hin. unfold setCookie. destruct (nonEmpty (cookieName c)); [|assumption].
  unfold keys. apply keys_mapSet. right. exact Hin.
Qed.

Lemma keys_fold_mono (l : list string) :
  forall m x, List.In x (keys m) -> List.In x (keys (fold_left setCookie l m)).
Proof.
  induction l as [|c l IH]; simpl; intros m x Hin; [assumption|].
  apply IH, keys_setCookie_mono, Hin.
Qed.

Lemma keys_fold_covers (l : list string) :
  forall m c, List.In c l -> nonEmpty (cookieName c) = true ->
              List.In (cookieName c) (keys (fold_left setCookie l m)).
Proof.
  induction l as [|c0 l IH]; simpl; intros m c Hin Hne; [tauto|].
  destruct Hin as [->|Hin].
  - apply keys_fold_mono. unfold setCookie. rewrite Hne.
    unfold keys. apply keys_mapSet. left. reflexivity.
  - apply IH; assumption.
Qed.

Lemma keys_fold_present (l : list string) :
  forall m,
    (forall c, List.In c l -> nonEmpty (cookieName c) = true ->
               List.In (cookieName c) (keys m)) ->
    keys (fold_left setCookie l m) = keys m.
Proof.
  induction l as [|c l IH]; simpl; intros m Hcov; [reflexivity|].
  assert (Hstep : keys (setCookie m c) = keys m).
  { unfold setCookie. destruct (nonEmpty (cookieName c)) eqn:Hne; [|reflexivity].
    apply mapSet_keys_present. apply Hcov; [left; reflexivity | assumption]. }
  rewrite IH; [exact Hstep|].
  intros c' Hin Hne. rewrite Hstep. apply Hcov; [right; assumption | assumption].
Qed.

Lemma assoc_not_key (n : string) (m : list (string * string)) :
  ~ List.In n (keys m) -> assoc n m = None.
Proof.
  unfold assoc, keys. induction m as [|[k v] m IH]; simpl; intros Hn; [reflexivity|].
  destruct (String.eqb k n) eqn:Heq.
  - apply String.eqb_eq in Heq. subst. tauto.
  - apply IH. tauto.
Qed.

(** Two maps with the same keys in the same order, none twice, and the
    same value under every key are the same map. *)
Lemma assoc_ext (a : list (string * string)) :
  forall b, keys a = keys b -> List.NoDup (keys a) ->
            (forall n, assoc n a = assoc n b) -> a = b.
Proof.
  unfold keys.
  induction a as [|[k v] a IH]; intros [|[k' v'] b] Hkeys Hnd Hassoc;
    simpl in *; try discriminate; [reflexivity|].
  injection Hkeys as <- Hkeys.
  apply List.NoDup_cons_iff in Hnd. destruct Hnd as [Hnotin Hnd].
  assert (Hv : v = v').
  { specialize (Hassoc k). unfold assoc in Hassoc. simpl in Hassoc.
    rewrite String.eqb_refl in Hassoc. simpl in Hassoc. congruence. }
  subst v'. f_equal. apply IH; try assumption.
  intros n. destruct (String.eqb k n) eqn:Heq.
  - apply String.eqb_eq in Heq. subst n.
    rewrite (assoc_not_key k a Hnotin).
    rewrite (assoc_not_key k b) by (unfold keys; rewrite <- Hkeys; exact Hnotin).
    reflexivity.
  - specialize (Hassoc n). unfold assoc in Hassoc |- *. simpl in Hassoc.
    rewrite Heq in Hassoc. exact Hassoc.
Qed.

Lemma assoc_empty_name (m : list (string * string)) :
  wellFiled m -> assoc EmptyString m = None.
Proof.
  intros [_ Hall]. apply assoc_not_key. unfold keys. intros Hin.
  apply List.in_map_iff in Hin. destruct Hin as ([k v] & Hk & Hin). simpl in Hk.
  rewrite Forall_forall in Hall.
  apply list_elem_of_In in Hin. destruct (Hall _ Hin) as [_ Hne]. simpl in Hne.
  congruence.
Qed.

(** Writing the same cookies a second time leaves the map as it is. *)
Lemma fold_setCookie_twice (l : list string) (m0 : list (string * string)) :
  wellFiled m0 ->
  fold_left setCookie l (fold_left setCookie l m0) = fold_left setCookie l m0.
Proof.
  intros Hw0.
  assert (Hw1 : wellFiled (fold_left setCookie l m0)) by (apply wellFiled_fold; exact Hw0).
  assert (Hw2 : wellFiled (fold_left setCookie l (fold_left setCookie l m0)))
    by (apply wellFiled_fold; exact Hw1).
  apply assoc_ext.
  - apply keys_fold_present. intros c Hin Hne. apply keys_fold_covers; assumption.
  - assert (Hk : keys (fold_left setCookie l (fold_left setCookie l m0))
                 = keys (fold_left setCookie l m0))
      by (apply keys_fold_present; intros c Hin Hne; apply keys_fold_covers; assumption).
    unfold keys in *. rewrite Hk. exact (proj1 Hw1).
  - intros n. destruct (String.eqb n EmptyString) eqn:Hn.
    + apply String.eqb_eq in Hn. subst n. rewrite !assoc_empty_name by assumption.
      reflexivity.
    + apply String.eqb_neq in Hn. rewrite !assoc_fold by assumption.
      destruct (lastNamed n l); reflexivity.
Qed.

Lemma mergeCookies_twice (old new : list string) :
  mergeCookies (mergeCookies old new) new = mergeCookies old new.
Proof.
  unfold mergeCookies at 1 2.
  set (m := fold_left setCookie new (fold_left setCookie old [])).
  assert (Hw : wellFiled m) by (apply wellFiled_fold, wellFiled_fold, wellFiled_nil).
  rewrite (rebuild_wellFiled m [] Hw). simpl.
  unfold m at 1. rewrite fold_setCookie_twice; [reflexivity|].
  apply wellFiled_fold, wellFiled_nil.
Qed.

End CookieStability.

(** X1. On a manager that holds a session, an [updateCookies] call repeated
    with the same list changes nothing the second time: the cookie list
    after two identical updates is the list after one, entry for entry and
    in the same order. *)
Theorem updateCookies_repeat (w : World) (s : Session) (u : list string) :
  session w = Some s ->
  cookieList (afterUpdates [u; u] w) = cookieList (afterUpdates [u] w).
Proof.
  intros Hs.
  change (afterUpdates [u; u] w) with (snd (updateCookies u (snd (updateCookies u w)))).
  change (afterUpdates [u] w) with (snd (updateCookies u w)).
  unfold cookieList.
  rewrite (updateCookies_existing u _ _ (updateCookies_existing u w s Hs)).
  rewrite (updateCookies_existing u w s Hs). simpl.
  apply mergeCookies_twice.
Qed.

Lemma updateCookies_repeat_witness :
  cookieList (afterUpdates [["b=9"; "a=3"; "c=1"]; ["b=9"; "a=3"; "c=1"]]
                           (loggedIn sampleSession 0)) =
  cookieList (afterUpdates [["b=9"; "a=3"; "c=1"]] (loggedIn sampleSession 0)).
Proof.
  exact (updateCookies_repeat (loggedIn sampleSession 0) sampleSession
                              ["b=9"; "a=3"; "c=1"] eq_refl).
Defined.

Section CookieOrder.

Lemma filter_swap (p q : string -> bool) (d : list string) :
  List.filter p (List.filter q d) = List.filter q (List.filter p d).
Proof.
  induction d as [|y d IH]; simpl; [reflexivity|].
  destruct (p y) eqn:Hy; destruct (q y) eqn:Hq; simpl; rewrite ?Hy, ?Hq, IH; reflexivity.
Qed.

Lemma filter_without (p : string -> bool) (x : string) (d : list string) :
  p x = false ->
  List.filter p (List.filter (fun y => negb (String.eqb x y)) d) = List.filter p d.
Proof.
  intros Hp. induction d as [|y d IH]; simpl; [reflexivity|].
  destruct (String.eqb x y) eqn:Hxy; simpl.
  - apply String.eqb_eq in Hxy. subst y. rewrite Hp. exact IH.
  - rewrite IH. reflexivity.
Qed.

Lemma filter_distinct (p : string -> bool) (l : list string) :
  List.filter p (distinct l) = distinct (List.filter p l).
Proof.
  induction l as [|x l IH]; simpl; [reflexivity|].
  destruct (p x) eqn:Hp; simpl.
  - f_equal. rewrite <- IH. apply filter_swap.
  - rewrite <- IH. apply filter_without. exact Hp.
Qed.

Lemma existsb_eqb_In (n : string) (l : list string) :
  existsb (String.eqb n) l = true <-> List.In n l.
Proof.
  rewrite List.existsb_exists. split.
  - intros (x & Hin & Heq). apply String.eqb_eq in Heq. subst. exact Hin.
  - intros Hin. exists n. split; [exact Hin | apply String.eqb_refl].
Qed.

Lemma newNames_held (held : list string) (c : string) (u : list string) :
  nonEmpty (cookieName c) = false \/ List.In (cookieName c) held ->
  newNames held (c :: u) = newNames held u.
Proof.
  intros H. unfold newNames. simpl.
  destruct H as [H|H]; [rewrite H; reflexivity|].
  apply existsb_eqb_In in H. rewrite H, Bool.andb_false_r. reflexivity.
Qed.

Lemma newNames_fresh (held : list string) (c : string) (u : list string) :
  nonEmpty (cookieName c) = true ->
  ~ List.In (cookieName c) held ->
  newNames held (c :: u) = cookieName c :: newNames (held ++ [cookieName c]) u.
Proof.
  intros Hne Hout. unfold newNames. simpl.
  assert (Hno : existsb (String.eqb (cookieName c)) held = false).
  { destruct (existsb _ held) eqn:He; [|reflexivity].
    apply existsb_eqb_In in He. contradiction. }
  rewrite Hne, Hno. simpl. f_equal.
  rewrite filter_distinct. f_equal.
  induction (List.map cookieName u) as [|y l IH]; simpl; [reflexivity|].
  rewrite List.existsb_app. simpl. rewrite Bool.orb_false_r.
  rewrite (String.eqb_sym y (cookieName c)).
  destruct (nonEmpty y); simpl; [|exact IH].
  destruct (existsb (String.eqb y) held); simpl; [exact IH|].
  destruct (String.eqb (cookieName c) y); simpl; rewrite IH; reflexivity.
Qed.

(** The keys of the map after the second loop of [updateCookies]: those
    it had, in their places, then the new names in the order in which the
    incoming list first shows them. *)
Lemma keys_fold_newNames (u : list string) :
  forall m, keys (fold_left setCookie u m) = (keys m ++ newNames (keys m) u)%list.
Proof.
  induction u as [|c u IH]; simpl; intros m.
  - symmetry. apply List.app_nil_r.
  - rewrite IH. unfold setCookie.
    destruct (nonEmpty (cookieName c)) eqn:Hne.
    + destruct (List.in_dec String.string_dec (cookieName c) (keys m)) as [Hin|Hout].
      * rewrite (mapSet_keys_present _ _ _ Hin).
        rewrite (newNames_held (keys m) c u) by (right; exact Hin). reflexivity.
      * rewrite (mapSet_fresh _ _ _ Hout).
        rewrite (newNames_fresh (keys m) c u Hne Hout).
        unfold keys. rewrite List.map_app. simpl.
        rewrite <- List.app_assoc. reflexivity.
    + rewrite (newNames_held (keys m) c u) by (left; exact Hne). reflexivity.
Qed.

Lemma filed_wellFiled (l : list string) :
  List.NoDup (List.map cookieName l) ->
  Forall (fun c => cookieName c <> EmptyString) l ->
  wellFiled (List.map (fun c => (cookieName c, c)) l).
Proof.
  intros Hnd Hne. split.
  - rewrite List.map_map. simpl. exact Hnd.
  - induction Hne as [|c l Hc _ IH]; simpl; constructor.
    + simpl. split; [reflexivity | exact Hc].
    + apply IH. simpl in Hnd. apply List.NoDup_cons_iff in Hnd. tauto.
Qed.

Lemma fold_filed (l : list string) :
  List.NoDup (List.map cookieName l) ->
  Forall (fun c => cookieName c <> EmptyString) l ->
  fold_left setCookie l [] = List.map (fun c => (cookieName c, c)) l.
Proof.
  intros Hnd Hne.
  pose proof (rebuild_wellFiled (List.map (fun c => (cookieName c, c)) l) []
                                (filed_wellFiled l Hnd Hne)) as H.
  rewrite List.map_map in H. simpl in H. rewrite List.map_id in H. exact H.
Qed.

End CookieOrder.

(** X2. [updateCookies] keeps the cookies already held in their places: on
    a session whose list has one entry per non-empty name, the names after
    an update are the names before it, in the same order, followed by the
    names the incoming cookies bring that were not held: the non-empty
    names of the incoming list that are not among the names before, each
    once, in the order in which the incoming list first shows them. *)
Theorem updateCookies_keeps_order (w : World) (s : Session) (u : list string) :
  session w = Some s ->
  List.NoDup (List.map cookieName (cookies s)) ->
  Forall (fun c => cookieName c <> EmptyString) (cookies s) ->
  List.map cookieName (cookieList (snd (updateCookies u w))) =
  (List.map cookieName (cookies s) ++ newNames (List.map cookieName (cookies s)) u)%list.
Proof.
  intros Hs Hnd Hne. unfold cookieList.
  rewrite (updateCookies_existing u w s Hs). simpl.
  unfold mergeCookies. rewrite (fold_filed (cookies s) Hnd Hne).
  set (m0 := List.map (fun c => (cookieName c, c)) (cookies s)).
  assert (Hw0 : wellFiled m0) by (apply filed_wellFiled; assumption).
  assert (Hw : wellFiled (fold_left setCookie u m0)) by (apply wellFiled_fold; exact Hw0).
  rewrite (names_of_wellFiled _ Hw).
  assert (Hk0 : keys m0 = List.map cookieName (cookies s)).
  { unfold keys, m0. rewrite List.map_map. reflexivity. }
  rewrite <- Hk0. apply keys_fold_newNames.
Qed.

Lemma updateCookies_keeps_order_witness :
  List.map cookieName
    (cookieList (snd (updateCookies ["new=1"; "csrftoken=tok9"; "=x"; "other=2"; "new=3"]
                                    (loggedIn sampleSession 0))))
  = ["sessionid"; "csrftoken"; "new"; "other"].
Proof.
  rewrite (updateCookies_keeps_order (loggedIn sampleSession 0) sampleSession
             ["new=1"; "csrftoken=tok9"; "=x"; "other=2"; "new=3"] eq_refl).
  - reflexivity.
  - repeat constructor; simpl; intuition discriminate.
  - repeat constructor; discriminate.
Defined.

(** X3. [updateTokens] lays the incoming tokens over the ones held: a key
    of the incoming map reads back with the incoming value, every other key
    reads back as before; the cookies and the expiry verdict are untouched,
    and the manager holds a session afterwards even if it held none. *)
Theorem updateTokens_overlay (w : World) (incoming : gmap string string) :
  (forall k, tokensOf (session (snd (updateTokens incoming w))) !! k =
             match incoming !! k with
             | Some v => Some v
             | None => tokensOf (session w) !! k
             end) /\
  cookieList (snd (updateTokens incoming w)) = cookieList w /\
  (forall t, isExpiredAt t (session (snd (updateTokens incoming w)))
             = isExpiredAt t (session w)) /\
  session (snd (updateTokens incoming w)) <> None.
Proof.
  unfold updateTokens, modify, cookieList. simpl.
  destruct (session w) as [s|] eqn:Hs; simpl.
  - repeat split; try discriminate.
    intros k. rewrite lookup_union.
    destruct (incoming !! k), (default ∅ (tokens s) !! k); reflexivity.
  - repeat split; try discriminate.
    intros k. rewrite lookup_empty. destruct (incoming !! k); reflexivity.
Qed.

(** X4. [saveSession] never throws and touches nothing but the session
    file: the session, the path, the clock and the network history are as
    before, every other file is as before, and without a session nothing is
    written at all. *)
Theorem saveSession_silent (env : Env) (w : World) :
  exists w',
    saveSession env w = (Ok tt, w') /\
    session w' = session w /\ sessionFilePath w' = sessionFilePath w /\
    now w' = now w /\ trace w' = trace w /\
    (forall p, sessionFilePath w <> Some p -> files w' !! p = files w !! p) /\
    (session w = None -> files w' = files w).
Proof.
  unfold saveSession.
  destruct (session w) as [s|] eqn:Hs.
  2:{ exists w. repeat split; auto. }
  destruct (sessionFilePath w) as [path|] eqn:Hp.
  2:{ exists w. repeat split; auto; discriminate. }
  destruct (nonEmpty path).
  2:{ exists w. repeat split; auto; discriminate. }
  unfold tryCatch.
  destruct (sessionData s) as [data|e].
  - unfold writeFileSync. destruct (canWrite env path).
    + eexists. split; [reflexivity|]. simpl. repeat split; auto; try discriminate.
      intros p Hne. apply lookup_insert_ne. congruence.
    + exists w. repeat split; auto; discriminate.
  - exists w. repeat split; auto; discriminate.
Qed.

Lemma loadSession_unreadable_expiry (env : Env) (w : World) (path text : string)
      (data : Json) (e : Thrown) :
  sessionFilePath w = Some path ->
  path <> EmptyString ->
  files w !! path = Some (Readable text) ->
  parseJson (engine env) text = Some data ->
  expiresAtProp env data = Throw e ->
  loadSession env w = (Ok None, w).
Proof.
  intros Hp Hne Hfile Hparse Hexpiry. unfold loadSession. rewrite Hp.
  apply nonEmpty_true in Hne. rewrite Hne. unfold existsSync. rewrite Hfile. simpl.
  unfold tryCatch, readSession, bind, readFileSync. rewrite Hfile.
  rewrite Hparse.
  destruct data; try reflexivity; rewrite Hexpiry; reflexivity.
Qed.

(** X5. What [loadSession] returns: never a thrown value; [null] with the
    world as it was; or a session read from the JSON value the session
    file holds (absent cookies read as the empty list, absent tokens as
    the empty record), which is not expired at the instant of loading and
    has become the manager's session, nothing else having changed. *)
Theorem loadSession_result (env : Env) (w : World) :
  match loadSession env w with
  | (Throw _, _) => False
  | (Ok None, w') => w' = w
  | (Ok (Some s), w') =>
      w' = setSessionField (Some s) w /\
      expiredAt (now w) s = false /\
      exists path text data,
        sessionFilePath w = Some path /\
        files w !! path = Some (Readable text) /\
        parseJson (engine env) text = Some data /\
        cookies s = cookiesProp data /\ tokens s = Some (tokensProp data) /\
        expiresAtProp env data = Ok (expiresAt s) /\
        (getProp "cookies" data = None -> cookies s = []) /\
        (getProp "tokens" data = None -> tokens s = Some ∅)
  end.
Proof.
  destruct (sessionFilePath w) as [path|] eqn:Hp.
  2:{ unfold loadSession. rewrite Hp. reflexivity. }
  destruct (nonEmpty path) eqn:Hne.
  2:{ unfold loadSession. rewrite Hp, Hne. reflexivity. }
  destruct (unusable (engine env) (files w !! path)) eqn:Hun.
  { rewrite (loadSession_unusable env w path Hp Hun). reflexivity. }
  destruct (files w !! path) as [[|text]|] eqn:Hf; try discriminate.
  simpl in Hun.
  destruct (parseJson (engine env) text) as [data|] eqn:Hparse; [|discriminate].
  assert (Hnull : data <> JNull) by (intros ->; discriminate).
  apply nonEmpty_true in Hne.
  destruct (expiresAtProp env data) as [expiry|e] eqn:Hexpiry.
  - rewrite (loadSession_reads env w path text data expiry _ Hp Hne Hf Hparse Hnull
               Hexpiry eq_refl).
    match goal with
    | |- context [expiredAt (now w) ?s] => destruct (expiredAt (now w) s) eqn:Hexp
    end; [reflexivity|].
    split; [reflexivity|]. split; [exact Hexp|].
    exists path, text, data. simpl. repeat split; try assumption.
    + intros Hnone. unfold cookiesProp. rewrite Hnone. reflexivity.
    + intros Hnone. unfold tokensProp. rewrite Hnone. reflexivity.
  - rewrite (loadSession_unreadable_expiry env w path text data e Hp Hne Hf Hparse Hexpiry).
    reflexivity.
Qed.

(** X6. [clearSessionFile] never throws and always leaves the manager
    without a session.  When the session file can be written, a
    [loadSession] that follows finds nothing: it returns [null] and the
    manager stays without a session. *)
Theorem clearSessionFile_then_load (env : Env) (w : World) :
  (exists w', clearSessionFile env w = (Ok tt, w') /\ session w' = None) /\
  (forall path,
     sessionFilePath w = Some path ->
     canWrite env path = true ->
     exists w', (clearSessionFile env ;;; loadSession env) w = (Ok None, w') /\
                session w' = None).
Proof.
  split.
  - unfold clearSessionFile. eexists. split; reflexivity.
  - intros path Hp Hw. unfold bind, clearSessionFile. rewrite Hp.
    destruct (nonEmpty path) eqn:Hne; simpl.
    + unfold existsSync at 1.
      destruct (files w !! path) as [entry|] eqn:Hf.
      * unfold tryCatch, writeFileSync. rewrite Hw. simpl.
        eexists. split.
        { apply (loadSession_unusable env _ path); [exact Hp|].
          simpl. rewrite lookup_insert_eq. reflexivity. }
        reflexivity.
      * eexists. split.
        { unfold loadSession. simpl. rewrite Hp, Hne. unfold existsSync. simpl.
          rewrite Hf. reflexivity. }
        reflexivity.
    + eexists. split.
      { unfold loadSession. simpl. rewrite Hp, Hne. reflexivity. }
      reflexivity.
Qed.

Lemma clearSessionFile_then_load_witness :
  exists w',
    (clearSessionFile (scripted []) ;;; loadSession (scripted []))
      (snd (saveSession (scripted []) (holding (expiringSession 1766361600123) 1700000000000)))
    = (Ok None, w') /\ session w' = None.
Proof.
  exact (proj2 (clearSessionFile_then_load
                  (scripted [])
                  (snd (saveSession (scripted [])
                          (holding (expiringSession 1766361600123) 1700000000000))))
               sessionFile eq_refl eq_refl).
Defined.

(* ===================================================================== *)
(** ** Further properties of the HTTP client *)
(* ===================================================================== *)

Lemma splitHead_chars (sep : ascii) (s : string) :
  ~ List.In sep (chars (splitHead sep s)).
Proof.
  unfold chars. induction s as [|c s IH]; simpl; [tauto|].
  destruct (Ascii.eqb c sep) eqn:Heq; simpl; [tauto|].
  apply Ascii.eqb_neq in Heq. intros [H|H]; [congruence | tauto].
Qed.

Lemma splitHead_cut (sep : ascii) (s : string) :
  s = splitHead sep s \/ exists rest, s = splitHead sep s ++ String sep rest.
Proof.
  induction s as [|c s IH]; simpl; [left; reflexivity|].
  destruct (Ascii.eqb c sep) eqn:Heq; simpl.
  - apply Ascii.eqb_eq in Heq. subst c. right. exists s. reflexivity.
  - destruct IH as [IH|[rest IH]].
    + left. f_equal. exact IH.
    + right. exists rest.
      change (String c s = String c (splitHead sep s ++ String sep rest)).
      f_equal. exact IH.
Qed.

(** X7. Every cookie [HTTPClient.request] hands back is the part of a
    [Set-Cookie] header before its first semicolon: one cookie per header,
    in the headers' order; the cookie holds no semicolon, and the header is
    the cookie itself or the cookie, a semicolon and the rest, so no
    attribute ([Path], [Expires], ...) gets through and nothing of the
    [name=value] part is lost. *)
Theorem request_cookies_stripped (env : Env) (method url : string)
        (o : HTTPRequestOptions) (w : World) :
  match fetch env (trace w) (fetchCall method url o), request env method url o w with
  | FetchResponse raw, (Ok r, _) =>
      List.length (res_cookies r) = List.length (raw_setCookie raw) /\
      Forall2 beforeSemicolon (res_cookies r) (raw_setCookie raw)
  | FetchResponse _, (Throw _, _) => False
  | FetchRejected _ _ _, (Ok _, _) => False
  | FetchRejected _ _ _, (Throw _, _) => True
  end.
Proof.
  unfold request.
  destruct (fetch env (trace w) (fetchCall method url o)) as [raw|name message st].
  - simpl. split; [apply List.length_map|].
    induction (raw_setCookie raw) as [|h hs IH]; simpl; constructor; [|exact IH].
    split; [apply splitHead_chars|].
    destruct (splitHead_cut semicolon h) as [H|[rest H]].
    + left. exact H.
    + right. exists rest. exact H.
  - destruct (String.eqb name "AbortError"); exact I.
Qed.

(** X8. A call that [fetch] gives up on with an [AbortError] comes out of
    [HTTPClient.request] as the error [Request timeout after <n>ms], [n]
    being the timeout in force; that error is a network error for
    [RetryHandler.isNetworkError] and retryable for the predicate of
    [handleRetry].  Any other rejection is thrown as it came. *)
Theorem request_timeout_retryable (env : Env) (method url : string)
        (o : HTTPRequestOptions) (w : World) (name message : string) (st : option Z) :
  fetch env (trace w) (fetchCall method url o) = FetchRejected name message st ->
  exists e,
    request env method url o w =
      (Throw e, settle env (fetchCall method url o)
                                (FetchRejected name message st) w) /\
    (name = "AbortError" ->
     e = PlainError "Error"
           ("Request timeout after " ++
            decimal (default defaultTimeout (opt_timeout o)) ++ "ms") None /\
     isNetworkError e = true /\ defaultRetryable e = true) /\
    (name <> "AbortError" -> e = PlainError name message st).
Proof.
  intros Hf. unfold request. rewrite Hf.
  destruct (String.eqb name "AbortError") eqn:Hname.
  - eexists. split; [reflexivity|]. split.
    + intros _. repeat split.
    + intros Hne. apply String.eqb_eq in Hname. contradiction.
  - eexists. split; [reflexivity|]. split.
    + intros ->. discriminate.
    + intros _. reflexivity.
Qed.

Lemma request_timeout_retryable_witness :
  exists e,
    request timingOut "GET"
            "https://emr.example/ping" noOptions (freshWorld 0) =
      (Throw e,
       settle timingOut (fetchCall "GET" "https://emr.example/ping" noOptions)
              (FetchRejected "AbortError" "This operation was aborted" None)
              (freshWorld 0)) /\
    e = PlainError "Error" "Request timeout after 30000ms" None.
Proof.
  destruct (request_timeout_retryable
              timingOut "GET"
              "https://emr.example/ping" noOptions (freshWorld 0)
              "AbortError" "This operation was aborted" None eq_refl)
    as (e & Hrun & Habort & _).
  exists e. split; [exact Hrun|]. exact (proj1 (Habort eq_refl)).
Defined.

(* ===================================================================== *)
(** ** Further properties of the retry handler *)
(* ===================================================================== *)

Lemma sleeps_after_sleep (ms : Z) (w : World) :
  sleeps (trace (snd (sleep ms w))) = (sleeps (trace w) ++ [ms])%list.
Proof.
  unfold sleep, modify. simpl. unfold sleeps. rewrite List.flat_map_app. reflexivity.
Qed.

(** X9. With [maxAttempts] zero or less, [execute] does not run the
    operation at all: it throws [undefined] and leaves the world as it
    was. *)
Theorem execute_without_attempts {T : Type} (config : RetryConfig) (fn : M T)
        (p : option (Thrown -> bool)) (w : World) :
  (maxAttempts config <= 0)%Z ->
  execute config fn p w = (Throw Undefined, w).
Proof.
  intros Hmax. unfold execute.
  replace (Z.to_nat (maxAttempts config)) with 0%nat by lia. reflexivity.
Qed.

Lemma execute_without_attempts_witness :
  execute {| maxAttempts := 0; backoffMs := 100; retryableErrors := ["timeout"] |}
          (probe (scripted [textResponse 200 "OK" "pong"])) None (freshWorld 0)
  = (Throw Undefined, freshWorld 0).
Proof.
  apply (execute_without_attempts
           {| maxAttempts := 0; backoffMs := 100; retryableErrors := ["timeout"] |}).
  simpl. lia.
Defined.

Lemma attempts_success {T : Type} (config : RetryConfig) (fn : M T)
      (p : option (Thrown -> bool)) (k : nat) (attempt : Z) (last : Thrown)
      (w w1 : World) (v : T) :
  fn w = (Ok v, w1) ->
  attempts config fn p (S k) attempt last w = (Ok v, w1).
Proof. intros Hfn. simpl. unfold tryCatch. rewrite Hfn. reflexivity. Qed.

(** X10. [execute] returns the first success.  An operation that succeeds
    at once is run once, without a sleep; one that fails retryably and then
    succeeds is run twice with one sleep of [backoffMs] in between, and its
    second result is returned, the failure leaving no trace in it. *)
Theorem execute_returns_first_success {T : Type} (config : RetryConfig) (fn : M T)
        (p : option (Thrown -> bool)) (w : World) :
  (forall v w1,
     (0 < maxAttempts config)%Z ->
     fn w = (Ok v, w1) ->
     execute config fn p w = (Ok v, w1)) /\
  (forall e w1 v w2,
     (1 < maxAttempts config)%Z ->
     fn w = (Throw e, w1) ->
     retryable config p e = true ->
     fn (snd (sleep (backoffMs config) w1)) = (Ok v, w2) ->
     execute config fn p w = (Ok v, w2)).
Proof.
  split.
  - intros v w1 Hpos Hfn. unfold execute.
    destruct (Z.to_nat (maxAttempts config)) as [|k] eqn:Hk; [lia|].
    apply attempts_success. exact Hfn.
  - intros e w1 v w2 Hpos Hfn Hretry Hfn2. unfold execute.
    destruct (Z.to_nat (maxAttempts config)) as [|[|k]] eqn:Hk; [lia|lia|].
    rewrite (attempts_retry config fn p _ 0 Undefined e w w1 Hfn)
      by (try apply Z.leb_gt; try assumption; lia).
    replace (backoffMs config * 2 ^ (0 + 1 - 1))%Z with (backoffMs config) by (simpl; lia).
    apply attempts_success. exact Hfn2.
Qed.

Lemma execute_returns_first_success_witness :
  execute retryConfigSample
          (probe (scripted [FetchRejected "Error" "socket timeout" None;
                            textResponse 200 "OK" "pong"]))
          None (freshWorld 0)
  = probe (scripted [FetchRejected "Error" "socket timeout" None;
                     textResponse 200 "OK" "pong"])
          (snd (sleep 100
                  (snd (probe (scripted [FetchRejected "Error" "socket timeout" None;
                                         textResponse 200 "OK" "pong"])
                              (freshWorld 0))))).
Proof.
  eapply (proj2 (execute_returns_first_success retryConfigSample
                   (probe (scripted [FetchRejected "Error" "socket timeout" None;
                                     textResponse 200 "OK" "pong"]))
                   None (freshWorld 0))).
  - reflexivity.
  - reflexivity.
  - reflexivity.
  - reflexivity.
Defined.

Section Schedule.

Context {T : Type}.
Variable config : RetryConfig.
Variable fn : M T.
Variable p : option (Thrown -> bool).
Variable count : World -> nat.

Hypothesis count_sleep : forall ms w, count (snd (sleep ms w)) = count w.
Hypothesis fn_fails :
  forall w, exists e w',
    fn w = (Throw e, w') /\ retryable config p e = true /\
    sleeps (trace w') = sleeps (trace w) /\ count w' = S (count w).

Lemma attempts_schedule (k : nat) :
  forall (attempt : Z) (last : Thrown) (w : World),
    maxAttempts config = (attempt + Z.of_nat (S k))%Z ->
    exists e w',
      attempts config fn p (S k) attempt last w = (Throw e, w') /\
      sleeps (trace w') =
        (sleeps (trace w) ++
         List.map (fun i => (backoffMs config * 2 ^ (attempt + Z.of_nat i))%Z) (seq 0 k))%list /\
      count w' = (count w + S k)%nat.
Proof.
  induction k as [|k IH]; intros attempt last w Hmax;
    destruct (fn_fails w) as (e & w1 & Hfn & Hretry & Hsl & Hcount).
  - exists e, w1. split; [|split].
    + apply attempts_exhausted; [exact Hfn|]. apply Z.leb_le. lia.
    + simpl. rewrite List.app_nil_r. exact Hsl.
    + lia.
  - rewrite (attempts_retry config fn p (S k) attempt last e w w1 Hfn)
      by (try apply Z.leb_gt; try assumption; lia).
    destruct (IH (attempt + 1)%Z e (snd (sleep (backoffMs config * 2 ^ (attempt + 1 - 1)) w1)))
      as (e' & w' & Hrun & Hsl' & Hcount'); [lia|].
    exists e', w'. split; [exact Hrun|]. split.
    + rewrite Hsl', sleeps_after_sleep, Hsl, <- List.app_assoc. f_equal.
      change (seq 0 (S k)) with (0%nat :: seq 1 k). simpl.
      f_equal; [f_equal; f_equal; lia|].
      rewrite <- List.seq_shift, List.map_map.
      apply List.map_ext. intros i. f_equal. f_equal. lia.
    + rewrite Hcount', count_sleep, Hcount. lia.
Qed.

End Schedule.

(** X11. The backoff schedule in general.  An operation that fails on every
    call with a retryable failure is run exactly [maxAttempts] times
    (counted by any counter the operation advances by one and a sleep does
    not touch), [execute] ends with a failure, and the sleeps it adds are
    [backoffMs], [2 backoffMs], [4 backoffMs], ..., one between each two
    consecutive runs and none after the last. *)
Theorem execute_backoff_schedule {T : Type} (config : RetryConfig) (fn : M T)
        (p : option (Thrown -> bool)) (count : World -> nat) (w : World) :
  (0 < maxAttempts config)%Z ->
  (forall ms w0, count (snd (sleep ms w0)) = count w0) ->
  (forall w0, exists e w1,
      fn w0 = (Throw e, w1) /\ retryable config p e = true /\
      sleeps (trace w1) = sleeps (trace w0) /\ count w1 = S (count w0)) ->
  exists e w',
    execute config fn p w = (Throw e, w') /\
    sleeps (trace w') =
      (sleeps (trace w) ++
       backoffSchedule (backoffMs config) (Z.to_nat (maxAttempts config)))%list /\
    count w' = (count w + Z.to_nat (maxAttempts config))%nat.
Proof.
  intros Hpos Hsleep Hfails. unfold execute, backoffSchedule.
  destruct (Z.to_nat (maxAttempts config)) as [|k] eqn:Hk; [lia|].
  destruct (attempts_schedule config fn p count Hsleep Hfails k 0 Undefined w)
    as (e & w' & Hrun & Hsl & Hcount); [lia|].
  exists e, w'. split; [exact Hrun|]. split; [|exact Hcount].
  rewrite Hsl. replace (S k - 1)%nat with k by lia. reflexivity.
Qed.

Lemma execute_backoff_schedule_witness :
  exists e w',
    execute retryConfig (probe (refusing "Error" "connect ECONNREFUSED")) None
            (freshWorld 0) = (Throw e, w') /\
    sleeps (trace w') = [1000; 2000]%Z /\
    List.length (fetchCalls (trace w')) = 3%nat.
Proof.
  apply (execute_backoff_schedule retryConfig
           (probe (refusing "Error" "connect ECONNREFUSED")) None
           (fun w => List.length (fetchCalls (trace w))) (freshWorld 0)).
  - reflexivity.
  - intros ms w0. unfold sleep, modify, fetchCalls. simpl.
    rewrite List.flat_map_app. simpl. rewrite List.app_nil_r. reflexivity.
  - intros w0. eexists. eexists. split; [reflexivity|]. split; [reflexivity|].
    unfold probe, get, request, fetchCalls, sleeps. simpl.
    rewrite !List.flat_map_app. simpl. rewrite List.app_nil_r, List.length_app.
    split; [reflexivity|]. simpl. lia.
Defined.

(* ===================================================================== *)
(** ** Token scraping *)
(* ===================================================================== *)

Section Capture.

Variable cs : list ascii.

Lemma captured_snoc (t : string) (c : ascii) :
  member c cs = false ->
  (t = EmptyString \/ captured cs t) ->
  captured cs (t ++ String c EmptyString).
Proof.
  intros Hc Ht. split.
  - destruct t; discriminate.
  - assert (Hall : Forall (fun c => member c cs = false) (chars t)).
    { destruct Ht as [->|[_ H]]; [constructor | exact H]. }
    clear Ht. unfold chars in *. induction t as [|a t IH]; simpl.
    + constructor; [exact Hc | constructor].
    + simpl in Hall. apply Forall_cons in Hall. destruct Hall as [Ha Hall].
      constructor; [exact Ha | apply IH; exact Hall].
Qed.

(** A match returns the capture it started with when the pattern has no
    group, and a captured text when it has one. *)
Lemma matchHere_capture (p : list Atom) :
  capturesExclude cs p ->
  forall cap s r,
    matchHere p cap s = Some r ->
    if hasCapture p then captured cs r else r = cap.
Proof.
  induction p as [|a p IH]; intros Hex cap s r Hm.
  - simpl in *. congruence.
  - apply Forall_cons in Hex. destruct Hex as [Ha Hex]. specialize (IH Hex).
    destruct a as [text|chs|chs|chs|chs]; simpl in Hm.
    + change (hasCapture (Lit text :: p)) with (hasCapture p).
      destruct (stripLit text s) as [s'|]; [|discriminate]. exact (IH _ _ _ Hm).
    + change (hasCapture (OneOf chs :: p)) with (hasCapture p).
      destruct s as [|c s']; [discriminate|].
      destruct (member c chs); [|discriminate]. exact (IH _ _ _ Hm).
    + change (hasCapture (OptOneOf chs :: p)) with (hasCapture p).
      destruct s as [|c s']; [exact (IH _ _ _ Hm)|].
      destruct (member c chs); [|exact (IH _ _ _ Hm)].
      destruct (matchHere p cap s') eqn:H1.
      * injection Hm as <-. exact (IH _ _ _ H1).
      * exact (IH _ _ _ Hm).
    + change (hasCapture (StarNoneOf chs :: p)) with (hasCapture p).
      assert (Hgen : forall s0,
                 (fix star (s : string) : option string :=
                    match s with
                    | String c s' =>
                        if member c chs then matchHere p cap s
                        else match star s' with
                             | Some r => Some r
                             | None => matchHere p cap s
                             end
                    | EmptyString => matchHere p cap s
                    end) s0 = Some r ->
                 if hasCapture p then captured cs r else r = cap).
      { induction s0 as [|c s' IHs]; intros H0.
        - exact (IH _ _ _ H0).
        - destruct (member c chs); [exact (IH _ _ _ H0)|].
          match type of H0 with
          | match ?x with _ => _ end = _ => destruct x eqn:H1
          end.
          + injection H0 as ->. apply IHs. reflexivity.
          + exact (IH _ _ _ H0). }
      exact (Hgen s Hm).
    + simpl in Ha. subst chs.
      change (hasCapture (CapturePlusNoneOf cs :: p)) with true.
      assert (Hstop : forall taken s0 r0,
                 (taken = EmptyString \/ captured cs taken) ->
                 (if nonEmpty taken then matchHere p taken s0 else None) = Some r0 ->
                 captured cs r0).
      { intros taken s0 r0 Ht H0.
        destruct (nonEmpty taken) eqn:Hne; [|discriminate].
        destruct Ht as [->|Ht]; [discriminate|].
        specialize (IH _ _ _ H0). destruct (hasCapture p); [exact IH | subst; exact Ht]. }
      assert (Hgen : forall s0 taken,
                 (taken = EmptyString \/ captured cs taken) ->
                 (fix plus (taken : string) (s : string) {struct s} : option string :=
                    let stop := if nonEmpty taken then matchHere p taken s else None in
                    match s with
                    | String c s' =>
                        if member c cs then stop
                        else match plus (taken ++ String c EmptyString) s' with
                             | Some r => Some r
                             | None => stop
                             end
                    | EmptyString => stop
                    end) taken s0 = Some r ->
                 captured cs r).
      { induction s0 as [|c s' IHs]; intros taken Ht H0; cbv zeta in H0.
        - exact (Hstop _ _ _ Ht H0).
        - destruct (member c cs) eqn:Hc; [exact (Hstop _ _ _ Ht H0)|].
          match type of H0 with
          | match ?x with _ => _ end = _ => destruct x eqn:H1
          end.
          + injection H0 as ->.
            apply (IHs (taken ++ String c EmptyString)); [|exact H1].
            right. apply captured_snoc; assumption.
          + exact (Hstop _ _ _ Ht H0). }
      apply (Hgen s EmptyString); [left; reflexivity | exact Hm].
Qed.

Lemma search_capture (p : list Atom) (s r : string) :
  capturesExclude cs p -> hasCapture p = true ->
  search p s = Some r -> captured cs r.
Proof.
  intros Hex Hcap. induction s as [|c s IH]; simpl; intros Hs.
  - destruct (matchHere p EmptyString EmptyString) eqn:Hm; [|discriminate].
    injection Hs as <-. pose proof (matchHere_capture p Hex _ _ _ Hm) as H.
    rewrite Hcap in H. exact H.
  - destruct (matchHere p EmptyString (String c s)) eqn:Hm.
    + injection Hs as <-. pose proof (matchHere_capture p Hex _ _ _ Hm) as H.
      rewrite Hcap in H. exact H.
    + exact (IH Hs).
Qed.

End Capture.

Lemma extractCSRFToken_captured (html : Json) (t : string) :
  extractCSRFToken html = Some t ->
  (exists s, html = JStr s /\ s <> EmptyString) /\ captured quotes t.
Proof.
  intros Hex. unfold extractCSRFToken in Hex.
  destruct html as [| | |s| |]; try discriminate.
  destruct (nonEmpty s) eqn:Hne; [|discriminate].
  split.
  { exists s. split; [reflexivity|]. apply nonEmpty_true. exact Hne. }
  destruct (search csrfPattern s) as [t1|] eqn:H1.
  - injection Hex as <-.
    apply (search_capture quotes csrfPattern s t1); try reflexivity; [|exact H1].
    repeat constructor.
  - destruct (search genericPattern s) as [t2|] eqn:H2.
    + injection Hex as <-.
      apply (search_capture quotes genericPattern s t2); try reflexivity; [|exact H2].
      repeat constructor.
    + apply (search_capture quotes metaPattern s t); try reflexivity; [|exact Hex].
      repeat constructor.
Qed.

(** X12. [extractCSRFToken] yields a token only from a body that is a
    non-empty string, and a token it yields is never empty and holds
    neither a double nor a single quote: it is a whole attribute value,
    with no markup stuck to it. *)
Theorem extractCSRFToken_shape (html : Json) :
  match extractCSRFToken html with
  | Some t =>
      (exists s, html = JStr s /\ s <> EmptyString) /\
      t <> EmptyString /\
      Forall (fun c => c <> ascii_of_nat 34 /\ c <> ascii_of_nat 39) (chars t)
  | None => True
  end.
Proof.
  destruct (extractCSRFToken html) as [t|] eqn:Hex; [|exact I].
  destruct (extractCSRFToken_captured html t Hex) as [Hstr [Hnonempty Hall]].
  split; [exact Hstr|]. split; [exact Hnonempty|].
  eapply List.Forall_impl; [|exact Hall].
  intros c Hc. simpl in Hc. unfold member in Hc. simpl in Hc.
  apply Bool.orb_false_elim in Hc. destruct Hc as [H34 Hc].
  apply Bool.orb_false_elim in Hc. destruct Hc as [H39 _].
  apply Ascii.eqb_neq in H34, H39. tauto.
Qed.

(* ===================================================================== *)
(** ** The adapter and the services: what is thrown *)
(* ===================================================================== *)

Lemma throwsOnly_weaken {A : Type} (P Q : Thrown -> Prop) (m : M A) :
  (forall e, P e -> Q e) -> throwsOnly P m -> throwsOnly Q m.
Proof. intros HPQ Hm w e w' H. apply HPQ. exact (Hm w e w' H). Qed.

Lemma throwsOnly_request_error (env : Env) (method url : string) (o : HTTPRequestOptions) :
  throwsOnly isErrorObject (request env method url o).
Proof.
  apply (throwsOnly_weaken plainOrAuthentication); [|apply throwsOnly_request].
  intros [| |]; simpl; [tauto | discriminate | discriminate].
Qed.

Lemma transform_throws (env : Env) (n : VisitNote) (e : Thrown) :
  transform env n = Throw e -> isErrorObject e.
Proof.
  unfold transform.
  destruct (match metadataProp "shift" n with Some v => toString v | None => _ end);
    [destruct (visitDate n)|]; intros H; try discriminate;
    injection H as <-; discriminate.
Qed.

Ltac error_step :=
  first
    [ apply throwsOnly_bind; [|intros ?]
    | apply throwsOnly_ret
    | apply throwsOnly_gets
    | apply throwsOnly_modify
    | apply throwsOnly_request_error
    | apply throwsOnly_throw; discriminate
    | apply throwsOnly_throw; eapply transform_throws; eassumption
    | match goal with
      | |- throwsOnly _ (match ?x with _ => _ end) => destruct x eqn:?
      | |- throwsOnly _ (if ?b then _ else _) => destruct b eqn:?
      end ].

Lemma throwsOnly_submitNote (env : Env) (n : VisitNote) :
  throwsOnly isErrorObject (submitNote env n).
Proof.
  unfold submitNote, getTokens, getCookies, get, post, updateCookies, updateTokens.
  repeat error_step.
Qed.

Lemma throwsOnly_sleep (P : Thrown -> Prop) (ms : Z) : throwsOnly P (sleep ms).
Proof. apply throwsOnly_modify. Qed.

Lemma throwsOnly_tryCatch {A : Type} (P : Thrown -> Prop) (m : M A) (h : Thrown -> M A) :
  throwsOnly P m ->
  (forall e, P e -> throwsOnly P (h e)) -> throwsOnly P (tryCatch m h).
Proof.
  intros Hm Hh w e w' H. unfold tryCatch in H.
  destruct (m w) as [[a|e0] w0] eqn:Hrun; [discriminate|].
  exact (Hh e0 (Hm w e0 w0 Hrun) w0 e w' H).
Qed.

Section AttemptsThrow.

Context {T : Type}.
Variable P : Thrown -> Prop.
Variable config : RetryConfig.
Variable fn : M T.
Variable p : option (Thrown -> bool).
Hypothesis fn_throws : throwsOnly P fn.

Lemma throwsOnly_attempts_from (k : nat) :
  forall attempt last, P last -> throwsOnly P (attempts config fn p k attempt last).
Proof.
  induction k as [|k IH]; intros attempt last Hlast; simpl.
  - apply throwsOnly_throw. exact Hlast.
  - apply throwsOnly_tryCatch; [exact fn_throws|].
    intros error Herror.
    destruct (maxAttempts config <=? attempt + 1)%Z; [apply throwsOnly_throw; exact Herror|].
    destruct (match p with Some q => negb (q error) | None => false end);
      [apply throwsOnly_throw; exact Herror|].
    destruct (negb _ && _); [apply throwsOnly_throw; exact Herror|].
    apply throwsOnly_bind; [apply throwsOnly_sleep|].
    intros _. apply IH. exact Herror.
Qed.

(** With an attempt left, whatever the retry loop throws was thrown by the
    operation. *)
Lemma throwsOnly_attempts (k : nat) (attempt : Z) (last : Thrown) :
  throwsOnly P (attempts config fn p (S k) attempt last).
Proof.
  simpl. apply throwsOnly_tryCatch; [exact fn_throws|].
  intros error Herror.
  destruct (maxAttempts config <=? attempt + 1)%Z; [apply throwsOnly_throw; exact Herror|].
  destruct (match p with Some q => negb (q error) | None => false end);
    [apply throwsOnly_throw; exact Herror|].
  destruct (negb _ && _); [apply throwsOnly_throw; exact Herror|].
  apply throwsOnly_bind; [apply throwsOnly_sleep|].
  intros _. apply throwsOnly_attempts_from. exact Herror.
Qed.

End AttemptsThrow.

Lemma throwsOnly_postVisitNote (env : Env) (n : VisitNote) :
  throwsOnly isErrorObject (Adapters.postVisitNote env n).
Proof.
  unfold Adapters.postVisitNote, isAuthenticated, getSession, isExpired.
  repeat error_step.
  unfold handleRetry, execute. change (Z.to_nat (maxAttempts retryConfig)) with 3%nat.
  apply throwsOnly_attempts. apply throwsOnly_submitNote.
Qed.

Lemma validateVisitNote_ok (n : VisitNote) :
  Services.validateVisitNote n = Ok tt <-> ~ missingRequired n.
Proof.
  unfold Services.validateVisitNote, missingRequired. split.
  - intros H [H1|[H1|[H1|[H1|H1]]]]; rewrite H1 in H; simpl in H;
      try discriminate;
      repeat match type of H with
             | (if negb ?b then _ else _) = _ => destruct b; simpl in H; try discriminate
             end.
  - intros H.
    destruct (truthyStr (visitId n)); simpl; [|tauto].
    destruct (truthyStr (patientId n)); simpl; [|tauto].
    destruct (truthyStr (caregiverId n)); simpl; [|tauto].
    destruct (truthyStr (note n)); simpl; [|tauto].
    destruct (visitDate n); [reflexivity | tauto].
Qed.

(** X13. For a record that has every required property, [postVisitNote] of
    the service is the adapter's [postVisitNote] with its failures tagged:
    a result comes back as it is, an [EMRAdapterError] is thrown on as it
    is, and any other error is thrown wrapped in an [EMRAdapterError] of
    kind EMR_SPECIFIC that names the service's vendor and keeps the error
    as its cause.  So whatever the service throws for such a record is an
    [EMRAdapterError]. *)
Theorem postVisitNote_failures_tagged (env : Env) (svc : Services.VisitNoteService)
        (n : VisitNote) (w : World) :
  ~ missingRequired n ->
  match Services.adapterPostVisitNote env (Services.adapter svc) n w with
  | (Ok result, w') => Services.postVisitNote env svc n w = (Ok result, w')
  | (Throw e0, w') =>
      exists e,
        Services.postVisitNote env svc n w = (Throw e, w') /\
        isAdapterError e = true /\
        (isAdapterError e0 = true -> e = e0) /\
        (isAdapterError e0 = false ->
         exists m, errorMessage e0 = Some m /\
                   e = EMRAdapterError ("Failed to post visit note: " ++ m) EMRSpecific
                                       (Services.emrType svc) (CauseThrown e0))
  end.
Proof.
  intros Hvalid. apply validateVisitNote_ok in Hvalid.
  unfold Services.postVisitNote. rewrite Hvalid. unfold tryCatch.
  destruct (Services.adapterPostVisitNote env (Services.adapter svc) n w)
    as [[result|e0] w'] eqn:Hrun; [reflexivity|].
  assert (He0 : isErrorObject e0).
  { unfold Services.adapterPostVisitNote in Hrun. destruct (Services.adapter svc).
    exact (throwsOnly_postVisitNote env n w e0 w' Hrun). }
  destruct e0 as [|name message st|message t emr cause]; simpl.
  - exfalso. apply He0. reflexivity.
  - eexists. split; [reflexivity|]. split; [reflexivity|].
    split; [discriminate|]. intros _. exists message. split; reflexivity.
  - eexists. split; [reflexivity|]. split; [reflexivity|].
    split; [reflexivity | discriminate].
Qed.

Lemma sampleNote_complete : ~ missingRequired sampleNote.
Proof. intros [H|[H|[H|[H|H]]]]; discriminate. Defined.

Lemma postVisitNote_failures_tagged_witness :
  exists e w',
    Services.postVisitNote (refusing "TypeError" "fetch failed") wellSkyService sampleNote
                           (loggedIn sampleSession 0) = (Throw e, w') /\
    isAdapterError e = true.
Proof.
  pose proof (postVisitNote_failures_tagged
                (refusing "TypeError" "fetch failed") wellSkyService sampleNote
                (loggedIn sampleSession 0) sampleNote_complete) as H.
  cbv beta iota zeta delta [Services.adapterPostVisitNote Services.adapter wellSkyService] in H.
  destruct (Adapters.postVisitNote (refusing "TypeError" "fetch failed") sampleNote
                                   (loggedIn sampleSession 0)) as [[r|e0] w'] eqn:Hrun.
  - discriminate Hrun.
  - destruct H as (e & Hs & Htag & _). exists e, w'. split; assumption.
Defined.

(** X14. An adapter that holds no session, or one whose session has
    expired, refuses [postVisitNote] at once: the Authentication error
    [Not authenticated. Please call authenticate() first.] is thrown, no
    network call is made, nothing is retried, the world is as before. *)
Theorem postVisitNote_unauthenticated (env : Env) (n : VisitNote) (w : World) :
  session w = None \/ isExpiredAt (now w) (session w) = true ->
  Adapters.postVisitNote env n w = (Throw notAuthenticatedError, w) /\
  (~ missingRequired n ->
   forall svc, Services.postVisitNote env svc n w = (Throw notAuthenticatedError, w)).
Proof.
  intros Hno.
  assert (Hrun : Adapters.postVisitNote env n w = (Throw notAuthenticatedError, w)).
  { unfold Adapters.postVisitNote, isAuthenticated, getSession, isExpired, bind, gets, ret.
    destruct Hno as [Hnone|Hexp].
    - rewrite Hnone. reflexivity.
    - rewrite Hexp. destruct (session w); reflexivity. }
  split; [exact Hrun|].
  intros Hvalid svc. apply validateVisitNote_ok in Hvalid.
  unfold Services.postVisitNote. rewrite Hvalid.
  unfold tryCatch, Services.adapterPostVisitNote. destruct (Services.adapter svc).
  rewrite Hrun. reflexivity.
Qed.

Lemma postVisitNote_unauthenticated_witness :
  Adapters.postVisitNote acceptingVendor sampleNote (holding (expiringSession 1000) 1000)
  = (Throw notAuthenticatedError, holding (expiringSession 1000) 1000).
Proof.
  apply (postVisitNote_unauthenticated acceptingVendor sampleNote
                                       (holding (expiringSession 1000) 1000)).
  right. reflexivity.
Defined.

(** X15. [AuthenticationService.authenticate] adds nothing to the adapter's
    [authenticate]: the adapter already turns every failure into an
    Authentication error, so the wrapping clause of the service is never
    taken and the two calls give the same outcome in the same world. *)
Theorem authenticationService_transparent (env : Env) (credentials : Credentials)
        (w : World) :
  Services.authenticate env WellSkyAdapter credentials w =
  Adapters.authenticate env credentials w.
Proof.
  unfold Services.authenticate, tryCatch.
  destruct (Adapters.authenticate env credentials w) as [[s|e] w'] eqn:Hrun;
    [reflexivity|].
  pose proof (authenticate_failure_kind env credentials w w' e Hrun) as Hkind.
  destruct e as [| |message t emr cause]; try discriminate. reflexivity.
Qed.

(* ===================================================================== *)
(** ** Authentication: the failures and what they leave behind *)
(* ===================================================================== *)

Section Preserves.

Context {A B : Type}.
Variable I : World -> Prop.

Lemma preserves_ret (a : A) : preserves I (ret a).
Proof. intros w r w' Hw H. injection H as _ <-. exact Hw. Qed.

Lemma preserves_gets (f : World -> A) : preserves I (gets f).
Proof. intros w r w' Hw H. injection H as _ <-. exact Hw. Qed.

Lemma preserves_throw (e : Thrown) : preserves I (@throw A e).
Proof. intros w r w' Hw H. injection H as _ <-. exact Hw. Qed.

Lemma preserves_modify (f : World -> World) :
  (forall w, I w -> I (f w)) -> preserves I (modify f).
Proof. intros Hf w r w' Hw H. injection H as _ <-. apply Hf. exact Hw. Qed.

Lemma preserves_bind (m : M A) (k : A -> M B) :
  preserves I m -> (forall a, preserves I (k a)) -> preserves I (bind m k).
Proof.
  intros Hm Hk w r w' Hw H. unfold bind in H.
  destruct (m w) as [[a|e] w0] eqn:Hrun.
  - exact (Hk a w0 r w' (Hm w _ w0 Hw Hrun) H).
  - injection H as _ <-. exact (Hm w _ w0 Hw Hrun).
Qed.

Lemma preserves_tryCatch (m : M A) (h : Thrown -> M A) :
  preserves I m -> (forall e, preserves I (h e)) -> preserves I (tryCatch m h).
Proof.
  intros Hm Hh w r w' Hw H. unfold tryCatch in H.
  destruct (m w) as [[a|e] w0] eqn:Hrun.
  - injection H as _ <-. exact (Hm w _ w0 Hw Hrun).
  - exact (Hh e w0 r w' (Hm w _ w0 Hw Hrun) H).
Qed.

End Preserves.

Lemma preserves_request (I : World -> Prop) (env : Env) (method url : string)
      (o : HTTPRequestOptions) :
  (forall call outcome w, I w -> I (settle env call outcome w)) ->
  preserves I (request env method url o).
Proof.
  intros Hrec w r w' Hw H. unfold request in H.
  destruct (fetch env (trace w) (fetchCall method url o)) as [raw|name message st].
  - injection H as _ <-. apply Hrec. exact Hw.
  - destruct (String.eqb name "AbortError"); injection H as _ <-; apply Hrec; exact Hw.
Qed.

Lemma open_updateCookies (cs : list string) (w : World) :
  holdsOpenSession w -> holdsOpenSession (snd (updateCookies cs w)).
Proof.
  intros (s & Hs & He). unfold updateCookies, modify. simpl. rewrite Hs.
  eexists. split; [reflexivity | exact He].
Qed.

Lemma open_after_first_update (cs : list string) (w : World) :
  session w = None -> holdsOpenSession (snd (updateCookies cs w)).
Proof.
  intros Hs. unfold updateCookies, modify. simpl. rewrite Hs.
  eexists. split; reflexivity.
Qed.

Lemma preserves_updateCookies (cs : list string) :
  preserves holdsOpenSession (updateCookies cs).
Proof.
  intros w r w' Hw H.
  replace w' with (snd (updateCookies cs w)) by (rewrite H; reflexivity).
  apply open_updateCookies. exact Hw.
Qed.

Ltac open_step :=
  first
    [ apply preserves_bind; [|intros ?]
    | apply preserves_ret
    | apply preserves_gets
    | apply preserves_throw
    | apply preserves_updateCookies
    | apply preserves_request; intros; assumption
    | apply preserves_modify; intros; eexists; split; reflexivity
    | match goal with
      | |- preserves _ (match ?x with _ => _ end) => destruct x eqn:?
      | |- preserves _ (if ?b then _ else _) => destruct b eqn:?
      end ].

Lemma preserves_verifyLogin (env : Env) (base tok : string) (lr : HTTPResponse) :
  preserves holdsOpenSession (verifyLogin env base tok lr).
Proof. unfold verifyLogin, getCookies, get, setSession. repeat open_step. Qed.

Lemma preserves_authenticateCatch (e : Thrown) :
  preserves holdsOpenSession (authenticateCatch e).
Proof. unfold authenticateCatch. repeat open_step. Qed.

Lemma bind_inv {A B : Type} (m : M A) (k : A -> M B) (w w' : World) (r : Result B) :
  bind m k w = (r, w') ->
  (exists a w1, m w = (Ok a, w1) /\ k a w1 = (r, w')) \/
  (exists e, m w = (Throw e, w') /\ r = Throw e).
Proof.
  unfold bind. destruct (m w) as [[a|e] w1]; intros H.
  - left. eauto.
  - right. injection H as <- <-. eauto.
Qed.

Lemma submitLogin_open (env : Env) (base : string) (credentials : Credentials)
      (w w1 : World) (raw : RawResponse) (r : Result (string * HTTPResponse)) :
  session w = None ->
  fetch env (trace w) (loginPageCall base) = FetchResponse raw ->
  submitLogin env base credentials w = (r, w1) ->
  holdsOpenSession w1.
Proof.
  intros Hnone Hfetch Hsub. unfold submitLogin in Hsub.
  apply bind_inv in Hsub.
  unfold get in Hsub.
  rewrite (request_response env "GET" _ noOptions w raw Hfetch) in Hsub.
  destruct Hsub as [(resp & w2 & Hget & Hrest)|(e & Hget & _)]; [|discriminate].
  injection Hget as <- <-.
  apply bind_inv in Hrest.
  destruct Hrest as [(u & w3 & Hupd & Hrest)|(e & Hupd & _)]; [|discriminate].
  assert (H3 : holdsOpenSession w3).
  { replace w3 with (snd (updateCookies (res_cookies (toResponse raw))
                            (settle env (loginPageCall base) (FetchResponse raw) w)))
      by (unfold loginPageCall; rewrite Hupd; reflexivity).
    apply open_after_first_update. exact Hnone. }
  revert Hrest.
  match goal with
  | |- ?m w3 = _ -> _ =>
      assert (Hp : preserves holdsOpenSession m)
        by (unfold getCookies, post; repeat open_step)
  end.
  intros Hrest. exact (Hp w3 _ w1 H3 Hrest).
Qed.

(** X16. [authenticate] on a manager without a session leaves a session
    behind as soon as the login page has answered, whether the login then
    succeeds or fails: that session has no expiry, so [isAuthenticated]
    answers [true] afterwards. *)
Theorem authenticate_leaves_session (env : Env) (credentials : Credentials)
        (w : World) (raw : RawResponse) :
  session w = None ->
  fetch env (trace w) (loginPageCall (loginBaseUrl credentials)) = FetchResponse raw ->
  holdsOpenSession (snd (authenticate env credentials w)) /\
  isAuthenticated (snd (authenticate env credentials w)) =
    (Ok true, snd (authenticate env credentials w)).
Proof.
  intros Hnone Hfetch.
  assert (Hopen : holdsOpenSession (snd (authenticate env credentials w))).
  { destruct (authenticate env credentials w) as [r w'] eqn:Hrun. simpl.
    unfold authenticate, tryCatch in Hrun.
    destruct (bind _ _ w) as [r0 w0] eqn:Hbody.
    assert (H0 : holdsOpenSession w0).
    { apply bind_inv in Hbody.
      destruct Hbody as [(a & w1 & Hsub & Hver)|(e & Hsub & _)].
      - refine (preserves_verifyLogin env _ _ _ w1 r0 w0 _ Hver).
        exact (submitLogin_open env _ _ w w1 raw _ Hnone Hfetch Hsub).
      - exact (submitLogin_open env _ _ w w0 raw _ Hnone Hfetch Hsub). }
    destruct r0 as [sess|e0].
    - injection Hrun as _ <-. exact H0.
    - exact (preserves_authenticateCatch e0 w0 _ w' H0 Hrun). }
  split; [exact Hopen|].
  destruct Hopen as (s & Hs & He).
  unfold isAuthenticated, getSession, isExpired, bind, gets, ret.
  rewrite Hs. simpl. unfold expiredAt. rewrite He. reflexivity.
Qed.

Lemma authenticate_leaves_session_witness :
  fst (authenticate (scripted [textResponse 200 "OK" "<html>maintenance</html>"])
                    sampleCredentials (freshWorld 0))
    = Throw (authenticationError "Failed to extract CSRF token from login page" NoCause) /\
  isAuthenticated
    (snd (authenticate (scripted [textResponse 200 "OK" "<html>maintenance</html>"])
                       sampleCredentials (freshWorld 0)))
  = (Ok true,
     snd (authenticate (scripted [textResponse 200 "OK" "<html>maintenance</html>"])
                       sampleCredentials (freshWorld 0))).
Proof.
  split; [reflexivity|].
  exact (proj2 (authenticate_leaves_session
                  (scripted [textResponse 200 "OK" "<html>maintenance</html>"])
                  sampleCredentials (freshWorld 0) _ eq_refl eq_refl)).
Defined.

Lemma hasSession_updateCookies (cs : list string) :
  preserves hasSession (updateCookies cs).
Proof.
  intros w r w' _ H. unfold updateCookies, modify in H. injection H as _ <-.
  unfold hasSession. destruct (session w); discriminate.
Qed.

Ltac session_step :=
  first
    [ apply preserves_bind; [|intros ?]
    | apply preserves_ret
    | apply preserves_gets
    | apply preserves_throw
    | apply hasSession_updateCookies
    | apply preserves_request; intros; assumption
    | match goal with
      | |- preserves _ (match ?x with _ => _ end) => destruct x eqn:?
      | |- preserves _ (if ?b then _ else _) => destruct b eqn:?
      end ].

(** What [submitLogin] hands on when it returns: the token scraped from the
    login page, and a manager that holds a session. *)
Lemma submitLogin_returns (env : Env) (base : string) (credentials : Credentials)
      (w w1 : World) (tok : string) (lr : HTTPResponse) :
  submitLogin env base credentials w = (Ok (tok, lr), w1) ->
  (exists raw,
     fetch env (trace w) (loginPageCall base) = FetchResponse raw /\
     extractCSRFToken (raw_body raw) = Some tok) /\
  hasSession w1.
Proof.
  intros Hsub. unfold submitLogin in Hsub.
  apply bind_inv in Hsub.
  destruct Hsub as [(resp & w2 & Hget & Hrest)|(e & _ & Habs)]; [|discriminate].
  apply bind_inv in Hrest.
  destruct Hrest as [(u & w3 & Hupd & Hrest)|(e & _ & Habs)]; [|discriminate].
  assert (H3 : hasSession w3).
  { unfold updateCookies, modify in Hupd. injection Hupd as _ <-.
    unfold hasSession. destruct (session w2); discriminate. }
  destruct (extractCSRFToken (body resp)) as [t|] eqn:Hex; [|discriminate].
  split.
  - assert (Htok : t = tok).
    { repeat (apply bind_inv in Hrest;
              destruct Hrest as [(? & ? & _ & Hrest)|(? & _ & Habs)]; [|discriminate]).
      unfold ret in Hrest. congruence. }
    subst tok. unfold get, request in Hget. unfold loginPageCall.
    destruct (fetch env (trace w) _) as [raw|name message st].
    + injection Hget as <- _. exists raw. split; [reflexivity | exact Hex].
    + destruct (String.eqb name "AbortError"); discriminate.
  - revert Hrest.
    match goal with
    | |- ?m w3 = _ -> _ =>
        assert (Hp : preserves hasSession m)
          by (unfold getCookies, post; repeat session_step)
    end.
    intros Hrest. exact (Hp w3 _ w1 H3 Hrest).
Qed.

(** X17. A session that [authenticate] returns is the one the manager then
    holds; it carries no expiry, so it is never reported expired, whatever
    the clock says; its cookies hold one entry per name and none without a
    name; and its only token is the one [extractCSRFToken] found in the
    body of the answer to the login page call, which is not empty and free
    of quote characters. *)
Theorem authenticate_session_shape (env : Env) (credentials : Credentials)
        (w w' : World) (sess : Session) :
  authenticate env credentials w = (Ok sess, w') ->
  session w' = Some sess /\
  (forall t, isExpiredAt t (Some sess) = false) /\
  List.NoDup (List.map cookieName (cookies sess)) /\
  Forall (fun c => cookieName c <> EmptyString) (cookies sess) /\
  exists raw tok,
    fetch env (trace w) (loginPageCall (loginBaseUrl credentials)) = FetchResponse raw /\
    extractCSRFToken (raw_body raw) = Some tok /\
    tokens sess = Some {[ "csrf" := tok ]} /\
    captured quotes tok.
Proof.
  intros Hrun. unfold authenticate, tryCatch in Hrun.
  destruct (bind _ _ w) as [[s0|e0] w0] eqn:Hbody.
  2: { unfold authenticateCatch in Hrun.
       destruct (isAdapterError e0); [discriminate|].
       destruct (errorMessage e0); discriminate. }
  injection Hrun as <- <-.
  apply bind_inv in Hbody.
  destruct Hbody as [([tok lr] & w1 & Hsub & Hver)|(e & _ & Habs)]; [|discriminate].
  destruct (submitLogin_returns env _ _ _ _ _ _ Hsub) as [(raw & Hpage & Htok) Hsess].
  simpl in Hver.
  destruct (redirectedToDashboard lr) eqn:Hred.
  2: { rewrite (verifyLogin_not_redirected env _ _ _ _ Hred) in Hver. discriminate. }
  rewrite (verifyLogin_redirected env _ _ _ _ Hred) in Hver.
  destruct (fetch env (trace w1) _) as [r|name message st]; [|discriminate].
  injection Hver as <- <-.
  unfold hasSession in Hsess. unfold establishedSession.
  destruct (session w1) as [s1|]; [|contradiction].
  split; [reflexivity|]. split; [reflexivity|]. simpl.
  split; [apply mergeCookies_NoDup|]. split; [apply mergeCookies_names|].
  exists raw, tok. split; [exact Hpage|]. split; [exact Htok|].
  split; [reflexivity|]. exact (proj2 (extractCSRFToken_captured _ _ Htok)).
Qed.

Lemma authenticate_session_shape_witness :
  exists sess w',
    authenticate acceptingVendor sampleCredentials (freshWorld 0) = (Ok sess, w') /\
    session w' = Some sess /\
    List.map cookieName (cookies sess) = ["sessionid"] /\
    extractCSRFToken (JStr loginPage) = Some "tok1" /\
    tokens sess = Some {[ "csrf" := "tok1" ]}.
Proof.
  eexists. eexists. split; [vm_compute; reflexivity|].
  split; [|split; [|split]; vm_compute; reflexivity].
  refine (proj1 (authenticate_session_shape acceptingVendor sampleCredentials
                   (freshWorld 0) _ _ _)).
  vm_compute. reflexivity.
Defined.

(* ===================================================================== *)
(** ** Submitting a note *)
(* ===================================================================== *)

(** [submitNote] up to the token: the token-refresh page has answered and
    the session is still good. *)
Ltac refresh_page Hs H1 Hl r1 :=
  unfold submitNote;
  unfold getTokens, getCookies; unfold bind at 1; unfold gets at 1;
  unfold bind at 1; unfold gets at 1;
  rewrite Hs; simpl cookiesOf; simpl tokensOf; unfold get;
  erewrite bind_ok; [|apply request_response; exact H1];
  unfold bind at 1; unfold updateCookies at 1; unfold modify at 1;
  simpl session; rewrite Hs;
  change (status (toResponse r1)) with (raw_status r1);
  rewrite Hl;
  unfold bind at 1; unfold ret at 1.

Lemma submitNote_without_token (env : Env) (n : VisitNote) (w : World) (s : Session)
      (r1 : RawResponse) (tok : option string) :
  session w = Some s ->
  fetch env (trace w) (schedulingCall (cookies s)) = FetchResponse r1 ->
  sessionLost (raw_status r1) = false ->
  submissionToken s (toResponse r1) = Ok tok ->
  truthyStr tok = false ->
  submitNote env n w =
  (Throw (authenticationError
            "Failed to obtain CSRF token. Please try logging in again." NoCause),
   setSessionField (Some (refreshed s (toResponse r1)))
     (settle env (schedulingCall (cookies s)) (FetchResponse r1) w)).
Proof.
  intros Hs H1 Hl Htok Hfalsy.
  refresh_page Hs H1 Hl r1.
  unfold submissionToken, refreshed, pageToken in *.
  change (status (toResponse r1)) with (raw_status r1) in *.
  change (body (toResponse r1)) with (raw_body r1) in *.
  destruct (raw_status r1 =? 200)%Z.
  - destruct (htmlBody (raw_body r1)) as [html|]; [|discriminate].
    destruct (extractCSRFToken html) as [t|] eqn:Hex.
    + destruct (extractCSRFToken_captured _ _ Hex) as [_ [Hne _]].
      apply nonEmpty_true in Hne. injection Htok as <-. simpl in Hfalsy. congruence.
    + injection Htok as <-.
      unfold bind at 1. unfold ret at 1. rewrite Hfalsy. reflexivity.
  - injection Htok as <-.
    unfold bind at 1. unfold ret at 1. rewrite Hfalsy. reflexivity.
Qed.

(** [submitNote] from the token on: the form is posted and answered. *)
Ltac submit_form tok Hne Hform Hentries H2 r2 :=
  change (truthyStr (Some tok)) with (nonEmpty tok);
  rewrite Hne; change (negb true) with false; cbv iota; cbv zeta;
  rewrite Hform; change (default EmptyString (Some tok)) with tok;
  rewrite Hentries;
  unfold bind at 1; unfold ret at 1;
  unfold getCookies; unfold bind at 1; unfold gets at 1;
  unfold post;
  erewrite bind_ok; [|apply request_response; exact H2];
  unfold bind at 1; unfold updateCookies at 1; unfold modify at 1;
  change (status (toResponse r2)) with (raw_status r2);
  change (statusText (toResponse r2)) with (raw_statusText r2);
  destruct ((200 <=? raw_status r2) && (raw_status r2 <? 400))%Z; [reflexivity|];
  destruct (raw_status r2 =? 403)%Z; reflexivity.

Lemma submitNote_posts (env : Env) (n : VisitNote) (w : World) (s : Session)
      (r1 r2 : RawResponse) (tok : string) (form : WellSkyVisitNoteRequest)
      (entries : list (string * string)) :
  session w = Some s ->
  fetch env (trace w) (schedulingCall (cookies s)) = FetchResponse r1 ->
  sessionLost (raw_status r1) = false ->
  submissionToken s (toResponse r1) = Ok (Some tok) ->
  tok <> EmptyString ->
  transform env n = Ok form ->
  formEntries (withToken tok form) = Some entries ->
  fetch env (trace w ++ [EvFetch (schedulingCall (cookies s)) (FetchResponse r1)])%list
        (submissionCall (cookies (refreshed s (toResponse r1))) entries)
    = FetchResponse r2 ->
  let w' :=
    setSessionField (Some (landed s (toResponse r1) (toResponse r2)))
      (settle env (submissionCall (cookies (refreshed s (toResponse r1))) entries)
         (FetchResponse r2)
         (settle env (schedulingCall (cookies s)) (FetchResponse r1) w)) in
  submitNote env n w =
  (if accepted (raw_status r2) then
     Ok {| success := true; res_visitId := visitId n; timestamp := now w';
           Types.request := Some (withToken tok form);
           Types.response := Some (body (toResponse r2));
           error := None |}
   else if (raw_status r2 =? 403)%Z then
     let bodyPreview :=
       match body (toResponse r2) with
       | JStr text => substring0 500 text
       | b => substring0 500 (JSON_stringify (engine env) b 0)
       end in
     Throw (EMRAdapterError (forbiddenMessage env bodyPreview (withToken tok form))
              Authentication WellSky
              (CauseForbidden (toResponse r2) bodyPreview (withToken tok form) "present"))
   else
     Throw (EMRAdapterError
              ("WellSky post visit note failed with status " ++
               decimal (raw_status r2) ++ " " ++ raw_statusText r2)
              EMRSpecific WellSky (CauseResponse (toResponse r2))),
   w').
Proof.
  intros Hs H1 Hl Htok Hne Hform Hentries H2 w'. subst w'.
  apply nonEmpty_true in Hne.
  refresh_page Hs H1 Hl r1.
  unfold submissionToken, landed, refreshed, pageToken, accepted, submissionCall in *.
  change (status (toResponse r1)) with (raw_status r1) in *.
  change (body (toResponse r1)) with (raw_body r1) in *.
  destruct (raw_status r1 =? 200)%Z.
  - destruct (htmlBody (raw_body r1)) as [html|]; [|discriminate].
    destruct (extractCSRFToken html) as [t|] eqn:Hex.
    + injection Htok as ->.
      unfold bind at 1. unfold bind at 1. unfold updateTokens at 1. unfold modify at 1.
      unfold ret at 1. simpl session.
      submit_form tok Hne Hform Hentries H2 r2.
    + injection Htok as Htok.
      unfold bind at 1. unfold ret at 1. rewrite Htok.
      submit_form tok Hne Hform Hentries H2 r2.
  - injection Htok as Htok.
    unfold bind at 1. unfold ret at 1. rewrite Htok.
    submit_form tok Hne Hform Hentries H2 r2.
Qed.

Lemma handleRetry_success {T : Type} (fn : M T) (w w1 : World) (v : T) :
  fn w = (Ok v, w1) -> handleRetry fn w = (Ok v, w1).
Proof.
  intros Hfn. unfold handleRetry, execute.
  change (Z.to_nat (maxAttempts retryConfig)) with 3%nat.
  apply attempts_success. exact Hfn.
Qed.

Lemma substring0_length (k : nat) (text : string) :
  (String.length (substring0 k text) <= k)%nat.
Proof.
  unfold substring0. revert text.
  induction k as [|k IH]; intros [|c text]; simpl; try lia.
  specialize (IH text). lia.
Qed.

(** X18. A submission that goes through.  On an adapter with an unexpired
    session, when the token-refresh page answers with a status other than
    403 and 302, a token is at hand (scraped from that page, else the
    session's), the form's values convert to text and the vendor answers
    the POST with a status from 200 to 399, [postVisitNote] returns a
    result with [success] set that carries the form as sent, token
    included, the body of the answer, and as its time stamp the clock as
    it stands when the answer is in.  The run made the GET and the POST and
    nothing else, and the session afterwards holds the cookies of both
    answers merged in. *)
Theorem postVisitNote_accepted (env : Env) (n : VisitNote) (w : World) (s : Session)
        (r1 r2 : RawResponse) (tok : string) (form : WellSkyVisitNoteRequest)
        (entries : list (string * string)) :
  session w = Some s ->
  expiredAt (now w) s = false ->
  fetch env (trace w) (schedulingCall (cookies s)) = FetchResponse r1 ->
  sessionLost (raw_status r1) = false ->
  submissionToken s (toResponse r1) = Ok (Some tok) ->
  tok <> EmptyString ->
  transform env n = Ok form ->
  formEntries (withToken tok form) = Some entries ->
  fetch env (trace w ++ [EvFetch (schedulingCall (cookies s)) (FetchResponse r1)])%list
        (submissionCall (cookies (refreshed s (toResponse r1))) entries)
    = FetchResponse r2 ->
  accepted (raw_status r2) = true ->
  exists w',
    Adapters.postVisitNote env n w =
      (Ok {| success := true; res_visitId := visitId n; timestamp := now w';
             Types.request := Some (withToken tok form);
             Types.response := Some (body (toResponse r2));
             error := None |}, w') /\
    trace w' =
      (trace w ++
       [EvFetch (schedulingCall (cookies s)) (FetchResponse r1);
        EvFetch (submissionCall (cookies (refreshed s (toResponse r1))) entries)
                (FetchResponse r2)])%list /\
    session w' = Some (landed s (toResponse r1) (toResponse r2)) /\
    (now w <= now w')%Z.
Proof.
  intros Hs Hexp H1 Hl Htok Hne Hform Hentries H2 Hacc.
  pose proof (submitNote_posts env n w s r1 r2 tok form entries
                Hs H1 Hl Htok Hne Hform Hentries H2) as Hrun.
  cbv zeta in Hrun. rewrite Hacc in Hrun.
  eexists. split; [|split; [|split]].
  - rewrite (postVisitNote_authenticated env n w s Hs Hexp).
    apply handleRetry_success. exact Hrun.
  - simpl. rewrite <- List.app_assoc. reflexivity.
  - reflexivity.
  - simpl. lia.
Qed.

Lemma postVisitNote_accepted_witness :
  exists result w',
    Adapters.postVisitNote
      (scripted [textResponse 200 "OK" loginPage; textResponse 200 "OK" "saved"])
      sampleNote (loggedIn sampleSession 1000) = (Ok result, w') /\
    success result = true /\
    option_map csrfmiddlewaretoken (Types.request result) = Some (Some "tok1") /\
    timestamp result = 1240%Z /\
    methods (trace w') = ["GET"; "POST"].
Proof.
  destruct (postVisitNote_accepted
              (scripted [textResponse 200 "OK" loginPage; textResponse 200 "OK" "saved"])
              sampleNote (loggedIn sampleSession 1000) sampleSession
              {| raw_status := 200; raw_statusText := "OK"; raw_headers := ∅;
                 raw_setCookie := []; raw_body := JStr loginPage |}
              {| raw_status := 200; raw_statusText := "OK"; raw_headers := ∅;
                 raw_setCookie := []; raw_body := JStr "saved" |}
              "tok1" _ _ eq_refl eq_refl eq_refl eq_refl eq_refl
              ltac:(discriminate) eq_refl eq_refl eq_refl eq_refl)
    as (w' & Hrun & Htrace & _ & _).
  assert (Hw : w' =
               snd (Adapters.postVisitNote
                      (scripted [textResponse 200 "OK" loginPage;
                                 textResponse 200 "OK" "saved"])
                      sampleNote (loggedIn sampleSession 1000)))
    by (rewrite Hrun; reflexivity).
  eexists. exists w'. split; [exact Hrun|].
  split; [reflexivity|]. split; [reflexivity|].
  split; [|rewrite Htrace; reflexivity].
  change (now w' = 1240%Z). rewrite Hw. vm_compute. reflexivity.
Defined.

(** X19. Without a token there is no submission.  When the token-refresh
    page answers (status other than 403 and 302) but yields no token and
    the session holds none, or an empty one, [postVisitNote] fails with an
    Authentication error after that one GET: nothing is posted and nothing
    is retried. *)
Theorem postVisitNote_without_token (env : Env) (n : VisitNote) (w : World)
        (s : Session) (r1 : RawResponse) (tok : option string) :
  session w = Some s ->
  expiredAt (now w) s = false ->
  fetch env (trace w) (schedulingCall (cookies s)) = FetchResponse r1 ->
  sessionLost (raw_status r1) = false ->
  submissionToken s (toResponse r1) = Ok tok ->
  truthyStr tok = false ->
  exists w',
    Adapters.postVisitNote env n w =
      (Throw (authenticationError
                "Failed to obtain CSRF token. Please try logging in again." NoCause),
       w') /\
    trace w' =
      (trace w ++ [EvFetch (schedulingCall (cookies s)) (FetchResponse r1)])%list.
Proof.
  intros Hs Hexp H1 Hl Htok Hfalsy.
  eexists. split.
  - rewrite (postVisitNote_authenticated env n w s Hs Hexp).
    apply handleRetry_adapter_error; [|reflexivity].
    exact (submitNote_without_token env n w s r1 tok Hs H1 Hl Htok Hfalsy).
  - reflexivity.
Qed.

Lemma postVisitNote_without_token_witness :
  exists w',
    Adapters.postVisitNote
      (scripted [textResponse 500 "Internal Server Error" "down"]) sampleNote
      (loggedIn {| cookies := ["sessionid=abc"]; tokens := None; expiresAt := None |} 0) =
      (Throw (authenticationError
                "Failed to obtain CSRF token. Please try logging in again." NoCause),
       w') /\
    methods (trace w') = ["GET"].
Proof.
  destruct (postVisitNote_without_token
              (scripted [textResponse 500 "Internal Server Error" "down"]) sampleNote
              (loggedIn {| cookies := ["sessionid=abc"]; tokens := None;
                           expiresAt := None |} 0)
              {| cookies := ["sessionid=abc"]; tokens := None; expiresAt := None |}
              {| raw_status := 500; raw_statusText := "Internal Server Error";
                 raw_headers := ∅; raw_setCookie := []; raw_body := JStr "down" |}
              None eq_refl eq_refl eq_refl eq_refl eq_refl eq_refl)
    as (w' & Hrun & Htrace).
  exists w'. split; [exact Hrun|]. rewrite Htrace. reflexivity.
Defined.

(** X20. A submission the vendor turns down.  When the POST is answered
    with a status outside 200 to 399, the failure is an [EMRAdapterError]
    without a [status] of its own: of kind Authentication for 403, with a
    body preview of at most 500 characters, and of kind EMR_SPECIFIC with
    the status line in its message otherwise, a 5xx status included.
    Unless its message holds one of the network markers, [postVisitNote]
    throws it after that single POST. *)
Theorem postVisitNote_turned_down (env : Env) (n : VisitNote) (w : World) (s : Session)
        (r1 r2 : RawResponse) (tok : string) (form : WellSkyVisitNoteRequest)
        (entries : list (string * string)) :
  session w = Some s ->
  expiredAt (now w) s = false ->
  fetch env (trace w) (schedulingCall (cookies s)) = FetchResponse r1 ->
  sessionLost (raw_status r1) = false ->
  submissionToken s (toResponse r1) = Ok (Some tok) ->
  tok <> EmptyString ->
  transform env n = Ok form ->
  formEntries (withToken tok form) = Some entries ->
  fetch env (trace w ++ [EvFetch (schedulingCall (cookies s)) (FetchResponse r1)])%list
        (submissionCall (cookies (refreshed s (toResponse r1))) entries)
    = FetchResponse r2 ->
  accepted (raw_status r2) = false ->
  exists m cause w',
    let e := EMRAdapterError m
               (if (raw_status r2 =? 403)%Z then Authentication else EMRSpecific)
               WellSky cause in
    submitNote env n w = (Throw e, w') /\
    errorStatus e = None /\
    match cause with
    | CauseForbidden _ bodyPreview _ _ =>
        raw_status r2 = 403%Z /\ (String.length bodyPreview <= 500)%nat
    | CauseResponse r =>
        raw_status r2 <> 403%Z /\ r = toResponse r2 /\
        m = "WellSky post visit note failed with status " ++
            decimal (raw_status r2) ++ " " ++ raw_statusText r2
    | _ => False
    end /\
    (isNetworkError e = false ->
     Adapters.postVisitNote env n w = (Throw e, w') /\
     trace w' =
       (trace w ++
        [EvFetch (schedulingCall (cookies s)) (FetchResponse r1);
         EvFetch (submissionCall (cookies (refreshed s (toResponse r1))) entries)
                 (FetchResponse r2)])%list).
Proof.
  intros Hs Hexp H1 Hl Htok Hne Hform Hentries H2 Hacc.
  pose proof (submitNote_posts env n w s r1 r2 tok form entries
                Hs H1 Hl Htok Hne Hform Hentries H2) as Hrun.
  cbv zeta in Hrun. rewrite Hacc in Hrun.
  destruct (raw_status r2 =? 403)%Z eqn:H403.
  - eexists. eexists. eexists. cbv zeta.
    split; [exact Hrun|]. split; [reflexivity|]. split.
    + split; [apply Z.eqb_eq; exact H403|].
      destruct (body (toResponse r2)); apply substring0_length.
    + intros Hnet. split.
      * rewrite (postVisitNote_authenticated env n w s Hs Hexp).
        apply handleRetry_adapter_error; [exact Hrun | exact Hnet].
      * simpl. rewrite <- List.app_assoc. reflexivity.
  - eexists. eexists. eexists. cbv zeta.
    split; [exact Hrun|]. split; [reflexivity|]. split.
    + split; [apply Z.eqb_neq; exact H403|]. split; reflexivity.
    + intros Hnet. split.
      * rewrite (postVisitNote_authenticated env n w s Hs Hexp).
        apply handleRetry_adapter_error; [exact Hrun | exact Hnet].
      * simpl. rewrite <- List.app_assoc. reflexivity.
Qed.

Lemma postVisitNote_turned_down_witness :
  exists e w',
    Adapters.postVisitNote
      (scripted [textResponse 200 "OK" loginPage;
                 textResponse 503 "Service Unavailable" "busy"])
      sampleNote (loggedIn sampleSession 0) = (Throw e, w') /\
    errorType e = Some EMRSpecific /\
    methods (trace w') = ["GET"; "POST"].
Proof.
  destruct (postVisitNote_turned_down
              (scripted [textResponse 200 "OK" loginPage;
                         textResponse 503 "Service Unavailable" "busy"])
              sampleNote (loggedIn sampleSession 0) sampleSession
              {| raw_status := 200; raw_statusText := "OK"; raw_headers := ∅;
                 raw_setCookie := []; raw_body := JStr loginPage |}
              {| raw_status := 503; raw_statusText := "Service Unavailable";
                 raw_headers := ∅; raw_setCookie := []; raw_body := JStr "busy" |}
              "tok1" _ _ eq_refl eq_refl eq_refl eq_refl eq_refl
              ltac:(discriminate) eq_refl eq_refl eq_refl eq_refl)
    as (m & cause & w' & Hsub & _ & Hcause & Hpost).
  destruct cause as [| | | |]; try contradiction.
  - destruct Hcause as (_ & _ & ->).
    destruct (Hpost eq_refl) as [Hrun Htrace].
    eexists. exists w'. split; [exact Hrun|]. split; [reflexivity|].
    rewrite Htrace. reflexivity.
  - destruct Hcause as [Habs _]. discriminate Habs.
Defined.

(** The hypothesis on the message in X20 is needed: the message of a 403
    failure quotes the form, so a note whose text holds a network marker
    makes the failure retryable, and the form is posted three times. *)
Example postVisitNote_turned_down_retried :
  let note := {| visitId := Some "123"; patientId := Some "p1"; caregiverId := Some "c1";
                 visitDate := Some (ValidDate 1766361600000);
                 startTime := None; endTime := None;
                 note := Some "no network at the client's home"; tasks := None;
                 metadata := None |} in
  let outcome :=
    Adapters.postVisitNote
      (scripted [textResponse 200 "OK" loginPage; forbidden;
                 textResponse 200 "OK" loginPage; forbidden;
                 textResponse 200 "OK" loginPage; forbidden])
      note (loggedIn sampleSession 0) in
  methods (trace (snd outcome)) = ["GET"; "POST"; "GET"; "POST"; "GET"; "POST"] /\
  sleeps (trace (snd outcome)) = [1000; 2000]%Z.
Proof. split; vm_compute; reflexivity. Qed.

Lemma submitNote_timeout (env : Env) (n : VisitNote) (s : Session) :
  (forall history, exists m st,
     fetch env history (schedulingCall (cookies s)) = FetchRejected "AbortError" m st) ->
  forall w, session w = Some s ->
    exists m st,
      submitNote env n w =
      (Throw timeoutError,
       settle env (schedulingCall (cookies s)) (FetchRejected "AbortError" m st) w).
Proof.
  intros Hnet w Hs. destruct (Hnet (trace w)) as (m & st & Hf).
  exists m, st. unfold submitNote.
  unfold getTokens, getCookies. unfold bind at 1. unfold gets at 1.
  unfold bind at 1. unfold gets at 1.
  rewrite Hs. simpl cookiesOf. unfold get.
  erewrite bind_throw; [reflexivity|].
  unfold request. unfold schedulingCall in Hf. rewrite Hf. reflexivity.
Qed.

(** X21. A vendor that does not answer.  When every call of the
    token-refresh page times out, [postVisitNote] of the adapter makes
    three attempts, each a single GET, sleeping 1000 ms and then 2000 ms in
    between, and throws the time-out error of the last one; the session is
    left as it was, and the clock has moved on by the two sleeps at least
    (and by three times the timeout too when each call took that long to
    be given up).  The service, for a record with every required property,
    throws that error wrapped as an [EMRAdapterError] of kind
    EMR_SPECIFIC. *)
Theorem postVisitNote_timeout_retried (env : Env) (svc : Services.VisitNoteService)
        (n : VisitNote) (w : World) (s : Session) :
  session w = Some s ->
  expiredAt (now w) s = false ->
  (forall history, exists m st,
     fetch env history (schedulingCall (cookies s)) = FetchRejected "AbortError" m st) ->
  exists w',
    Adapters.postVisitNote env n w = (Throw timeoutError, w') /\
    fetchCalls (trace w') =
      (fetchCalls (trace w) ++
       [schedulingCall (cookies s); schedulingCall (cookies s);
        schedulingCall (cookies s)])%list /\
    sleeps (trace w') = (sleeps (trace w) ++ [1000; 2000])%list%Z /\
    (now w + 3000 <= now w')%Z /\
    ((forall history, (defaultTimeout <= latency env history (schedulingCall (cookies s)))%Z) ->
     (now w + 3000 + 3 * defaultTimeout <= now w')%Z) /\
    session w' = Some s /\
    (~ missingRequired n ->
     Services.postVisitNote env svc n w =
       (Throw (EMRAdapterError
                 ("Failed to post visit note: Request timeout after " ++
                  decimal defaultTimeout ++ "ms")
                 EMRSpecific (Services.emrType svc) (CauseThrown timeoutError)), w')).
Proof.
  intros Hs Hexp Hnet.
  pose proof (submitNote_timeout env n s Hnet) as Hfail.
  destruct (Hfail w Hs) as (m1 & st1 & H1).
  set (w1 := snd (sleep (backoffMs retryConfig * 2 ^ (0 + 1 - 1))
                    (settle env (schedulingCall (cookies s))
                            (FetchRejected "AbortError" m1 st1) w))).
  destruct (Hfail w1 Hs) as (m2 & st2 & H2).
  set (w2 := snd (sleep (backoffMs retryConfig * 2 ^ (0 + 1 + 1 - 1))
                    (settle env (schedulingCall (cookies s))
                            (FetchRejected "AbortError" m2 st2) w1))).
  destruct (Hfail w2 Hs) as (m3 & st3 & H3).
  assert (Hrun : Adapters.postVisitNote env n w =
                 (Throw timeoutError,
                  settle env (schedulingCall (cookies s))
                         (FetchRejected "AbortError" m3 st3) w2)).
  { rewrite (postVisitNote_authenticated env n w s Hs Hexp).
    unfold handleRetry, execute.
    change (Z.to_nat (maxAttempts retryConfig)) with 3%nat.
    rewrite (attempts_retry retryConfig (submitNote env n) (Some defaultRetryable)
               2 0 Undefined timeoutError w _ H1 eq_refl eq_refl).
    fold w1.
    rewrite (attempts_retry retryConfig (submitNote env n) (Some defaultRetryable)
               1 (0 + 1) timeoutError timeoutError w1 _ H2 eq_refl eq_refl).
    fold w2.
    exact (attempts_exhausted retryConfig (submitNote env n) (Some defaultRetryable)
             0 (0 + 1 + 1) timeoutError timeoutError w2 _ H3 eq_refl). }
  eexists. split; [exact Hrun|].
  split; [|split; [|split; [|split; [|split]]]].
  - simpl. unfold fetchCalls. rewrite !List.flat_map_app. simpl.
    rewrite <- !List.app_assoc. reflexivity.
  - simpl. unfold sleeps. rewrite !List.flat_map_app. simpl.
    rewrite <- !List.app_assoc. reflexivity.
  - simpl. lia.
  - intros Hslow. simpl.
    pose proof (Hslow (trace w)) as L1.
    pose proof (Hslow (trace w1)) as L2.
    pose proof (Hslow (trace w2)) as L3.
    simpl in L2, L3. unfold defaultTimeout in *. lia.
  - simpl. exact Hs.
  - intros Hvalid. apply validateVisitNote_ok in Hvalid.
    unfold Services.postVisitNote. rewrite Hvalid. unfold tryCatch.
    unfold Services.adapterPostVisitNote. destruct (Services.adapter svc).
    rewrite Hrun. reflexivity.
Qed.

Lemma postVisitNote_timeout_retried_witness :
  exists w',
    Services.postVisitNote timingOut wellSkyService sampleNote (loggedIn sampleSession 0) =
      (Throw (EMRAdapterError "Failed to post visit note: Request timeout after 30000ms"
                EMRSpecific WellSky (CauseThrown timeoutError)), w') /\
    methods (trace w') = ["GET"; "GET"; "GET"] /\
    sleeps (trace w') = [1000; 2000]%Z /\
    now w' = 93000%Z.
Proof.
  destruct (postVisitNote_timeout_retried
              timingOut wellSkyService sampleNote (loggedIn sampleSession 0) sampleSession
              eq_refl eq_refl
              (fun _ => ex_intro _ "This operation was aborted"
                          (ex_intro _ None eq_refl)))
    as (w' & Hrun & Hcalls & Hsleeps & _ & _ & _ & Hsvc).
  exists w'. split; [exact (Hsvc sampleNote_complete)|]. split; [|split].
  - unfold methods. rewrite Hcalls. reflexivity.
  - rewrite Hsleeps. reflexivity.
  - change (now (snd (@Throw PostResult timeoutError, w')) = 93000%Z).
    rewrite <- Hrun. vm_compute. reflexivity.
Defined.

(* ===================================================================== *)
(** ** Authentication: where it stops *)
(* ===================================================================== *)

(** X22. A login page without a token ends the login at once.  When the
    login page is served but holds no token, [authenticate] fails with an
    Authentication error after that one GET: the credentials are never
    sent.  The cookies of the page are kept all the same. *)
Theorem authenticate_without_token (env : Env) (credentials : Credentials)
        (w : World) (raw : RawResponse) :
  fetch env (trace w) (loginPageCall (loginBaseUrl credentials)) = FetchResponse raw ->
  extractCSRFToken (raw_body raw) = None ->
  exists w',
    authenticate env credentials w =
      (Throw (authenticationError "Failed to extract CSRF token from login page" NoCause),
       w') /\
    trace w' =
      (trace w ++ [EvFetch (loginPageCall (loginBaseUrl credentials))
                           (FetchResponse raw)])%list /\
    cookieList w' = cookieList (afterUpdates [res_cookies (toResponse raw)] w).
Proof.
  intros Hf Hex. eexists. split.
  - unfold authenticate, tryCatch. unfold bind at 1. unfold submitLogin.
    unfold get.
    erewrite bind_ok; [|apply request_response; exact Hf].
    unfold bind at 1. unfold updateCookies at 1. unfold modify at 1.
    change (body (toResponse raw)) with (raw_body raw). rewrite Hex.
    reflexivity.
  - unfold cookieList, afterUpdates, updateCookies, modify. simpl.
    destruct (session w); split; reflexivity.
Qed.

Lemma authenticate_without_token_witness :
  exists w',
    authenticate (scripted [textResponse 200 "OK" "<html>maintenance</html>"])
                 sampleCredentials (freshWorld 0) =
      (Throw (authenticationError "Failed to extract CSRF token from login page" NoCause),
       w') /\
    methods (trace w') = ["GET"].
Proof.
  destruct (authenticate_without_token
              (scripted [textResponse 200 "OK" "<html>maintenance</html>"])
              sampleCredentials (freshWorld 0)
              {| raw_status := 200; raw_statusText := "OK"; raw_headers := ∅;
                 raw_setCookie := []; raw_body := JStr "<html>maintenance</html>" |}
              eq_refl eq_refl)
    as (w' & Hrun & Htrace & _).
  exists w'. split; [exact Hrun|]. rewrite Htrace. reflexivity.
Defined.

(** X23. A vendor that cannot be reached.  When the request for the login
    page is rejected, [authenticate] makes no further call and no second
    attempt; it throws an Authentication error whose message quotes the
    message of the failure (the time-out message when the request was
    aborted) and whose cause is that failure.  The session is not touched. *)
Theorem authenticate_unreachable (env : Env) (credentials : Credentials)
        (w : World) (name message : string) (st : option Z) :
  fetch env (trace w) (loginPageCall (loginBaseUrl credentials))
    = FetchRejected name message st ->
  let failure := if String.eqb name "AbortError" then timeoutError
                 else PlainError name message st in
  exists m,
    errorMessage failure = Some m /\
    authenticate env credentials w =
      (Throw (authenticationError ("WellSky authentication error: " ++ m)
                (CauseThrown failure)),
       settle env (loginPageCall (loginBaseUrl credentials))
              (FetchRejected name message st) w).
Proof.
  intros Hf failure. subst failure.
  assert (Hreq : request env "GET"
                   ((loginBaseUrl credentials ++ "/login") ++ "/?next=" ++ nextUrl)
                   noOptions w =
                 (Throw (if String.eqb name "AbortError" then timeoutError
                         else PlainError name message st),
                  settle env (loginPageCall (loginBaseUrl credentials))
                         (FetchRejected name message st) w)).
  { unfold request. unfold loginPageCall in Hf. rewrite Hf.
    destruct (String.eqb name "AbortError"); reflexivity. }
  destruct (String.eqb name "AbortError"); eexists; (split; [reflexivity|]);
    unfold authenticate, tryCatch; unfold bind at 1; unfold submitLogin; unfold get;
    (erewrite bind_throw; [|exact Hreq]); reflexivity.
Qed.

Lemma authenticate_unreachable_witness :
  authenticate (refusing "TypeError" "fetch failed") sampleCredentials (freshWorld 0) =
    (Throw (authenticationError "WellSky authentication error: fetch failed"
              (CauseThrown (PlainError "TypeError" "fetch failed" None))),
     settle (refusing "TypeError" "fetch failed") (loginPageCall baseUrlDefault)
            (FetchRejected "TypeError" "fetch failed" None) (freshWorld 0)).
Proof.
  destruct (authenticate_unreachable (refusing "TypeError" "fetch failed")
              sampleCredentials (freshWorld 0) "TypeError" "fetch failed" None eq_refl)
    as (m & Hm & Hrun).
  injection Hm as <-. exact Hrun.
Defined.

(** X24. A login the vendor rejects at the first step.  When the login page
    yields a token and the multilogin call is answered with status 200 and
    an object that reports failure (no truthy [success], or a non-empty
    [errors]), [authenticate] fails with an Authentication error that
    carries that answer, after those two calls: the primary login form is
    not submitted. *)
Theorem authenticate_multilogin_rejected (env : Env) (credentials : Credentials)
        (w : World) (r1 r2 : RawResponse) (tok : string) :
  fetch env (trace w) (loginPageCall (loginBaseUrl credentials)) = FetchResponse r1 ->
  extractCSRFToken (raw_body r1) = Some tok ->
  fetch env (trace w ++ [EvFetch (loginPageCall (loginBaseUrl credentials))
                                 (FetchResponse r1)])%list
        (multiloginCall (loginBaseUrl credentials) credentials tok
           (cookieList (afterUpdates [res_cookies (toResponse r1)] w)))
    = FetchResponse r2 ->
  raw_status r2 = 200%Z ->
  isObject (raw_body r2) = true ->
  multiloginRejected env (raw_body r2) = Ok true ->
  exists w',
    authenticate env credentials w =
      (Throw (authenticationError "WellSky multilogin failed"
                (CauseResponse (toResponse r2))), w') /\
    trace w' =
      (trace w ++
       [EvFetch (loginPageCall (loginBaseUrl credentials)) (FetchResponse r1);
        EvFetch (multiloginCall (loginBaseUrl credentials) credentials tok
                   (cookieList (afterUpdates [res_cookies (toResponse r1)] w)))
                (FetchResponse r2)])%list.
Proof.
  intros H1 Hex H2 H200 Hobj Hrej.
  unfold cookieList, afterUpdates, updateCookies, modify in H2. simpl in H2.
  destruct (session w) as [s0|] eqn:Hs; (eexists; split;
  [ unfold authenticate, tryCatch; unfold bind at 1; unfold submitLogin;
    unfold get;
    (erewrite bind_ok; [|apply request_response; exact H1]);
    unfold bind at 1; unfold updateCookies at 1; unfold modify at 1;
    simpl session; rewrite Hs;
    change (body (toResponse r1)) with (raw_body r1); rewrite Hex;
    unfold getCookies at 1; unfold bind at 1; unfold gets at 1;
    unfold post at 1;
    (erewrite bind_ok; [|apply request_response; exact H2]);
    unfold bind at 1; unfold updateCookies at 1; unfold modify at 1;
    change (status (toResponse r2)) with (raw_status r2);
    change (body (toResponse r2)) with (raw_body r2);
    rewrite H200, Hobj, Hrej; reflexivity
  | unfold cookieList, afterUpdates, updateCookies, modify; simpl; rewrite ?Hs;
    simpl; rewrite <- List.app_assoc; reflexivity ]).
Qed.

Lemma authenticate_multilogin_rejected_witness :
  exists e w',
    authenticate
      (scripted [textResponse 200 "OK" loginPage;
                 FetchResponse {| raw_status := 200; raw_statusText := "OK";
                                  raw_headers := ∅; raw_setCookie := [];
                                  raw_body := JObj [("success", JBool false)] |}])
      sampleCredentials (freshWorld 0) = (Throw e, w') /\
    errorMessage e = Some "WellSky multilogin failed" /\
    methods (trace w') = ["GET"; "POST"].
Proof.
  destruct (authenticate_multilogin_rejected
              (scripted [textResponse 200 "OK" loginPage;
                         FetchResponse {| raw_status := 200; raw_statusText := "OK";
                                          raw_headers := ∅; raw_setCookie := [];
                                          raw_body := JObj [("success", JBool false)] |}])
              sampleCredentials (freshWorld 0)
              {| raw_status := 200; raw_statusText := "OK"; raw_headers := ∅;
                 raw_setCookie := []; raw_body := JStr loginPage |}
              {| raw_status := 200; raw_statusText := "OK"; raw_headers := ∅;
                 raw_setCookie := []; raw_body := JObj [("success", JBool false)] |}
              "tok1" eq_refl eq_refl eq_refl eq_refl eq_refl eq_refl)
    as (w' & Hrun & Htrace).
  eexists. exists w'. split; [exact Hrun|]. split; [reflexivity|].
  rewrite Htrace. reflexivity.
Defined.
